(** * CLSIII occurrence engine: a shallow embedding of [occur.py]

    The development follows the layout of the Python module:

    - a small layer for what Python and NumPy do underneath the code
      (exceptions, [nan], indexing with wrap-around, [digitize],
      [unique], [logspace], broadcasting);
    - SciPy's [RegularGridInterpolator] in the one configuration the
      module uses (two dimensions, linear, [bounds_error=False],
      [fill_value=0.001]);
    - the classes [Completeness], [Hierarchy] and [PowerLaw], and the
      function [lngrid].

    Numbers.  A finite float is idealised as an exact rational ([Q]):
    no rounding and no overflow.  [nan], which the module writes and
    tests for itself, is kept ([fl]).  The transcendental functions the
    module calls ([np.log], [np.exp], [np.log10], [10**x], [x**y]) are
    an interface ([Libm]); the classes only compare, count, add and
    index their results, so every definition below evaluates once an
    instance is chosen.  [lngrid] is a closed formula in two logarithms;
    it is embedded over [R] with the real [ln]. *)

From Stdlib Require Import List ZArith QArith Qminmax Qround Qabs Bool Lia Lqa.

(** Linear and non-linear arithmetic over [Q], named before the tactics
    for [R] take the short names. *)
Ltac qlra := lra.
Ltac qnra := nra.

From Stdlib Require Import Reals Lra.
Import ListNotations.

Local Open Scope Q_scope.

(** ** Python: exceptions *)

Inductive exn : Type :=
| AssertionError
| IndexError
| ValueError
| AttributeError.

Inductive result (A : Type) : Type :=
| Ok (a : A)
| Raise (e : exn).

Arguments Ok {A} a.
Arguments Raise {A} e.

Definition bind {A B : Type} (m : result A) (k : A -> result B) : result B :=
  match m with
  | Ok a => k a
  | Raise e => Raise e
  end.

Notation "x <- m ;; k" := (bind m (fun x => k))
  (at level 61, m at next level, right associativity).
Notation "' p <- m ;; k" := (bind m (fun x => match x with p => k end))
  (at level 61, p pattern, m at next level, right associativity).

(** [for x in xs: st = body(st, x)], stopping at the first exception. *)
Fixpoint for_each {S A : Type} (xs : list A) (body : S -> A -> result S)
    (st : S) : result S :=
  match xs with
  | [] => Ok st
  | x :: xs' => st' <- body st x ;; for_each xs' body st'
  end.

Fixpoint map_res {A B : Type} (f : A -> result B) (xs : list A) : result (list B) :=
  match xs with
  | [] => Ok []
  | x :: xs' => y <- f x ;; ys <- map_res f xs' ;; Ok (y :: ys)
  end.

(** [np.arange(n)] for an integer [n]: empty when [n <= 0]. *)
Definition arange (n : Z) : list Z :=
  map Z.of_nat (seq 0 (Z.to_nat n)).

(** ** Floats with [nan] *)

Inductive fl : Type :=
| Num (q : Q)
| NaN.

Definition fl_add (a b : fl) : fl :=
  match a, b with
  | Num x, Num y => Num (x + y)
  | _, _ => NaN
  end.

(** [nan] stays [nan], also times zero. *)
Definition fl_mul (a b : fl) : fl :=
  match a, b with
  | Num x, Num y => Num (x * y)
  | _, _ => NaN
  end.

Definition fl_sub (a b : fl) : fl :=
  match a, b with
  | Num x, Num y => Num (x - y)
  | _, _ => NaN
  end.

Definition fl_opp (a : fl) : fl :=
  match a with
  | Num x => Num (- x)
  | NaN => NaN
  end.

Definition isnan (a : fl) : bool :=
  match a with
  | NaN => true
  | Num _ => false
  end.

Definition fl_sum (xs : list fl) : fl := fold_left fl_add xs (Num 0).

(** Equality of floats up to the representation of the rational. *)
Definition fl_eq (a b : fl) : Prop :=
  match a, b with
  | Num x, Num y => x == y
  | NaN, NaN => True
  | _, _ => False
  end.

(** ** NumPy *)

Definition Qltb (x y : Q) : bool := negb (Qle_bool y x).

(** [np.searchsorted(a, x, side='right')] on an ascending [a]: the
    number of leading entries [<= x]. *)
Fixpoint searchsorted_right (a : list Q) (x : Q) : nat :=
  match a with
  | [] => O
  | e :: a' => if Qle_bool e x then S (searchsorted_right a' x) else O
  end.

(** [np.searchsorted(a, x)] (side ['left']): the number of leading
    entries [< x]. *)
Fixpoint searchsorted_left (a : list Q) (x : Q) : nat :=
  match a with
  | [] => O
  | e :: a' => if Qltb e x then S (searchsorted_left a' x) else O
  end.

(** [np.digitize(x, bins)] for ascending [bins] and the default
    [right=False]. *)
Definition digitize (x : Q) (bins : list Q) : Z :=
  Z.of_nat (searchsorted_right bins x).

(** [a[k]] for an integer [k]: negative indices count from the end,
    anything outside [-len, len-1] raises [IndexError]. *)
Definition getitem {A : Type} (a : list A) (k : Z) : result A :=
  let n := Z.of_nat (length a) in
  let k' := (if k <? 0 then k + n else k)%Z in
  if ((0 <=? k') && (k' <? n))%Z
  then match nth_error a (Z.to_nat k') with
       | Some v => Ok v
       | None => Raise IndexError
       end
  else Raise IndexError.

(** Replace the entry at position [i]. *)
Fixpoint list_set {A : Type} (a : list A) (i : nat) (v : A) : list A :=
  match a, i with
  | [], _ => []
  | _ :: a', O => v :: a'
  | x :: a', S i' => x :: list_set a' i' v
  end.

(** [a[k] = v]. *)
Definition setitem {A : Type} (a : list A) (k : Z) (v : A) : result (list A) :=
  let n := Z.of_nat (length a) in
  let k' := (if k <? 0 then k + n else k)%Z in
  if ((0 <=? k') && (k' <? n))%Z
  then Ok (list_set a (Z.to_nat k') v)
  else Raise IndexError.

(** Insertion in an ascending list without repetition. *)
Fixpoint insert_unique (x : Q) (a : list Q) : list Q :=
  match a with
  | [] => [x]
  | e :: a' =>
      match x ?= e with
      | Lt => x :: e :: a'
      | Eq => e :: a'
      | Gt => e :: insert_unique x a'
      end
  end.

(** [np.unique(a)]: the distinct values of [a], ascending. *)
Definition unique (a : list Q) : list Q :=
  fold_right insert_unique [] a.

Definition Qsum (xs : list Q) : Q := fold_left Qplus xs 0.

(** Ascending order, for the median. *)
Fixpoint insert_sorted (x : Q) (a : list Q) : list Q :=
  match a with
  | [] => [x]
  | e :: a' => if Qle_bool x e then x :: e :: a' else e :: insert_sorted x a'
  end.

Definition sort (a : list Q) : list Q := fold_right insert_sorted [] a.

(** [np.linspace(start, stop, num)]. *)
Definition linspace (start stop : Q) (num : nat) : list Q :=
  match num with
  | O => []
  | S O => [start]
  | S d =>
      let step := (stop - start) / inject_Z (Z.of_nat d) in
      map (fun k => start + inject_Z (Z.of_nat k) * step) (seq 0 num)
  end.

(** [np.all(np.diff(p) > 0)]. *)
Fixpoint strictly_ascending (p : list Q) : bool :=
  match p with
  | [] => true
  | a :: p' =>
      match p' with
      | [] => true
      | b :: _ => Qltb a b && strictly_ascending p'
      end
  end.

(** ** SciPy: [RegularGridInterpolator], two dimensions, linear

    [rgi_z] stands for the array handed to the constructor by
    [Completeness.interpolate], that is [grid[2].T]: a transposed view
    of the matrix [z], so entry [(ix, iy)] of the view is [z[iy][ix]].
    The view is kept as the matrix it aliases, and [rgi_value] reads it
    with the two indices swapped. *)

Record RegularGridInterpolator : Type := {
  rgi_x : list Q;
  rgi_y : list Q;
  rgi_z : list (list fl);
  fill_value : Q
}.

(** The shape check of the constructor: [values.shape[i] == len(p)]. *)
Definition shape_ok (px py : list Q) (z : list (list fl)) : bool :=
  Nat.eqb (length z) (length py) &&
  forallb (fun row => Nat.eqb (length row) (length px)) z.

(** [RegularGridInterpolator((px, py), z.T, bounds_error=False,
    fill_value=fv)]: every axis must be strictly ascending. *)
Definition rgi_init (px py : list Q) (z : list (list fl)) (fv : Q)
  : result RegularGridInterpolator :=
  if strictly_ascending px && strictly_ascending py then
    if shape_ok px py z
    then Ok {| rgi_x := px; rgi_y := py; rgi_z := z; fill_value := fv |}
    else Raise ValueError
  else Raise ValueError.

Definition rgi_value (z : list (list fl)) (ix iy : Z) : result fl :=
  row <- getitem z iy ;; getitem row ix.

(** [_find_indices], one dimension: [i = searchsorted(grid, x) - 1],
    clamped to [0, size - 2]. *)
Definition find_index (grid : list Q) (x : Q) : Z :=
  let i := (Z.of_nat (searchsorted_left grid x) - 1)%Z in
  let i := (if i <? 0 then 0 else i)%Z in
  let n := Z.of_nat (length grid) in
  (if i >? n - 2 then n - 2 else i)%Z.

(** [(x - grid[i]) / (grid[i + 1] - grid[i])]; a zero denominator only
    meets a zero numerator at a point inside the bounds, and gives
    [nan]. *)
Definition norm_distance (grid : list Q) (i : Z) (x : Q) : result fl :=
  lo <- getitem grid i ;;
  hi <- getitem grid (i + 1)%Z ;;
  if Qeq_bool hi lo then Ok NaN else Ok (Num ((x - lo) / (hi - lo))).

(** [x < grid[0]] or [x > grid[-1]]. *)
Definition out_of_bounds (grid : list Q) (x : Q) : result bool :=
  first <- getitem grid 0%Z ;;
  last <- getitem grid (-1)%Z ;;
  Ok (Qltb x first || Qltb last x).

(** One point of [__call__]: the weighted sum over the four corners of
    the cell, then [result[out_of_bounds] = fill_value]. *)
Definition rgi_call1 (itp : RegularGridInterpolator) (x y : Q) : result fl :=
  let i := find_index (rgi_x itp) x in
  let j := find_index (rgi_y itp) y in
  tx <- norm_distance (rgi_x itp) i x ;;
  ty <- norm_distance (rgi_y itp) j y ;;
  ox <- out_of_bounds (rgi_x itp) x ;;
  oy <- out_of_bounds (rgi_y itp) y ;;
  v00 <- rgi_value (rgi_z itp) i j ;;
  v01 <- rgi_value (rgi_z itp) i (j + 1)%Z ;;
  v10 <- rgi_value (rgi_z itp) (i + 1)%Z j ;;
  v11 <- rgi_value (rgi_z itp) (i + 1)%Z (j + 1)%Z ;;
  let one := Num 1 in
  let values :=
    fl_add (fl_add (fl_add (fl_add (Num 0)
      (fl_mul v00 (fl_mul (fl_sub one tx) (fl_sub one ty))))
      (fl_mul v01 (fl_mul (fl_sub one tx) ty)))
      (fl_mul v10 (fl_mul tx (fl_sub one ty))))
      (fl_mul v11 (fl_mul tx ty)) in
  if ox || oy then Ok (Num (fill_value itp)) else Ok values.

(** [np.array([np.atleast_1d(x), np.atleast_1d(y)]).T]: the rows of a
    two-column array; coordinate arrays of different lengths do not
    stack. *)
Definition stack_points (xs ys : list Q) : result (list (Q * Q)) :=
  if Nat.eqb (length xs) (length ys)
  then Ok (combine xs ys)
  else Raise ValueError.

Definition rgi_call (itp : RegularGridInterpolator) (pts : list (Q * Q))
  : result (list fl) :=
  map_res (fun p => rgi_call1 itp (fst p) (snd p)) pts.

(** ** The transcendental functions the module calls *)

Class Libm : Type := {
  np_log : Q -> Q;      (* np.log *)
  np_exp : Q -> Q;      (* np.exp *)
  np_log10 : Q -> Q;    (* np.log10 *)
  pow10 : Q -> Q;       (* 10**x *)
  np_power : Q -> Q -> Q;  (* x**y *)
  np_sqrt : Q -> Q      (* np.sqrt *)
}.

(** ** class Completeness *)

Module Completeness.

(** One row of the injection/recovery table: the columns [xcol], [ycol]
    and ['recovered']. *)
Record Trial : Type := {
  inj_x : Q;
  inj_y : Q;
  recovered : bool
}.

(** [self.grid = (xgrid, ygrid, z)], with [z[j][i]] the cell of mass
    [ygrid[j]] and axis [xgrid[i]]. *)
Record Grid : Type := {
  xgrid : list Q;
  ygrid : list Q;
  z : list (list fl)
}.

Record t : Type := {
  recoveries : list Trial;
  grid : option Grid;
  interpolator : option RegularGridInterpolator
}.

(** [Completeness(recoveries)]. *)
Definition init (recs : list Trial) : t :=
  {| recoveries := recs; grid := None; interpolator := None |}.

Definition in_range (lo hi v : Q) : bool := Qle_bool v hi && Qle_bool lo v.

(** Python's [max] and [min] over a non-empty sequence. *)
Definition py_max (x : Q) (xs : list Q) : Q := fold_left Qmax xs x.
Definition py_min (x : Q) (xs : list Q) : Q := fold_left Qmin xs x.

Section WithLibm.
Context {L : Libm}.

(** [np.logspace(np.log10(lo), np.log10(hi), resolution)]. *)
Definition logspace_lim (lim : Q * Q) (resolution : nat) : list Q :=
  map pow10 (linspace (np_log10 (fst lim)) (np_log10 (snd lim)) resolution).

Definition win_low (v logwin : Q) : Q := pow10 (np_log10 v - logwin / 2).
Definition win_high (v logwin : Q) : Q := pow10 (np_log10 v + logwin / 2).

(** [yinj[np.where((xinj <= xhigh) & (xinj >= xlow))[0]]]. *)
Definition xbox (recs : list Trial) (x xlogwin : Q) : list Q :=
  map inj_y
    (filter (fun r => in_range (win_low x xlogwin) (win_high x xlogwin) (inj_x r))
       recs).

Definition in_box (x y xlogwin ylogwin : Q) (r : Trial) : bool :=
  in_range (win_low x xlogwin) (win_high x xlogwin) (inj_x r) &&
  in_range (win_low y ylogwin) (win_high y ylogwin) (inj_y r).

(** [boxall]: the trials in the local box. *)
Definition boxall (recs : list Trial) (x y xlogwin ylogwin : Q) : list Trial :=
  filter (in_box x y xlogwin ylogwin) recs.

(** [boxgood]: the same test on [xinj[good]], [yinj[good]]. *)
Definition boxgood (recs : list Trial) (x y xlogwin ylogwin : Q) : list Trial :=
  filter (in_box x y xlogwin ylogwin) (filter recovered recs).

(** [len(xbox) == 0 or y > max(xbox) or y < min(xbox)]. *)
Definition uncovered (recs : list Trial) (x y xlogwin : Q) : bool :=
  match xbox recs x xlogwin with
  | [] => true
  | m :: ms => Qltb (py_max m ms) y || Qltb y (py_min m ms)
  end.

(** The body of the double loop: the value stored in [z[j, i]] for
    [x = xgrid[i]], [y = ygrid[j]]. *)
Definition cell (recs : list Trial) (xlogwin ylogwin x y : Q) : fl :=
  if uncovered recs x y xlogwin then NaN
  else
    let nall := length (boxall recs x y xlogwin ylogwin) in
    let ngood := length (boxgood recs x y xlogwin ylogwin) in
    if Nat.ltb 10 nall
    then Num (inject_Z (Z.of_nat ngood) / inject_Z (Z.of_nat nall))
    else NaN.

(** [completeness_grid(xlim, ylim, resolution, xlogwin, ylogwin)].  Every
    cell is written once, from the trials alone, so the double loop is
    the matrix of its bodies.  The cached interpolator is left as it
    is. *)
Definition completeness_grid (self : t) (xlim ylim : Q * Q)
    (resolution : nat) (xlogwin ylogwin : Q) : t :=
  let xg := logspace_lim xlim resolution in
  let yg := logspace_lim ylim resolution in
  let zz := map (fun y => map (fun x => cell (recoveries self) xlogwin ylogwin x y) xg) yg in
  {| recoveries := recoveries self;
     grid := Some {| xgrid := xg; ygrid := yg; z := zz |};
     interpolator := interpolator self |}.

End WithLibm.

(** [interpolate(x, y, refresh)]; [x] and [y] after [np.atleast_1d].
    Returns the object with its cache and the interpolated values. *)
Definition interpolate (self : t) (xs ys : list Q) (refresh : bool)
  : result (t * list fl) :=
  self' <-
    (match interpolator self, refresh with
     | Some _, false => Ok self
     | _, _ =>
         match grid self with
         | None => Raise AssertionError
         | Some g =>
             itp <- rgi_init (xgrid g) (ygrid g) (z g) (1 # 1000) ;;
             Ok {| recoveries := recoveries self;
                   grid := grid self;
                   interpolator := Some itp |}
         end
     end) ;;
  match interpolator self' with
  | None => Raise AttributeError
  | Some itp =>
      pts <- stack_points xs ys ;;
      vs <- rgi_call itp pts ;;
      Ok (self', vs)
  end.

(** [self.grid[2][np.isnan(self.grid[2])] = v], as both constructors
    below do right after [completeness_grid]: the matrix of the grid
    just built is changed in place; an interpolator cached earlier was
    built on another matrix and does not see it. *)
Definition fill_nan (self : t) (v : Q) : t :=
  {| recoveries := recoveries self;
     grid :=
       match grid self with
       | None => None
       | Some g =>
           Some {| xgrid := xgrid g; ygrid := ygrid g;
                   z := map (map (fun c => if isnan c then Num v else c)) (z g) |}
       end;
     interpolator := interpolator self |}.

End Completeness.

(** [np.diff(a)] on a one-dimensional array. *)
Fixpoint np_diff (a : list Q) : list Q :=
  match a with
  | [] => []
  | x :: a' =>
      match a' with
      | [] => []
      | y :: _ => (y - x) :: np_diff a'
      end
  end.

(** [u * v] for one-dimensional [u], [v] under NumPy's broadcasting: a
    length-one operand is stretched, equal lengths go entry by entry,
    anything else does not broadcast. *)
Definition broadcast_mul (u v : list Q) : result (list Q) :=
  match u, v with
  | [a], _ => Ok (map (fun y => a * y) v)
  | _, [b] => Ok (map (fun x => x * b) u)
  | _, _ =>
      if Nat.eqb (length u) (length v)
      then Ok (map (fun p => fst p * snd p) (combine u v))
      else Raise ValueError
  end.

(** ** class Hierarchy *)

Module Hierarchy.

(** One entry [[[a_lo, a_hi], [m_lo, m_hi]]] of the array [bins], of
    shape [(nbins, 2, 2)]. *)
Definition Bin : Type := (Q * Q) * (Q * Q).

Definition a_lo (b : Bin) : Q := fst (fst b).
Definition a_hi (b : Bin) : Q := snd (fst b).
Definition m_lo (b : Bin) : Q := fst (snd b).
Definition m_hi (b : Bin) : Q := snd (snd b).

Definition as_array (b : Bin) : list (list Q) :=
  [[a_lo b; a_hi b]; [m_lo b; m_hi b]].

(** The population table, regrouped per planet as the module does by
    parsing the column names: the columns [<star>_a<letter>] and
    [<star>_M<letter>] of each planet, [len(pop)] and the number of
    distinct star names. *)
Record Planet : Type := {
  sample_a : list Q;
  sample_M : list Q
}.

Record Population : Type := {
  planets : list Planet;
  nrows : nat;
  nstarnames : nat
}.

(** The median of a column of the table, as [pop.median()] gives it:
    [nan] for an empty column. *)
Definition median (xs : list Q) : fl :=
  let s := sort xs in
  let n := length s in
  match n with
  | O => NaN
  | _ =>
      if Nat.even n
      then Num ((nth (n / 2 - 1) s 0 + nth (n / 2) s 0) / 2)
      else Num (nth (n / 2) s 0)
  end.

(** The attributes of an instance.  [mlvalues] and [ceiling] are set by
    [max_like()] and absent before; [lenrun] and [chainname] serve
    [sample] only and are left out. *)
Record t : Type := {
  pop : Population;
  completeness : Completeness.t;
  res : Z;
  bins : list Bin;
  nbins : nat;
  lna_edges : list Q;
  lnm_edges : list Q;
  nabins : Z;
  nmbins : Z;
  bin_widths : list (list (list Q));   (* shape (nbins, 2, 1) *)
  bin_centers : list (list Q);         (* shape (nbins, 2) *)
  bin_areas : list (list Q);           (* shape (nbins, 1) *)
  Qints : list fl;
  nplanets : nat;
  nsamples : nat;
  nstars : Z;
  pop_med : list (fl * fl);            (* columns 'axis', 'msini' *)
  fraction : bool;
  mlvalues : option (list (Q * Q));    (* rows [ml, uml] *)
  ceiling : option Q
}.

(** [bins[:, 0]] and [bins[:, 1]], flattened as [np.unique] does. *)
Definition axis_edges (bs : list Bin) : list Q :=
  flat_map (fun b => [a_lo b; a_hi b]) bs.
Definition mass_edges (bs : list Bin) : list Q :=
  flat_map (fun b => [m_lo b; m_hi b]) bs.

(** [np.diff(bins)]: differences along the last axis. *)
Definition widths_of (bs : list Bin) : list (list (list Q)) :=
  map (fun b => map np_diff (as_array b)) bs.

(** [bin_widths[:, 0] * bin_widths[:, 1]]: two [(nbins, 1)] columns
    multiplied entry by entry. *)
Definition areas_of (ws : list (list (list Q))) : list (list Q) :=
  map (fun w => map (fun p => fst p * snd p)
                  (combine (nth 0%nat w []) (nth 1%nat w []))) ws.

(** [np.mean(bins, axis=2)]. *)
Definition centers_of (bs : list Bin) : list (list Q) :=
  map (fun b => [(a_lo b + a_hi b) / 2; (m_lo b + m_hi b) / 2]) bs.

Section WithLibm.
Context {L : Libm}.

(** The sub-grid point [lo + (i/res + 1/(2*res)) * (hi - lo)]. *)
Definition sub_point (lo hi : Q) (i res : Z) : Q :=
  lo + (inject_Z i / inject_Z res + 1 / (2 * inject_Z res)) * (hi - lo).

(** The body of the innermost loop of the constructor:
    [Qints[n] += (bin_areas[n][0] / res**2) * interpolate(exp(lna_av), exp(lnm_av))]. *)
Definition qint_step (areas : list (list Q)) (res : Z) (n : nat) (binn : Bin)
    (i j : Z) (st : Completeness.t * list fl)
  : result (Completeness.t * list fl) :=
  let lna_av := sub_point (a_lo binn) (a_hi binn) i res in
  let lnm_av := sub_point (m_lo binn) (m_hi binn) j res in
  old <- getitem (snd st) (Z.of_nat n) ;;
  row <- getitem areas (Z.of_nat n) ;;
  area <- getitem row 0%Z ;;
  ' (c, vs) <- Completeness.interpolate (fst st) [np_exp lna_av] [np_exp lnm_av] false ;;
  v <- getitem vs 0%Z ;;
  qs <- setitem (snd st) (Z.of_nat n)
          (fl_add old (fl_mul (Num (area / (inject_Z res * inject_Z res))) v)) ;;
  Ok (c, qs).

(** The three nested loops over [enumerate(bins)], [arange(res)],
    [arange(res)]. *)
Definition qint_loops (areas : list (list Q)) (res : Z) (bs : list Bin)
    (st : Completeness.t * list fl)
  : result (Completeness.t * list fl) :=
  for_each (combine (seq 0 (length bs)) bs)
    (fun st nb =>
       for_each (arange res)
         (fun st i =>
            for_each (arange res)
              (fun st j => qint_step areas res (fst nb) (snd nb) i j st)
              st)
         st)
    st.

(** [Hierarchy(pop, completeness, res, bins, nstars, mass_lim, fraction)];
    [res] is the integer [int(round(res))]. *)
Definition init (pop0 : Population) (c0 : Completeness.t) (res0 : Z)
    (bins0 : list Bin) (nstars0 : option Z) (mass_lim : Q * Q)
    (fraction0 : bool) : result t :=
  let c1 := Completeness.completeness_grid c0 (1 # 100, 40) mass_lim 20 (1 # 2) (1 # 2) in
  let c2 := Completeness.fill_nan c1 1 in
  let la := unique (axis_edges bins0) in
  let lm := unique (mass_edges bins0) in
  let ws := widths_of bins0 in
  let areas := areas_of ws in
  ' (c3, qs) <- qint_loops areas res0 bins0 (c2, repeat (Num 0) (length bins0)) ;;
  Ok {| pop := pop0;
        completeness := c3;
        res := res0;
        bins := bins0;
        nbins := length bins0;
        lna_edges := la;
        lnm_edges := lm;
        nabins := (Z.of_nat (length la) - 1)%Z;
        nmbins := (Z.of_nat (length lm) - 1)%Z;
        bin_widths := ws;
        bin_centers := centers_of bins0;
        bin_areas := areas;
        Qints := qs;
        nplanets := length (planets pop0);
        nsamples := nrows pop0;
        nstars := match nstars0 with
                  | Some n => n
                  | None => Z.of_nat (nstarnames pop0)
                  end;
        pop_med := map (fun p => (median (sample_a p), median (sample_M p)))
                     (planets pop0);
        fraction := fraction0;
        mlvalues := None;
        ceiling := None |}.

End WithLibm.

(** The row of [query('axis >= @a1 and axis < @a2 and msini >= @M1 and
    msini < @M2')]: a comparison with [nan] is false. *)
Definition in_bin (a1 a2 M1 M2 : Q) (p : fl * fl) : bool :=
  match p with
  | (Num a, Num m) => Qle_bool a1 a && Qltb a a2 && Qle_bool M1 m && Qltb m M2
  | _ => false
  end.

(** [mlvalues[mlvalues == 0] = 0.01]. *)
Definition floor_zero (v : Q) : Q := if Qeq_bool v 0 then 1 # 100 else v.

Section MaxLike.
Context {L : Libm}.

(** The body of the loop of [max_like]: the row [[ml, uml]] of bin [n].
    [nplanets/Qints[n]] is not finite when [Qints[n]] is zero or [nan];
    [ml/np.sqrt(nplanets)] is not finite then, nor when [nplanets] is
    zero (0/0). *)
Definition ml_row (self : t) (n : nat) (binn : Bin) : result (Q * Q) :=
  let a1 := np_exp (a_lo binn) in
  let a2 := np_exp (a_hi binn) in
  let M1 := np_exp (m_lo binn) in
  let M2 := np_exp (m_hi binn) in
  let nplanets := length (filter (in_bin a1 a2 M1 M2) (pop_med self)) in
  q <- getitem (Qints self) (Z.of_nat n) ;;
  let raw :=
    match q with
    | Num x => if Qeq_bool x 0 then None
               else Some (inject_Z (Z.of_nat nplanets) / x)
    | NaN => None
    end in
  let ml := match raw with Some v => v | None => 1 # 100 end in
  let uml :=
    match raw, nplanets with
    | Some v, S _ => v / np_sqrt (inject_Z (Z.of_nat nplanets))
    | _, _ => 1
    end in
  Ok (floor_zero ml, floor_zero uml).

(** [max_like()]: sets [mlvalues] and [ceiling = np.amax(mlvalues)];
    the maximum of an empty array is refused. *)
Definition max_like (self : t) : result t :=
  rows <- map_res (fun nb => ml_row self (fst nb) (snd nb))
            (combine (seq 0 (length (bins self))) (bins self)) ;;
  match flat_map (fun r => [fst r; snd r]) rows with
  | [] => Raise ValueError
  | v :: vs =>
      Ok {| pop := pop self; completeness := completeness self; res := res self;
            bins := bins self; nbins := nbins self; lna_edges := lna_edges self;
            lnm_edges := lnm_edges self; nabins := nabins self;
            nmbins := nmbins self; bin_widths := bin_widths self;
            bin_centers := bin_centers self; bin_areas := bin_areas self;
            Qints := Qints self; nplanets := nplanets self;
            nsamples := nsamples self; nstars := nstars self;
            pop_med := pop_med self; fraction := fraction self;
            mlvalues := Some rows;
            ceiling := Some (fold_left Qmax vs v) |}
  end.

End MaxLike.

(** The filler value for points outside the bins. *)
Definition filler : Q := 1 # 100.

(** [ia[ia < 0] = 0; ia[ia > n - 1] = n - 1]. *)
Definition clamp (n i : Z) : Z :=
  let i := (if i <? 0 then 0 else i)%Z in
  (if i >? n - 1 then n - 1 else i)%Z.

(** The raw bin index [np.digitize(v, edges) - 1]. *)
Definition raw_index (v : Q) (edges : list Q) : Z :=
  (digitize v edges - 1)%Z.

(** The index at which [theta] is read: [ia + im*self.nabins], after
    clamping. *)
Definition flat_index (self : t) (lna lnm : Q) : Z :=
  (clamp (nabins self) (raw_index lna (lna_edges self))
   + clamp (nmbins self) (raw_index lnm (lnm_edges self)) * nabins self)%Z.

(** [occurrence] at one point. *)
Definition occurrence1 (self : t) (theta : list Q) (lna lnm : Q) : result Q :=
  let iao := raw_index lna (lna_edges self) in
  let imo := raw_index lnm (lnm_edges self) in
  occur <- getitem theta (flat_index self lna lnm) ;;
  let occur := if (iao <? 0)%Z then filler else occur in
  let occur := if (imo <? 0)%Z then filler else occur in
  let occur := if (iao >? nabins self - 1)%Z then filler else occur in
  let occur := if (imo >? nmbins self - 1)%Z then filler else occur in
  Ok occur.

(** [occurrence(lna, lnm, theta)]; [lna] and [lnm] after
    [np.atleast_1d].  Arrays of different lengths fail: either they do
    not broadcast, or the boolean masks do not fit the looked-up
    array. *)
Definition occurrence (self : t) (lna lnm : list Q) (theta : list Q)
  : result (list Q) :=
  if Nat.eqb (length lna) (length lnm)
  then map_res (fun p => occurrence1 self theta (fst p) (snd p)) (combine lna lnm)
  else
    match lna, lnm with
    | [_], _ | _, [_] => Raise IndexError
    | _, _ => Raise ValueError
    end.

(** The value of a log-likelihood: a finite number or [-np.inf]. *)
Inductive lnval : Type :=
| NegInf
| LL (q : Q).

(** [np.sum(theta * self.bin_areas)]: [theta] has shape [(d,)] and
    [bin_areas] shape [(nbins, 1)], so the product is broadcast row by
    row to shape [(nbins, d)] and every entry is summed. *)
Definition area_sum (self : t) (theta : list Q) : result Q :=
  rows <- map_res (broadcast_mul theta) (bin_areas self) ;;
  Ok (Qsum (map Qsum rows)).

(** [s / n > 1] for a float [s] and an integer [n]; a division by zero
    gives an infinity of the sign of [s], or [nan]. *)
Definition ratio_exceeds_one (s : Q) (n : Z) : bool :=
  if (n =? 0)%Z then Qltb 0 s else Qltb 1 (s / inject_Z n).

(** The hard-bound prior at the head of [lnlike]: [true] when it
    returns [-np.inf]. *)
Definition hard_bound (self : t) (theta : list Q) : result bool :=
  over <- (if fraction self
           then s <- area_sum self theta ;; Ok (ratio_exceeds_one s (nstars self))
           else Ok false) ;;
  if over then Ok true
  else
    match ceiling self with
    | None => Raise AttributeError
    | Some c => Ok (existsb (fun x => Qle_bool x 0 || Qltb (10 * c) x) theta)
    end.

(** [np.log(s / nsamples)], when it is finite. *)
Definition log_mean {L : Libm} (s : fl) (n : nat) : option Q :=
  match s, n with
  | Num q, S _ =>
      let m := q / inject_Z (Z.of_nat n) in
      if Qltb 0 m then Some (np_log m) else None
  | _, _ => None
  end.

(** The sum of the logarithms, when every one is finite. *)
Fixpoint sum_finite (xs : list (option Q)) : option Q :=
  match xs with
  | [] => Some 0
  | Some x :: xs' =>
      match sum_finite xs' with
      | Some s => Some (x + s)
      | None => None
      end
  | None :: _ => None
  end.

Definition fl_times (vs : list fl) (ws : list Q) : list fl :=
  map (fun p => fl_mul (fst p) (Num (snd p))) (combine vs ws).

Section Likelihood.
Context {L : Libm}.

(** One planet of the first loop: [np.sum(interpolate(a, M) *
    occurrence(log a, log M, theta))].  The samples are axes and masses,
    hence positive. *)
Definition planet_sum (self : t) (theta : list Q)
    (st : Completeness.t * list fl) (p : Planet)
  : result (Completeness.t * list fl) :=
  ' (c, vs) <- Completeness.interpolate (fst st) (sample_a p) (sample_M p) false ;;
  occ <- occurrence self (map np_log (sample_a p)) (map np_log (sample_M p)) theta ;;
  Ok (c, snd st ++ [fl_sum (fl_times vs occ)]).

(** The body of the 4 x 4 integration loop. *)
Definition nexpect_step (self : t) (theta : list Q) (i : nat) (binn : Bin)
    (j k : Z) (st : Completeness.t * fl) : result (Completeness.t * fl) :=
  let lna_av := a_lo binn + ((1 # 4) * inject_Z j + (1 # 8)) * (a_hi binn - a_lo binn) in
  let lnm_av := m_lo binn + ((1 # 4) * inject_Z k + (1 # 8)) * (m_hi binn - m_lo binn) in
  row <- getitem (bin_areas self) (Z.of_nat i) ;;
  area <- getitem row 0%Z ;;
  ' (c, vs) <- Completeness.interpolate (fst st) [np_exp lna_av] [np_exp lnm_av] false ;;
  occ <- occurrence self [lna_av] [lnm_av] theta ;;
  v <- getitem (fl_times (map (fl_mul (Num (area / 16))) vs) occ) 0%Z ;;
  Ok (c, fl_add (snd st) v).

Definition nexpect_loops (self : t) (theta : list Q) (st : Completeness.t * fl)
  : result (Completeness.t * fl) :=
  for_each (combine (seq 0 (length (bins self))) (bins self))
    (fun st ib =>
       for_each (arange 4)
         (fun st j =>
            for_each (arange 4)
              (fun st k => nexpect_step self theta (fst ib) (snd ib) j k st)
              st)
         st)
    st.

Definition with_completeness (self : t) (c : Completeness.t) : t :=
  {| pop := pop self; completeness := c; res := res self; bins := bins self;
     nbins := nbins self; lna_edges := lna_edges self; lnm_edges := lnm_edges self;
     nabins := nabins self; nmbins := nmbins self; bin_widths := bin_widths self;
     bin_centers := bin_centers self; bin_areas := bin_areas self;
     Qints := Qints self; nplanets := nplanets self; nsamples := nsamples self;
     nstars := nstars self; pop_med := pop_med self; fraction := fraction self;
     mlvalues := mlvalues self; ceiling := ceiling self |}.

(** [lnlike(theta)]: the instance (its completeness object may have
    cached an interpolator) and the value returned. *)
Definition lnlike (self : t) (theta : list Q) : result (t * lnval) :=
  reject <- hard_bound self theta ;;
  if reject then Ok (self, NegInf)
  else
    ' (c1, sums) <- for_each (planets (pop self)) (planet_sum self theta)
                      (completeness self, []) ;;
    ' (c2, nexpect) <- nexpect_loops self theta (c1, Num 0) ;;
    let logs := sum_finite (map (fun s => log_mean s (nsamples self)) sums) in
    let ll :=
      match nexpect, logs with
      | Num ne, Some s => LL (- ne + s)
      | _, _ => NegInf
      end in
    Ok (with_completeness self c2, ll).

Definition lnpost (self : t) (theta : list Q) : result (t * lnval) :=
  lnlike self theta.

End Likelihood.

(** [u + v] for one-dimensional [u], [v] under NumPy's broadcasting. *)
Definition broadcast_add (u v : list Q) : result (list Q) :=
  match u, v with
  | [a], _ => Ok (map (fun y => a + y) v)
  | _, [b] => Ok (map (fun x => x + b) u)
  | _, _ =>
      if Nat.eqb (length u) (length v)
      then Ok (map (fun p => fst p + snd p) (combine u v))
      else Raise ValueError
  end.

(** The first statement of [sample()]: the initial positions of the
    walkers,
    [np.array([np.abs(self.mlvalues[:, 0] + 0.001*np.random.randn(ndim))
               for i in np.arange(nwalkers)]) + 0.0001]
    with [nwalkers = 4*self.nbins] and [ndim = self.nbins].
    [self.mlvalues] is read once per walker, inside the comprehension,
    so not at all without a walker.  [noise i d] is the draw of
    [np.random.randn] for walker [i] and dimension [d]; the ensemble
    sampler that runs from these positions is outside the module. *)
Definition initial_positions (self : t) (noise : nat -> nat -> Q)
  : result (list (list Q)) :=
  map_res
    (fun i =>
       match mlvalues self with
       | None => Raise AttributeError
       | Some rows =>
           row <- broadcast_add (map fst rows)
                    (map (fun d => (1 # 1000) * noise i d) (seq 0 (nbins self))) ;;
           Ok (map (fun v => Qabs v + (1 # 10000)) row)
       end)
    (seq 0 (4 * nbins self)).

End Hierarchy.

(** ** lngrid *)

Module LnGrid.

Local Open Scope R_scope.

(** One entry [[[lo_a, hi_a], [lo_M, hi_M]]] of the array returned. *)
Definition Bin : Type := (R * R) * (R * R).

Definition a_lo (b : Bin) : R := fst (fst b).
Definition a_hi (b : Bin) : R := snd (fst b).
Definition m_lo (b : Bin) : R := fst (snd b).
Definition m_hi (b : Bin) : R := snd (snd b).

(** The bin appended at step [(i, j)] of the double loop. *)
Definition bin_at (lna1 dlna lnM1 dlnM : R) (i j : Z) : Bin :=
  ((lna1 + IZR i * dlna, lna1 + IZR (i + 1) * dlna),
   (lnM1 + IZR j * dlnM, lnM1 + IZR (j + 1) * dlnM)).

(** [lngrid(min_a, max_a, min_M, max_M, resa, resm)] for integer
    resolutions. *)
Definition lngrid (min_a max_a min_M max_M : R) (resa resm : Z) : list Bin :=
  let lna1 := ln min_a in
  let lna2 := ln max_a in
  let lnM1 := ln min_M in
  let lnM2 := ln max_M in
  let dlna := (lna2 - lna1) / IZR resa in
  let dlnM := (lnM2 - lnM1) / IZR resm in
  flat_map (fun i => map (fun j => bin_at lna1 dlna lnM1 dlnM i j) (arange resm))
    (arange resa).


(** The area of a bin, and the total area of a list of bins. *)
Definition area (b : Bin) : R := (a_hi b - a_lo b) * (m_hi b - m_lo b).


End LnGrid.

(** ** class PowerLaw *)

Module PowerLaw.

Import Hierarchy (Planet, Population, sample_a, sample_M, planets, nrows,
  nstarnames, lnval, NegInf, LL, log_mean, sum_finite, fl_times).

(** [edges = [[a_lo, a_hi], [m_lo, m_hi]]]. *)
Definition Edges : Type := (Q * Q) * (Q * Q).

(** The attributes of an instance; [pop_med], [chainname] and
    [mlvalues] serve [max_like] and [sample] only and are left out.
    The two widths are finite when their resolution is not zero. *)
Record t : Type := {
  pop : Population;
  completeness : Completeness.t;
  nplanets : nat;
  nsamples : nat;
  nstars : nat;
  lna_res : Z;
  lnm_res : Z;
  edges : Edges;
  Qints : list fl;
  lnawidth : Q;
  lnmwidth : Q;
  lna_centers : list Q;
  lnm_centers : list Q
}.

(** [np.zeros(n)]: a negative length is refused. *)
Definition zeros {A : Type} (zero : A) (n : Z) : result (list A) :=
  if (n <? 0)%Z then Raise ValueError else Ok (repeat zero (Z.to_nat n)).

(** [Qints /= span].  With a zero span every weight
    [lnawidth*lnmwidth] is zero too, so each entry is [0/0] or already
    [nan]. *)
Definition div_span (qs : list fl) (span : Q) : list fl :=
  if Qeq_bool span 0 then map (fun _ => NaN) qs
  else map (fun q => match q with Num x => Num (x / span) | NaN => NaN end) qs.

Section WithLibm.
Context {L : Libm}.

Definition ln_span (lo_hi : Q * Q) : Q := np_log (snd lo_hi) - np_log (fst lo_hi).

(** [centers[i] = np.log(lo) + (i + 0.5)*width] for [i] in
    [arange(res)]. *)
Definition centers (lo width : Q) (res : Z) : list Q :=
  map (fun i => np_log lo + (inject_Z i + (1 # 2)) * width) (arange res).

(** The body of the accumulation loop:
    [Qints[i] += (lnawidth*lnmwidth) * interpolate(exp(lna_centers[i]),
    exp(lnm_centers[j]))]. *)
Definition qint_step (wa wm : Q) (ca cm : list Q) (i j : Z)
    (st : Completeness.t * list fl) : result (Completeness.t * list fl) :=
  old <- getitem (snd st) i ;;
  a <- getitem ca i ;;
  m <- getitem cm j ;;
  ' (c, vs) <- Completeness.interpolate (fst st) [np_exp a] [np_exp m] false ;;
  v <- getitem vs 0%Z ;;
  qs <- setitem (snd st) i (fl_add old (fl_mul (Num (wa * wm)) v)) ;;
  Ok (c, qs).

Definition qint_loops (wa wm : Q) (ca cm : list Q) (ra rm : Z)
    (st : Completeness.t * list fl) : result (Completeness.t * list fl) :=
  for_each (arange ra)
    (fun st i =>
       for_each (arange rm) (fun st j => qint_step wa wm ca cm i j st) st)
    st.

(** [PowerLaw(pop, completeness, lna_res, lnm_res, edges)]; the two
    resolutions are the integers [int(lna_res)], [int(lnm_res)]. *)
Definition init (pop0 : Population) (c0 : Completeness.t) (ra rm : Z)
    (edges0 : Edges) : result t :=
  let c1 := Completeness.completeness_grid c0 (1 # 100, 40) (2, 7000) 20 (1 # 2) (1 # 2) in
  let c2 := Completeness.fill_nan c1 1 in
  q0 <- zeros (Num 0) rm ;;
  let wa := ln_span (fst edges0) / inject_Z ra in
  let wm := ln_span (snd edges0) / inject_Z rm in
  _ <- zeros 0 ra ;;
  let ca := centers (fst (fst edges0)) wa ra in
  let cm := centers (fst (snd edges0)) wm rm in
  ' (c3, qs) <- qint_loops wa wm ca cm ra rm (c2, q0) ;;
  Ok {| pop := pop0;
        completeness := c3;
        nplanets := length (planets pop0);
        nsamples := nrows pop0;
        nstars := nstarnames pop0;
        lna_res := ra;
        lnm_res := rm;
        edges := edges0;
        Qints := div_span qs (ln_span (snd edges0));
        lnawidth := wa;
        lnmwidth := wm;
        lna_centers := ca;
        lnm_centers := cm |}.

(** [occurrence(mass, theta)] at one mass. *)
Definition occurrence1 (self : t) (theta : list Q) (mass : Q) : result Q :=
  c <- getitem theta 0%Z ;;
  e <- getitem theta 1%Z ;;
  let power := c * np_power mass e in
  let power := if Qltb mass (fst (snd (edges self))) then 1 # 100 else power in
  let power := if Qle_bool (snd (snd (edges self))) mass then 1 # 100 else power in
  Ok power.

(** [occurrence(mass, theta)]; [mass] after [np.atleast_1d]. *)
Definition occurrence (self : t) (mass theta : list Q) : result (list Q) :=
  c <- getitem theta 0%Z ;;
  e <- getitem theta 1%Z ;;
  map_res (occurrence1 self theta) mass.

Definition planet_sum (self : t) (theta : list Q)
    (st : Completeness.t * list fl) (p : Planet)
  : result (Completeness.t * list fl) :=
  ' (c, vs) <- Completeness.interpolate (fst st) (sample_a p) (sample_M p) false ;;
  occ <- occurrence self (sample_M p) theta ;;
  Ok (c, snd st ++ [fl_sum (fl_times vs occ)]).

(** The expected-detections term of [lnlike]:
    [for i in np.arange(self.lna_res):
       nexpect += self.Qints[i]*self.occurrence(np.exp(self.lnm_centers[i]), theta)]. *)
Definition nexpect_step (self : t) (theta : list Q) (acc : fl) (i : Z)
  : result fl :=
  q <- getitem (Qints self) i ;;
  m <- getitem (lnm_centers self) i ;;
  occ <- occurrence self [np_exp m] theta ;;
  v <- getitem (fl_times [q] occ) 0%Z ;;
  Ok (fl_add acc v).

Definition nexpect (self : t) (theta : list Q) : result fl :=
  for_each (arange (lna_res self)) (nexpect_step self theta) (Num 0).

Definition with_completeness (self : t) (c : Completeness.t) : t :=
  {| pop := pop self; completeness := c; nplanets := nplanets self;
     nsamples := nsamples self; nstars := nstars self; lna_res := lna_res self;
     lnm_res := lnm_res self; edges := edges self; Qints := Qints self;
     lnawidth := lnawidth self; lnmwidth := lnmwidth self;
     lna_centers := lna_centers self; lnm_centers := lnm_centers self |}.

(** [lnlike(theta)]. *)
Definition lnlike (self : t) (theta : list Q) : result (t * lnval) :=
  ' (c1, sums) <- for_each (planets (pop self)) (planet_sum self theta)
                    (completeness self, []) ;;
  ne <- nexpect self theta ;;
  let logs := sum_finite (map (fun s => log_mean s (nsamples self)) sums) in
  let ll :=
    match ne, logs with
    | Num x, Some s => LL (- x + s)
    | _, _ => NegInf
    end in
  Ok (with_completeness self c1, ll).

(** [lnprior(theta)]; the tests are joined by [or], so [theta[1]] is
    only read when [theta[0]] lies in (0, 10]. *)
Definition lnprior (theta : list Q) : result lnval :=
  c <- getitem theta 0%Z ;;
  if Qle_bool c 0 || Qltb 10 c then Ok NegInf
  else
    e <- getitem theta 1%Z ;;
    if Qle_bool e (-5) || Qltb 5 e then Ok NegInf else Ok (LL 0).

(** Float addition of two log-values, neither of which is [nan] or
    plus infinity. *)
Definition lnval_add (a b : lnval) : lnval :=
  match a, b with
  | LL x, LL y => LL (x + y)
  | _, _ => NegInf
  end.

(** [lnpost(theta)]: [self.lnlike(theta) + self.lnprior(theta)]. *)
Definition lnpost (self : t) (theta : list Q) : result (t * lnval) :=
  ' (s, ll) <- lnlike self theta ;;
  lp <- lnprior theta ;;
  Ok (s, lnval_add ll lp).

End WithLibm.

(** [max_like()]: [self.mlvalues = np.array([C, M])] with [C = 5],
    [M = -1]. *)
Definition max_like_values : list Q := [5; -1].

(** The initial positions of [sample()],
    [np.array([np.abs(self.mlvalues + 0.01*np.random.randn(ndim))
               for i in np.arange(nwalkers)])]
    with [nwalkers = 30] and [ndim = len(self.mlvalues)]; [noise i d] is
    the draw of [np.random.randn] for walker [i] and dimension [d]. *)
Definition initial_positions (mlvalues : list Q) (noise : nat -> nat -> Q)
  : list (list Q) :=
  map (fun i =>
         map (fun dm => Qabs (snd dm + (1 # 100) * noise i (fst dm)))
           (combine (seq 0 (length mlvalues)) mlvalues))
    (seq 0 30).

End PowerLaw.

(** * Statements: the words of the specification *)

Module Spec.

Import Hierarchy.

(** The raw bin indices of a point lie in [0, nabins-1] and
    [0, nmbins-1]. *)
Definition in_domain (self : Hierarchy.t) (lna lnm : Q) : bool :=
  let iao := raw_index lna (lna_edges self) in
  let imo := raw_index lnm (lnm_edges self) in
  ((0 <=? iao) && (iao <=? nabins self - 1) &&
   (0 <=? imo) && (imo <=? nmbins self - 1))%Z.

(** Theta at the flat index axis-bin + mass-bin * nabins inside the
    domain, the filler outside. *)
Definition occurrence_at (self : Hierarchy.t) (theta : list Q) (lna lnm : Q) : Q :=
  if in_domain self lna lnm
  then nth (Z.to_nat (raw_index lna (lna_edges self)
                      + raw_index lnm (lnm_edges self) * nabins self)) theta 0
  else filler.

Section Grid.
Context {L : Libm}.
Import Completeness.

(** A trial's injected axis falls in the axis range of the box around
    [x]. *)
Definition axis_in_box (x xlogwin : Q) (r : Trial) : Prop :=
  win_low x xlogwin <= inj_x r /\ inj_x r <= win_high x xlogwin.

(** No trial's injected axis falls in the box's axis range. *)
Definition no_axis_trial (recs : list Trial) (x xlogwin : Q) : Prop :=
  forall r, In r recs -> ~ axis_in_box x xlogwin r.

(** The mass [y] lies outside the minimum and maximum injected mass
    among the trials of the axis range: above all of them or below all
    of them. *)
Definition mass_outside (recs : list Trial) (x y xlogwin : Q) : Prop :=
  (exists r, In r recs /\ axis_in_box x xlogwin r) /\
  ((forall r, In r recs -> axis_in_box x xlogwin r -> inj_y r < y) \/
   (forall r, In r recs -> axis_in_box x xlogwin r -> y < inj_y r)).

(** The number of trials in the local box, and of the recovered ones
    among them. *)
Definition box_total (recs : list Trial) (x y xlogwin ylogwin : Q) : nat :=
  length (filter (in_box x y xlogwin ylogwin) recs).

Definition box_recovered (recs : list Trial) (x y xlogwin ylogwin : Q) : nat :=
  length (filter (fun r => in_box x y xlogwin ylogwin r && recovered r) recs).

Definition recovery_ratio (recs : list Trial) (x y xlogwin ylogwin : Q) : Q :=
  inject_Z (Z.of_nat (box_recovered recs x y xlogwin ylogwin))
  / inject_Z (Z.of_nat (box_total recs x y xlogwin ylogwin)).

End Grid.

(** The value lies between the first and the last point of an axis of
    the grid. *)
Definition within (axis : list Q) (v : Q) : Prop :=
  nth 0 axis 0 <= v /\ v <= nth (length axis - 1) axis 0.

(** Every cell of a matrix is a number that satisfies [P]. *)
Definition cells (P : Q -> Prop) (z : list (list fl)) : Prop :=
  Forall (Forall (fun c => exists q, c = Num q /\ P q)) z.

(** The unit-interval condition on the cells, as a check. *)
Definition cells_unitb (z : list (list fl)) : bool :=
  forallb (forallb (fun c => match c with
                             | Num q => Qle_bool 0 q && Qle_bool q 1
                             | NaN => false
                             end)) z.

(** A grid the interpolator accepts and can interpolate on: two points
    or more on each axis, strictly ascending, and a matrix of the
    matching shape. *)
Record regular (xs ys : list Q) (z : list (list fl)) : Prop := {
  regular_x : strictly_ascending xs = true;
  regular_y : strictly_ascending ys = true;
  regular_nx : (2 <= length xs)%nat;
  regular_ny : (2 <= length ys)%nat;
  regular_shape : shape_ok xs ys z = true
}.

(** The interpolator [Completeness.interpolate] builds from a grid. *)
Definition interpolator_of (g : Completeness.Grid) : RegularGridInterpolator :=
  {| rgi_x := Completeness.xgrid g; rgi_y := Completeness.ygrid g;
     rgi_z := Completeness.z g; fill_value := 1 # 1000 |}.

(** The interpolator that a call will use is the one of the current
    grid: none is cached yet, a refresh is asked for, or the cached one
    was built from this grid. *)
Definition uses_grid (self : Completeness.t) (g : Completeness.Grid)
    (refresh : bool) : Prop :=
  Completeness.interpolator self = None \/ refresh = true \/
  Completeness.interpolator self = Some (interpolator_of g).

(** The object after a call that used the grid [g]. *)
Definition cached (self : Completeness.t) (g : Completeness.Grid) : Completeness.t :=
  {| Completeness.recoveries := Completeness.recoveries self;
     Completeness.grid := Completeness.grid self;
     Completeness.interpolator := Some (interpolator_of g) |}.

(** The geometric area of a bin. *)
Definition bin_area (b : Hierarchy.Bin) : Q :=
  (Hierarchy.a_hi b - Hierarchy.a_lo b) * (Hierarchy.m_hi b - Hierarchy.m_lo b).

(** The query point lies inside the axis and mass bounds of the grid. *)
Definition inside (g : Completeness.Grid) (x y : Q) : Prop :=
  within (Completeness.xgrid g) x /\ within (Completeness.ygrid g) y.

(** The bilinear combination of four corner values. *)
Definition bilinear (v00 v01 v10 v11 tx ty : Q) : Q :=
  0 + v00 * ((1 - tx) * (1 - ty)) + v01 * ((1 - tx) * ty)
  + v10 * (tx * (1 - ty)) + v11 * (tx * ty).

(** What one interpolated value is, for cells that satisfy [P]: the
    fallback outside the bounds, a bilinear combination of four cells
    inside. *)
Definition point_value (P : Q -> Prop) (g : Completeness.Grid)
    (p : Q * Q) (c : fl) : Prop :=
  exists v,
    c = Num v /\
    (~ inside g (fst p) (snd p) -> v = 1 # 1000) /\
    (inside g (fst p) (snd p) ->
     exists v00 v01 v10 v11 tx ty,
       P v00 /\ P v01 /\ P v10 /\ P v11 /\
       0 <= tx <= 1 /\ 0 <= ty <= 1 /\
       v = bilinear v00 v01 v10 v11 tx ty).

(** The completeness object holds the grid [g] and interpolates on
    it. *)
Definition on_grid (g : Completeness.Grid) (c : Completeness.t) : Prop :=
  Completeness.grid c = Some g /\ uses_grid c g false.



(** The area-weighted sum of theta: each component times the area of
    its own bin. *)
Definition area_weighted_sum (self : Hierarchy.t) (theta : list Q) : Q :=
  Qsum (map (fun p => fst p * bin_area (snd p)) (combine theta (Hierarchy.bins self))).

(** The hard-bound conditions in the words of the specification: a
    component of theta is <= 0, or exceeds 10 times the ceiling, or, in
    fraction mode, the area-weighted sum of theta divided by the star
    count exceeds 1. *)
Definition hard_bound_claimed (self : Hierarchy.t) (theta : list Q) : bool :=
  match Hierarchy.ceiling self with
  | Some c =>
      existsb (fun x => Qle_bool x 0) theta
      || existsb (fun x => Qltb (10 * c) x) theta
      || (Hierarchy.fraction self
          && Qltb 1 (area_weighted_sum self theta / inject_Z (Hierarchy.nstars self)))
  | None => false
  end.

Section PowerLawWords.
Context {L : Libm}.

(** The interpolated completeness at one point. *)
Definition completeness_at (c : Completeness.t) (x y : Q) : result fl :=
  ' (_, vs) <- Completeness.interpolate c [x] [y] false ;;
  getitem vs 0%Z.

(** One integrated completeness per mass index: for the mass centre
    [m], the completeness over the axis centres of the sub-grid, each
    point with the weight [lnawidth*lnmwidth], divided by the total
    ln-mass span. *)
Definition Qint_at_mass (self : PowerLaw.t) (m : Q) : result fl :=
  vs <- map_res (fun a => completeness_at (PowerLaw.completeness self)
                            (np_exp a) (np_exp m))
          (PowerLaw.lna_centers self) ;;
  let w := PowerLaw.lnawidth self * PowerLaw.lnmwidth self in
  match fl_sum (map (fl_mul (Num w)) vs) with
  | Num x => Ok (Num (x / PowerLaw.ln_span (snd (PowerLaw.edges self))))
  | NaN => Ok NaN
  end.

Definition Qints_per_mass (self : PowerLaw.t) : result (list fl) :=
  map_res (Qint_at_mass self) (PowerLaw.lnm_centers self).

(** The expected-detections term as the sum, over the mass indices, of
    the integrated completeness times the occurrence at the mass
    centre. *)
Definition nexpect_per_mass (self : PowerLaw.t) (theta : list Q) : result fl :=
  qs <- Qints_per_mass self ;;
  occ <- PowerLaw.occurrence self (map np_exp (PowerLaw.lnm_centers self)) theta ;;
  Ok (fl_sum (Hierarchy.fl_times qs occ)).

(** The power law inside the mass box, from [edges[1][0]] up to but
    not including [edges[1][1]], and the filler 0.01 outside. *)
Definition power_law_at (self : PowerLaw.t) (c e mass : Q) : Q :=
  if Qle_bool (fst (snd (PowerLaw.edges self))) mass
     && Qltb mass (snd (snd (PowerLaw.edges self)))
  then c * np_power mass e
  else 1 # 100.

End PowerLawWords.

(** Two log-values are the same float. *)
Definition lnval_eq (a b : Hierarchy.lnval) : Prop :=
  match a, b with
  | NegInf, NegInf => True
  | LL x, LL y => x == y
  | _, _ => False
  end.

(** The box of [PowerLaw.lnprior]: [0 < C <= 10] and [-5 < M <= 5]. *)
Definition in_prior_box (c e : Q) : Prop :=
  0 < c /\ c <= 10 /\ -5 < e /\ e <= 5.

End Spec.

(** * Inputs on which the definitions are run *)

Module Example.

(** An instance of the library interface with rational values: the
    logarithms and exponentials are the identity (a linear axis), a
    power takes the integer part of its exponent, and the square root
    is the identity.  The theorems below hold for every instance; this
    one runs the definitions. *)
Definition linear_libm : Libm :=
  {| np_log := fun x => x;
     np_exp := fun x => x;
     np_log10 := fun x => x;
     pow10 := fun x => x;
     np_power := fun x y => Qpower x (Qfloor y);
     np_sqrt := fun x => x |}.

Definition fl_red (a : fl) : fl :=
  match a with
  | Num q => Num (Qred q)
  | NaN => NaN
  end.

Definition reduced (r : result fl) : result fl :=
  match r with
  | Ok a => Ok (fl_red a)
  | Raise e => Raise e
  end.

Definition unwrap {A : Type} (d : A) (r : result A) : A :=
  match r with
  | Ok a => a
  | Raise _ => d
  end.

Definition no_planets : Hierarchy.Population :=
  {| Hierarchy.planets := []; Hierarchy.nrows := 0; Hierarchy.nstarnames := 0 |}.

(** [Completeness(recoveries)] for a table without rows. *)
Definition no_trials : Completeness.t := Completeness.init [].

(** Two bins of area 1, side by side along the axis. *)
Definition two_bins : list Hierarchy.Bin :=
  [((1, 2), (3, 4)); ((2, 3), (3, 4))].

(** [Hierarchy(pop, completeness, res=1, bins=two_bins, nstars=3,
    mass_lim=[3, 7000], fraction=True)]. *)
Definition constructed : result Hierarchy.t :=
  Hierarchy.init (L := linear_libm) no_planets no_trials 1 two_bins (Some 3%Z)
    (3, 7000) true.

(** The same instance after [max_like()]. *)
Definition seeded : result Hierarchy.t :=
  h <- constructed ;; Hierarchy.max_like (L := linear_libm) h.

Definition blank : Hierarchy.t :=
  {| Hierarchy.pop := no_planets; Hierarchy.completeness := no_trials;
     Hierarchy.res := 0; Hierarchy.bins := []; Hierarchy.nbins := 0;
     Hierarchy.lna_edges := []; Hierarchy.lnm_edges := [];
     Hierarchy.nabins := 0; Hierarchy.nmbins := 0;
     Hierarchy.bin_widths := []; Hierarchy.bin_centers := [];
     Hierarchy.bin_areas := []; Hierarchy.Qints := [];
     Hierarchy.nplanets := 0; Hierarchy.nsamples := 0; Hierarchy.nstars := 0;
     Hierarchy.pop_med := []; Hierarchy.fraction := false;
     Hierarchy.mlvalues := None; Hierarchy.ceiling := None |}.

Definition hierarchy : Hierarchy.t := Eval vm_compute in unwrap blank seeded.


(** [PowerLaw(pop, completeness, lna_res=2, lnm_res=3)] with the
    default edges [[[0.03, 1], [2, 30]]]. *)
Definition default_edges : PowerLaw.Edges := ((3 # 100, 1), (2, 30)).

Definition powerlaw_constructed : result PowerLaw.t :=
  PowerLaw.init (L := linear_libm) no_planets no_trials 2 3 default_edges.

Definition powerlaw_blank : PowerLaw.t :=
  {| PowerLaw.pop := no_planets; PowerLaw.completeness := no_trials;
     PowerLaw.nplanets := 0; PowerLaw.nsamples := 0; PowerLaw.nstars := 0;
     PowerLaw.lna_res := 0; PowerLaw.lnm_res := 0;
     PowerLaw.edges := default_edges; PowerLaw.Qints := [];
     PowerLaw.lnawidth := 0; PowerLaw.lnmwidth := 0;
     PowerLaw.lna_centers := []; PowerLaw.lnm_centers := [] |}.

Definition powerlaw : PowerLaw.t :=
  Eval vm_compute in unwrap powerlaw_blank powerlaw_constructed.

(** Twelve trials at axis 1 and mass 1, six of them recovered. *)
Definition twelve_trials : list Completeness.Trial :=
  repeat {| Completeness.inj_x := 1; Completeness.inj_y := 1;
            Completeness.recovered := true |} 6
  ++ repeat {| Completeness.inj_x := 1; Completeness.inj_y := 1;
               Completeness.recovered := false |} 6.

(** A 2 x 2 grid with cells in [0, 1]. *)
Definition small_grid : Completeness.Grid :=
  {| Completeness.xgrid := [1; 2]; Completeness.ygrid := [1; 2];
     Completeness.z := [[Num 0; Num 1]; [Num (1 # 2); Num 1]] |}.

Definition with_small_grid : Completeness.t :=
  {| Completeness.recoveries := []; Completeness.grid := Some small_grid;
     Completeness.interpolator := None |}.

(** A completeness object that has been used before: a grid over the
    masses [3, 7000], its NaN cells filled with 1.0, and one
    interpolation, which left an interpolator cached. *)
Definition used_once : result Completeness.t :=
  ' (c, _) <- Completeness.interpolate
                (Completeness.fill_nan
                   (Completeness.completeness_grid (L := linear_libm) no_trials
                      (1 # 100, 40) (3, 7000) 20 (1 # 2) (1 # 2)) 1)
                [1] [10] false ;;
  Ok c.

Definition used : Completeness.t := Eval vm_compute in unwrap no_trials used_once.

(** The same object after [completeness_grid([0.01, 40], [100, 7000])]
    and the NaN fill. *)
Definition regridded : Completeness.t :=
  Eval vm_compute in
    Completeness.fill_nan
      (Completeness.completeness_grid (L := linear_libm) used
         (1 # 100, 40) (100, 7000) 20 (1 # 2) (1 # 2)) 1.

Definition grid_of (c : Completeness.t) : Completeness.Grid :=
  unwrap {| Completeness.xgrid := []; Completeness.ygrid := []; Completeness.z := [] |}
    (match Completeness.grid c with
     | Some g => Ok g
     | None => Raise AttributeError
     end).

Definition regridded_grid : Completeness.Grid := Eval vm_compute in grid_of regridded.






(** The instance [constructed] before [max_like()]. *)
Definition fresh : Hierarchy.t := Eval vm_compute in unwrap blank constructed.

(** One interpolation on the small grid: the object and the values it
    leaves. *)
Definition probed : Completeness.t * list fl :=
  Eval vm_compute in
    unwrap (with_small_grid, [])
      (Completeness.interpolate with_small_grid [3 # 2] [3 # 2] false).

(** [lnlike([1, 1])] on the instance [powerlaw]. *)
Definition powerlaw_lnlike : PowerLaw.t * Hierarchy.lnval :=
  Eval vm_compute in
    unwrap (powerlaw_blank, Hierarchy.NegInf)
      (PowerLaw.lnlike (L := linear_libm) powerlaw [1; 1]).

End Example.

(** * Properties *)

(** ** Python and NumPy layer *)

Lemma getitem_inv {A : Type} (a : list A) (k : Z) (v : A) :
  getitem a k = Ok v ->
  exists n : nat,
    nth_error a n = Some v /\
    (Z.of_nat n = if (k <? 0)%Z then (k + Z.of_nat (length a))%Z else k).
Proof.
  unfold getitem. intros H.
  destruct ((0 <=? _)%Z && _) eqn:E; [|discriminate].
  apply andb_prop in E as [E1 E2].
  apply Z.leb_le in E1.
  destruct (nth_error a _) eqn:N; [|discriminate].
  injection H as ->. eexists; split; [exact N|]. lia.
Qed.

Lemma getitem_nonneg {A : Type} (a : list A) (k : Z) :
  (0 <= k < Z.of_nat (length a))%Z ->
  exists v, getitem a k = Ok v /\ nth_error a (Z.to_nat k) = Some v.
Proof.
  intros [H0 H1]. unfold getitem.
  destruct (k <? 0)%Z eqn:E; [apply Z.ltb_lt in E; lia|].
  replace ((0 <=? k)%Z && (k <? Z.of_nat (length a))%Z) with true.
  2:{ symmetry. apply andb_true_intro. split; [apply Z.leb_le|apply Z.ltb_lt]; lia. }
  destruct (nth_error a (Z.to_nat k)) eqn:N.
  - eauto.
  - apply nth_error_None in N. lia.
Qed.

Lemma getitem_nth {A : Type} (a : list A) (k : Z) (d : A) :
  (0 <= k < Z.of_nat (length a))%Z ->
  getitem a k = Ok (nth (Z.to_nat k) a d).
Proof.
  intros H. destruct (getitem_nonneg a k H) as (v & -> & N).
  f_equal. symmetry. now apply nth_error_nth.
Qed.

Lemma getitem_neg {A : Type} (a : list A) (k : Z) (d : A) :
  (- Z.of_nat (length a) <= k < 0)%Z ->
  getitem a k = Ok (nth (Z.to_nat (k + Z.of_nat (length a))) a d).
Proof.
  intros H. unfold getitem.
  destruct (Z.ltb_spec k 0); [|lia].
  destruct (Z.leb_spec 0 (k + Z.of_nat (length a))); [|lia].
  destruct (Z.ltb_spec (k + Z.of_nat (length a)) (Z.of_nat (length a))); [|lia].
  cbv [andb].
  destruct (nth_error a (Z.to_nat (k + Z.of_nat (length a)))) eqn:N.
  - f_equal. symmetry. now apply nth_error_nth.
  - apply nth_error_None in N. lia.
Qed.

Lemma map_res_pointwise {A B : Type} (f : A -> result B) (g : A -> B)
    (xs : list A) :
  (forall x, In x xs -> f x = Ok (g x)) ->
  map_res f xs = Ok (map g xs).
Proof.
  induction xs as [|x xs IH]; intros H; simpl; [reflexivity|].
  rewrite (H x (or_introl eq_refl)). simpl.
  rewrite IH by (intros y Hy; apply H; now right). reflexivity.
Qed.

Lemma map_res_length {A B : Type} (f : A -> result B) (xs : list A) (ys : list B) :
  map_res f xs = Ok ys -> length ys = length xs.
Proof.
  revert ys. induction xs as [|x xs IH]; simpl; intros ys H.
  - now injection H as <-.
  - destruct (f x); [|discriminate]. simpl in H.
    destruct (map_res f xs); [|discriminate]. simpl in H.
    injection H as <-. simpl. f_equal. now apply IH.
Qed.

(** ** Hierarchy.occurrence *)

Lemma clamp_range (n i : Z) : (1 <= n)%Z -> (0 <= Hierarchy.clamp n i <= n - 1)%Z.
Proof.
  intros Hn. unfold Hierarchy.clamp.
  destruct (i <? 0)%Z eqn:E1;
    [apply Z.ltb_lt in E1|apply Z.ltb_ge in E1];
    match goal with |- context [(?a >? ?b)%Z] => destruct (Z.gtb_spec a b) end; lia.
Qed.

Lemma clamp_id (n i : Z) : (0 <= i <= n - 1)%Z -> Hierarchy.clamp n i = i.
Proof.
  intros H. unfold Hierarchy.clamp.
  destruct (i <? 0)%Z eqn:E1; [apply Z.ltb_lt in E1; lia|].
  destruct (Z.gtb_spec i (n - 1)); lia.
Qed.

Lemma flat_index_range (self : Hierarchy.t) (lna lnm : Q) :
  (1 <= Hierarchy.nabins self)%Z -> (1 <= Hierarchy.nmbins self)%Z ->
  (0 <= Hierarchy.flat_index self lna lnm
     <= Hierarchy.nabins self * Hierarchy.nmbins self - 1)%Z.
Proof.
  intros Ha Hm. unfold Hierarchy.flat_index.
  pose proof (clamp_range (Hierarchy.nabins self)
                (Hierarchy.raw_index lna (Hierarchy.lna_edges self)) Ha).
  pose proof (clamp_range (Hierarchy.nmbins self)
                (Hierarchy.raw_index lnm (Hierarchy.lnm_edges self)) Hm).
  nia.
Qed.

Lemma occurrence1_spec (self : Hierarchy.t) (theta : list Q) (lna lnm : Q) :
  (1 <= Hierarchy.nabins self)%Z -> (1 <= Hierarchy.nmbins self)%Z ->
  (Hierarchy.nabins self * Hierarchy.nmbins self <= Z.of_nat (length theta))%Z ->
  Hierarchy.occurrence1 self theta lna lnm = Ok (Spec.occurrence_at self theta lna lnm).
Proof.
  intros Ha Hm Hlen.
  pose proof (flat_index_range self lna lnm Ha Hm) as Hflat.
  unfold Hierarchy.occurrence1, Spec.occurrence_at, Spec.in_domain.
  rewrite (getitem_nth theta _ 0) by lia. simpl.
  unfold Hierarchy.flat_index in *.
  set (iao := Hierarchy.raw_index lna (Hierarchy.lna_edges self)) in *.
  set (imo := Hierarchy.raw_index lnm (Hierarchy.lnm_edges self)) in *.
  destruct (Z.ltb_spec iao 0), (Z.ltb_spec imo 0),
    (Z.gtb_spec iao (Hierarchy.nabins self - 1)),
    (Z.gtb_spec imo (Hierarchy.nmbins self - 1)),
    (Z.leb_spec 0 iao), (Z.leb_spec iao (Hierarchy.nabins self - 1)),
    (Z.leb_spec 0 imo), (Z.leb_spec imo (Hierarchy.nmbins self - 1));
    simpl; try lia; try reflexivity.
  rewrite !clamp_id by lia. reflexivity.
Qed.


(** C9.  With at least one axis and one mass division and theta of
    length at least nabins*nmbins, the index at which theta is read
    lies in [0, nabins*nmbins - 1] for every point, and
    [Hierarchy.occurrence] returns a value for every pair of query
    arrays of one length. *)
Theorem occurrence_total
    (self : Hierarchy.t) (lna lnm theta : list Q) :
  (1 <= Hierarchy.nabins self)%Z -> (1 <= Hierarchy.nmbins self)%Z ->
  (Hierarchy.nabins self * Hierarchy.nmbins self <= Z.of_nat (length theta))%Z ->
  length lna = length lnm ->
  (forall a m : Q,
      (0 <= Hierarchy.flat_index self a m
         <= Hierarchy.nabins self * Hierarchy.nmbins self - 1)%Z) /\
  (exists vs, Hierarchy.occurrence self lna lnm theta = Ok vs /\
              length vs = length lna).
Proof.
  intros Ha Hm Hlen Heq. split.
  - intros a m. now apply flat_index_range.
  - unfold Hierarchy.occurrence. rewrite Heq, Nat.eqb_refl.
    rewrite (map_res_pointwise _
               (fun p => Spec.occurrence_at self theta (fst p) (snd p))).
    + eexists; split; [reflexivity|].
      rewrite length_map, length_combine. lia.
    + intros p _. now apply occurrence1_spec.
Qed.

Lemma Qltb_lt (x y : Q) : Qltb x y = true <-> x < y.
Proof.
  unfold Qltb. rewrite negb_true_iff.
  split; intros H.
  - apply Qnot_le_lt. intros C. apply Qle_bool_iff in C. congruence.
  - destruct (Qle_bool y x) eqn:E; [|reflexivity].
    apply Qle_bool_iff in E. exfalso. exact (Qlt_not_le _ _ H E).
Qed.

Lemma Qltb_ge (x y : Q) : Qltb x y = false <-> y <= x.
Proof.
  unfold Qltb. rewrite negb_false_iff. apply Qle_bool_iff.
Qed.

(** ** Completeness.completeness_grid *)

Section GridProperties.
Context {L : Libm}.
Import Completeness.

Lemma in_range_iff (lo hi v : Q) :
  in_range lo hi v = true <-> lo <= v /\ v <= hi.
Proof.
  unfold in_range. rewrite andb_true_iff, !Qle_bool_iff. tauto.
Qed.

Lemma py_max_lt (m : Q) (ms : list Q) (y : Q) :
  py_max m ms < y <-> forall e, In e (m :: ms) -> e < y.
Proof.
  unfold py_max. revert m. induction ms as [|a ms IH]; intros m; simpl.
  - split; [intros H e [<-|[]]; exact H | intros H; apply H; now left].
  - rewrite IH. split.
    + intros H e [<-|[<-|He]].
      * apply (Qle_lt_trans _ (Qmax m a)); [apply Q.le_max_l|apply H; now left].
      * apply (Qle_lt_trans _ (Qmax m a)); [apply Q.le_max_r|apply H; now left].
      * apply H. now right.
    + intros H e [<-|He].
      * apply Q.max_lub_lt; apply H; simpl; auto.
      * apply H. simpl; auto.
Qed.

Lemma py_min_gt (m : Q) (ms : list Q) (y : Q) :
  y < py_min m ms <-> forall e, In e (m :: ms) -> y < e.
Proof.
  unfold py_min. revert m. induction ms as [|a ms IH]; intros m; simpl.
  - split; [intros H e [<-|[]]; exact H | intros H; apply H; now left].
  - rewrite IH. split.
    + intros H e [<-|[<-|He]].
      * apply (Qlt_le_trans _ (Qmin m a)); [apply H; now left|apply Q.le_min_l].
      * apply (Qlt_le_trans _ (Qmin m a)); [apply H; now left|apply Q.le_min_r].
      * apply H. now right.
    + intros H e [<-|He].
      * apply Q.min_glb_lt; apply H; simpl; auto.
      * apply H. simpl; auto.
Qed.

Lemma in_xbox (recs : list Trial) (x xlogwin e : Q) :
  In e (xbox recs x xlogwin) <->
  exists r, In r recs /\ Spec.axis_in_box x xlogwin r /\ inj_y r = e.
Proof.
  unfold xbox, Spec.axis_in_box. rewrite in_map_iff. split.
  - intros (r & <- & Hr). apply filter_In in Hr as [Hin Hr].
    apply in_range_iff in Hr. eauto.
  - intros (r & Hin & Hr & <-). exists r. split; [reflexivity|].
    apply filter_In. split; [exact Hin|]. now apply in_range_iff.
Qed.

Lemma uncovered_iff (recs : list Trial) (x y xlogwin : Q) :
  uncovered recs x y xlogwin = true <->
  Spec.no_axis_trial recs x xlogwin \/ Spec.mass_outside recs x y xlogwin.
Proof.
  unfold uncovered, Spec.no_axis_trial, Spec.mass_outside.
  pose proof (in_xbox recs x xlogwin) as Hbox.
  destruct (xbox recs x xlogwin) as [|m ms] eqn:E.
  - split; [intros _|reflexivity]. left. intros r Hin Hr.
    apply (proj2 (Hbox (inj_y r))). eauto.
  - rewrite orb_true_iff, !Qltb_lt, py_max_lt, py_min_gt. split.
    + intros H. right. split.
      * destruct (proj1 (Hbox m) (or_introl eq_refl)) as (r & Hin & Hr & _). eauto.
      * destruct H as [H|H]; [left|right]; intros r Hin Hr; apply H;
          apply Hbox; eauto.
    + intros [H|[_ H]].
      * exfalso. destruct (proj1 (Hbox m) (or_introl eq_refl)) as (r & Hin & Hr & _).
        exact (H r Hin Hr).
      * destruct H as [H|H]; [left|right]; intros e He;
          apply Hbox in He as (r & Hin & Hr & <-); now apply H.
Qed.

Lemma boxgood_length (recs : list Trial) (x y xlogwin ylogwin : Q) :
  length (boxgood recs x y xlogwin ylogwin)
  = Spec.box_recovered recs x y xlogwin ylogwin.
Proof.
  unfold boxgood, Spec.box_recovered.
  induction recs as [|r recs IH]; simpl; [reflexivity|].
  destruct (recovered r); simpl;
    destruct (in_box x y xlogwin ylogwin r); simpl; lia.
Qed.

Lemma box_recovered_le (recs : list Trial) (x y xlogwin ylogwin : Q) :
  (Spec.box_recovered recs x y xlogwin ylogwin
   <= Spec.box_total recs x y xlogwin ylogwin)%nat.
Proof.
  unfold Spec.box_recovered, Spec.box_total.
  induction recs as [|r recs IH]; simpl; [lia|].
  destruct (in_box x y xlogwin ylogwin r), (recovered r); simpl; lia.
Qed.

Lemma ratio_unit (g n : nat) :
  (g <= n)%nat -> (0 < n)%nat ->
  0 <= inject_Z (Z.of_nat g) / inject_Z (Z.of_nat n) <= 1.
Proof.
  intros Hg Hn.
  assert (Hpos : 0 < inject_Z (Z.of_nat n)).
  { change 0 with (inject_Z 0). rewrite <- Zlt_Qlt. lia. }
  split.
  - apply Qle_shift_div_l; [exact Hpos|]. rewrite Qmult_0_l.
    change 0 with (inject_Z 0). rewrite <- Zle_Qle. lia.
  - apply Qle_shift_div_r; [exact Hpos|]. rewrite Qmult_1_l.
    rewrite <- Zle_Qle. lia.
Qed.

Lemma cell_spec (recs : list Trial) (xlogwin ylogwin x y : Q) :
  let total := Spec.box_total recs x y xlogwin ylogwin in
  let c := cell recs xlogwin ylogwin x y in
  ((total <= 10)%nat -> c = NaN) /\
  (Spec.no_axis_trial recs x xlogwin \/ Spec.mass_outside recs x y xlogwin ->
   c = NaN) /\
  ((10 < total)%nat ->
   ~ (Spec.no_axis_trial recs x xlogwin \/ Spec.mass_outside recs x y xlogwin) ->
   c = Num (Spec.recovery_ratio recs x y xlogwin ylogwin) /\
   0 <= Spec.recovery_ratio recs x y xlogwin ylogwin <= 1).
Proof.
  intros total c. subst c. unfold cell.
  rewrite boxgood_length. fold (boxall recs x y xlogwin ylogwin).
  change (length (boxall recs x y xlogwin ylogwin)) with total.
  pose proof (uncovered_iff recs x y xlogwin) as Hu.
  destruct (uncovered recs x y xlogwin).
  - split; [reflexivity|]. split; [reflexivity|].
    intros _ Hn. exfalso. apply Hn, Hu. reflexivity.
  - destruct (Nat.ltb_spec 10 total) as [Hgt|Hle].
    + split; [intros; lia|]. split.
      * intros Hc. apply Hu in Hc. discriminate.
      * intros _ _. split; [reflexivity|].
        apply ratio_unit; [apply box_recovered_le|fold total; lia].
    + split; [reflexivity|]. split; [intros Hc; apply Hu in Hc; discriminate|].
      intros; lia.
Qed.

(** C4.  Every cell [z[j][i]] of the grid built by
    [Completeness.completeness_grid], for the axis [x = xgrid[i]] and
    the mass [y = ygrid[j]]: it is NaN when its local box holds 10
    trials or fewer; it is NaN when no trial's injected axis falls in
    the box's axis range or [y] lies outside the minimum and maximum
    injected mass among the trials of that axis range; and otherwise,
    with more than 10 trials in the box, it is the ratio of the
    recovered trials to all trials in the box, a value in [0, 1]. *)
Theorem completeness_grid_cells
    (self : Completeness.t) (xlim ylim : Q * Q) (resolution : nat)
    (xlogwin ylogwin : Q) (i j : nat) (x y : Q) :
  nth_error (logspace_lim xlim resolution) i = Some x ->
  nth_error (logspace_lim ylim resolution) j = Some y ->
  exists g row c,
    grid (completeness_grid self xlim ylim resolution xlogwin ylogwin) = Some g /\
    xgrid g = logspace_lim xlim resolution /\
    ygrid g = logspace_lim ylim resolution /\
    nth_error (z g) j = Some row /\ nth_error row i = Some c /\
    let recs := recoveries self in
    let total := Spec.box_total recs x y xlogwin ylogwin in
    ((total <= 10)%nat -> c = NaN) /\
    (Spec.no_axis_trial recs x xlogwin \/ Spec.mass_outside recs x y xlogwin ->
     c = NaN) /\
    ((10 < total)%nat ->
     ~ (Spec.no_axis_trial recs x xlogwin \/ Spec.mass_outside recs x y xlogwin) ->
     c = Num (Spec.recovery_ratio recs x y xlogwin ylogwin) /\
     0 <= Spec.recovery_ratio recs x y xlogwin ylogwin <= 1).
Proof.
  intros Hx Hy. unfold completeness_grid. simpl.
  eexists _, _, _. split; [reflexivity|]. simpl.
  split; [reflexivity|]. split; [reflexivity|].
  split; [apply map_nth_error; exact Hy|].
  split; [apply map_nth_error; exact Hx|].
  apply cell_spec.
Qed.

End GridProperties.

(** ** Completeness.interpolate *)

(** C8.  With no grid built, and no interpolator cached or a refresh
    asked for, [Completeness.interpolate] raises the assertion error
    instead of returning a value. *)
Theorem interpolate_without_grid
    (self : Completeness.t) (xs ys : list Q) (refresh : bool) :
  Completeness.grid self = None ->
  Completeness.interpolator self = None \/ refresh = true ->
  Completeness.interpolate self xs ys refresh = Raise AssertionError.
Proof.
  intros Hg Hc. unfold Completeness.interpolate. rewrite Hg.
  destruct Hc as [-> | ->]; [reflexivity|].
  destruct (Completeness.interpolator self); reflexivity.
Qed.

(** ** lngrid *)

Lemma nth_error_arange (n : Z) (k : nat) :
  (k < Z.to_nat n)%nat -> nth_error (arange n) k = Some (Z.of_nat k).
Proof.
  intros H. unfold arange.
  rewrite nth_error_map, nth_error_seq.
  destruct (Nat.ltb_spec k (Z.to_nat n)); [reflexivity|lia].
Qed.

Lemma length_arange (n : Z) : length (arange n) = Z.to_nat n.
Proof. unfold arange. now rewrite length_map, length_seq. Qed.



Section LnGridProperties.
Local Open Scope R_scope.
Import LnGrid.




End LnGridProperties.

(** ** RegularGridInterpolator *)

Lemma searchsorted_left_spec (g : list Q) (x : Q) :
  let k := searchsorted_left g x in
  (k <= length g)%nat /\
  (forall j, (j < k)%nat -> nth j g 0 < x) /\
  ((k < length g)%nat -> x <= nth k g 0).
Proof.
  induction g as [|e g IH]; simpl.
  - repeat split; intros; lia.
  - destruct (Qltb e x) eqn:E.
    + apply Qltb_lt in E. destruct IH as (H1 & H2 & H3).
      split; [simpl; lia|]. split.
      * intros [|j] Hj; [exact E|]. apply H2. lia.
      * intros Hk. apply H3. simpl in Hk. lia.
    + apply Qltb_ge in E. split; [simpl; lia|]. split.
      * intros j Hj. lia.
      * intros _. exact E.
Qed.

Lemma ascending_step (g : list Q) (i : nat) :
  strictly_ascending g = true -> (S i < length g)%nat ->
  nth i g 0 < nth (S i) g 0.
Proof.
  revert i. induction g as [|a g IH]; intros i Hasc Hi; [simpl in Hi; lia|].
  destruct g as [|b g]; [simpl in Hi; lia|].
  change (Qltb a b && strictly_ascending (b :: g) = true) in Hasc.
  apply andb_prop in Hasc as [Hab Hrest].
  destruct i as [|i].
  - simpl. now apply Qltb_lt.
  - change (nth i (b :: g) 0 < nth (S i) (b :: g) 0).
    apply IH; [exact Hrest|simpl in *; lia].
Qed.

Lemma find_index_range (g : list Q) (x : Q) :
  (2 <= length g)%nat ->
  (0 <= find_index g x <= Z.of_nat (length g) - 2)%Z.
Proof.
  intros Hn. unfold find_index.
  destruct (Z.ltb_spec (Z.of_nat (searchsorted_left g x) - 1) 0);
    match goal with |- context [(?a >? ?b)%Z] => destruct (Z.gtb_spec a b) end; lia.
Qed.

Lemma find_index_val (g : list Q) (x : Q) :
  (2 <= length g)%nat ->
  Z.to_nat (find_index g x)
  = Nat.min (Nat.pred (searchsorted_left g x)) (length g - 2).
Proof.
  intros Hn. unfold find_index.
  destruct (Z.ltb_spec (Z.of_nat (searchsorted_left g x) - 1) 0);
    match goal with |- context [(?a >? ?b)%Z] => destruct (Z.gtb_spec a b) end; lia.
Qed.

(** Inside the bounds the index found brackets the point. *)
Lemma find_index_brackets (g : list Q) (x : Q) :
  strictly_ascending g = true -> (2 <= length g)%nat ->
  Spec.within g x ->
  nth (Z.to_nat (find_index g x)) g 0 <= x /\
  x <= nth (S (Z.to_nat (find_index g x))) g 0.
Proof.
  intros Hasc Hn [Hlo Hhi]. rewrite (find_index_val g x Hn).
  destruct (searchsorted_left_spec g x) as (Hk & Hbelow & Habove).
  destruct (searchsorted_left g x) as [|k].
  - simpl. split; [exact Hlo|].
    apply Qle_trans with (nth 0 g 0); [apply Habove; lia|].
    apply Qlt_le_weak, ascending_step; [exact Hasc|lia].
  - destruct (Nat.eq_dec (S k) (length g)) as [Hlast|Hmid].
    + exfalso. apply (Qlt_irrefl x).
      apply Qle_lt_trans with (nth (length g - 1) g 0); [exact Hhi|].
      apply Hbelow. lia.
    + replace (Nat.min (Nat.pred (S k)) (length g - 2)) with k by lia.
      split; [apply Qlt_le_weak, Hbelow; lia|apply Habove; lia].
Qed.

Lemma norm_distance_spec (g : list Q) (i : Z) (x : Q) :
  strictly_ascending g = true ->
  (0 <= i <= Z.of_nat (length g) - 2)%Z ->
  let lo := nth (Z.to_nat i) g 0 in
  let hi := nth (S (Z.to_nat i)) g 0 in
  lo < hi /\ norm_distance g i x = Ok (Num ((x - lo) / (hi - lo))).
Proof.
  intros Hasc Hi lo hi.
  assert (Hlt : lo < hi) by (apply ascending_step; [exact Hasc|lia]).
  split; [exact Hlt|]. unfold norm_distance.
  rewrite (getitem_nth g i 0) by lia. simpl.
  rewrite (getitem_nth g (i + 1) 0) by lia. simpl.
  replace (Z.to_nat (i + 1)) with (S (Z.to_nat i)) by lia.
  fold lo hi.
  destruct (Qeq_bool hi lo) eqn:E; [|reflexivity].
  apply Qeq_bool_iff in E. rewrite E in Hlt. now apply Qlt_irrefl in Hlt.
Qed.

Lemma out_of_bounds_spec (g : list Q) (x : Q) :
  (1 <= length g)%nat ->
  exists b, out_of_bounds g x = Ok b /\ (b = false <-> Spec.within g x).
Proof.
  intros Hn. unfold out_of_bounds.
  rewrite (getitem_nth g 0 0) by lia. simpl.
  assert (Hl : getitem g (-1) = Ok (nth (length g - 1) g 0)).
  { rewrite (getitem_neg g (-1) 0) by lia. do 2 f_equal. lia. }
  rewrite Hl. simpl. eexists; split; [reflexivity|].
  unfold Spec.within. rewrite orb_false_iff, !Qltb_ge. reflexivity.
Qed.

Lemma shape_ok_rows (xs ys : list Q) (z : list (list fl)) :
  shape_ok xs ys z = true ->
  length z = length ys /\ Forall (fun row => length row = length xs) z.
Proof.
  unfold shape_ok. intros H. apply andb_prop in H as [H1 H2].
  apply Nat.eqb_eq in H1. split; [exact H1|].
  apply Forall_forall. intros row Hrow.
  rewrite forallb_forall in H2. apply Nat.eqb_eq. now apply H2.
Qed.

Lemma rgi_value_spec (P : Q -> Prop) (xs ys : list Q) (z : list (list fl))
    (ix iy : Z) :
  shape_ok xs ys z = true -> Spec.cells P z ->
  (0 <= ix < Z.of_nat (length xs))%Z -> (0 <= iy < Z.of_nat (length ys))%Z ->
  exists q, rgi_value z ix iy = Ok (Num q) /\ P q.
Proof.
  intros Hshape Hcells Hx Hy.
  apply shape_ok_rows in Hshape as [Hlen Hrows].
  unfold rgi_value.
  destruct (getitem_nonneg z iy) as (row & -> & Hrow); [lia|]. simpl.
  apply nth_error_In in Hrow.
  rewrite Forall_forall in Hrows. specialize (Hrows row Hrow).
  destruct (getitem_nonneg row ix) as (c & -> & Hc); [lia|].
  apply nth_error_In in Hc.
  unfold Spec.cells in Hcells. rewrite Forall_forall in Hcells.
  specialize (Hcells row Hrow). rewrite Forall_forall in Hcells.
  destruct (Hcells c Hc) as (q & -> & Hq). eauto.
Qed.

Lemma unit_fraction (lo hi x : Q) :
  lo < hi -> lo <= x -> x <= hi -> 0 <= (x - lo) / (hi - lo) <= 1.
Proof.
  intros Hlt Hlo Hhi.
  assert (Hpos : 0 < hi - lo) by qlra.
  split.
  - apply Qle_shift_div_l; [exact Hpos|]. qlra.
  - apply Qle_shift_div_r; [exact Hpos|]. qlra.
Qed.

Lemma bilinear_unit (v00 v01 v10 v11 tx ty : Q) :
  0 <= v00 <= 1 -> 0 <= v01 <= 1 -> 0 <= v10 <= 1 -> 0 <= v11 <= 1 ->
  0 <= tx <= 1 -> 0 <= ty <= 1 ->
  0 <= Spec.bilinear v00 v01 v10 v11 tx ty <= 1.
Proof.
  intros H00 H01 H10 H11 Hx Hy. unfold Spec.bilinear.
  assert (W00 : 0 <= (1 - tx) * (1 - ty)) by (apply Qmult_le_0_compat; qlra).
  assert (W01 : 0 <= (1 - tx) * ty) by (apply Qmult_le_0_compat; qlra).
  assert (W10 : 0 <= tx * (1 - ty)) by (apply Qmult_le_0_compat; qlra).
  assert (W11 : 0 <= tx * ty) by (apply Qmult_le_0_compat; qlra).
  assert (Hsum : (1 - tx) * (1 - ty) + (1 - tx) * ty + tx * (1 - ty) + tx * ty == 1)
    by ring.
  qnra.
Qed.


(** One call on a regular grid: the fill value outside the bounds, the
    Spec.bilinear combination of four cells inside. *)
Lemma rgi_call1_spec (P : Q -> Prop) (itp : RegularGridInterpolator) (x y : Q) :
  Spec.regular (rgi_x itp) (rgi_y itp) (rgi_z itp) ->
  Spec.cells P (rgi_z itp) ->
  exists v,
    rgi_call1 itp x y = Ok (Num v) /\
    (~ (Spec.within (rgi_x itp) x /\ Spec.within (rgi_y itp) y) ->
     v = fill_value itp) /\
    (Spec.within (rgi_x itp) x -> Spec.within (rgi_y itp) y ->
     exists v00 v01 v10 v11 tx ty,
       P v00 /\ P v01 /\ P v10 /\ P v11 /\
       0 <= tx <= 1 /\ 0 <= ty <= 1 /\
       v = Spec.bilinear v00 v01 v10 v11 tx ty).
Proof.
  intros [Hxa Hya Hnx Hny Hshape] Hcells.
  pose proof (find_index_range (rgi_x itp) x Hnx) as Hi.
  pose proof (find_index_range (rgi_y itp) y Hny) as Hj.
  unfold rgi_call1.
  set (i := find_index (rgi_x itp) x) in *.
  set (j := find_index (rgi_y itp) y) in *.
  destruct (norm_distance_spec (rgi_x itp) i x Hxa Hi) as [Hxlt ->].
  destruct (norm_distance_spec (rgi_y itp) j y Hya Hj) as [Hylt ->].
  simpl.
  destruct (out_of_bounds_spec (rgi_x itp) x) as (ox & -> & Hox); [lia|].
  destruct (out_of_bounds_spec (rgi_y itp) y) as (oy & -> & Hoy); [lia|].
  simpl.
  destruct (rgi_value_spec P _ _ _ i j Hshape Hcells) as (v00 & -> & P00); [lia|lia|].
  destruct (rgi_value_spec P _ _ _ i (j + 1) Hshape Hcells) as (v01 & -> & P01); [lia|lia|].
  destruct (rgi_value_spec P _ _ _ (i + 1) j Hshape Hcells) as (v10 & -> & P10); [lia|lia|].
  destruct (rgi_value_spec P _ _ _ (i + 1) (j + 1) Hshape Hcells) as (v11 & -> & P11); [lia|lia|].
  simpl.
  destruct ox, oy; simpl.
  1-3: eexists; split; [reflexivity|]; split; [reflexivity|];
       intros Wx Wy; exfalso;
       try (apply Hox in Wx; discriminate); apply Hoy in Wy; discriminate.
  eexists; split; [reflexivity|]. split.
  - intros Hn. exfalso. apply Hn. split; [now apply Hox|now apply Hoy].
  - intros Wx Wy.
    destruct (find_index_brackets _ _ Hxa Hnx Wx) as [Bx1 Bx2].
    destruct (find_index_brackets _ _ Hya Hny Wy) as [By1 By2].
    fold i in Bx1, Bx2. fold j in By1, By2.
    exists v00, v01, v10, v11,
      ((x - nth (Z.to_nat i) (rgi_x itp) 0)
       / (nth (S (Z.to_nat i)) (rgi_x itp) 0 - nth (Z.to_nat i) (rgi_x itp) 0)),
      ((y - nth (Z.to_nat j) (rgi_y itp) 0)
       / (nth (S (Z.to_nat j)) (rgi_y itp) 0 - nth (Z.to_nat j) (rgi_y itp) 0)).
    repeat (split; [assumption|]).
    split; [apply unit_fraction; assumption|].
    split; [apply unit_fraction; assumption|].
    reflexivity.
Qed.

Lemma map_res_Forall2 {A B : Type} (f : A -> result B) (R : A -> B -> Prop)
    (xs : list A) :
  (forall x, In x xs -> exists y, f x = Ok y /\ R x y) ->
  exists ys, map_res f xs = Ok ys /\ Forall2 R xs ys.
Proof.
  induction xs as [|x xs IH]; intros H; simpl.
  - exists []. split; [reflexivity|constructor].
  - destruct (H x (or_introl eq_refl)) as (y & -> & Hy).
    destruct IH as (ys & -> & Hys); [intros a Ha; apply H; now right|].
    exists (y :: ys). split; [reflexivity|now constructor].
Qed.

Lemma Forall2_nth_error_l {A B : Type} (R : A -> B -> Prop) (l : list A)
    (l' : list B) (k : nat) (a : A) :
  Forall2 R l l' -> nth_error l k = Some a ->
  exists b, nth_error l' k = Some b /\ R a b.
Proof.
  intros H. revert k. induction H as [|x y l l' Hxy _ IH]; intros k Hk.
  - destruct k; discriminate.
  - destruct k as [|k]; simpl in *.
    + injection Hk as ->. eauto.
    + now apply IH.
Qed.

Lemma nth_error_combine {A B : Type} (l : list A) (l' : list B) (k : nat)
    (a : A) (b : B) :
  nth_error l k = Some a -> nth_error l' k = Some b ->
  nth_error (combine l l') k = Some (a, b).
Proof.
  revert l' k. induction l as [|x l IH]; intros l' k Ha Hb.
  - destruct k; discriminate.
  - destruct l' as [|y l']; [destruct k; discriminate|].
    destruct k as [|k]; simpl in *.
    + now injection Ha as ->; injection Hb as ->.
    + now apply IH.
Qed.

Lemma rgi_init_regular (xs ys : list Q) (z : list (list fl)) (fv : Q) :
  Spec.regular xs ys z ->
  rgi_init xs ys z fv
  = Ok {| rgi_x := xs; rgi_y := ys; rgi_z := z; fill_value := fv |}.
Proof.
  intros [Hx Hy _ _ Hs]. unfold rgi_init. now rewrite Hx, Hy, Hs.
Qed.

(** A call that uses a regular grid returns one value per point and
    leaves the interpolator of that grid cached. *)
Lemma interpolate_on_grid (P : Q -> Prop) (self : Completeness.t)
    (g : Completeness.Grid) (xs ys : list Q) (refresh : bool) :
  Completeness.grid self = Some g ->
  Spec.regular (Completeness.xgrid g) (Completeness.ygrid g) (Completeness.z g) ->
  Spec.cells P (Completeness.z g) ->
  Spec.uses_grid self g refresh ->
  length xs = length ys ->
  exists vs,
    Completeness.interpolate self xs ys refresh = Ok (Spec.cached self g, vs) /\
    Forall2 (Spec.point_value P g) (combine xs ys) vs.
Proof.
  intros Hg Hreg Hcells Huse Hlen.
  assert (Hcall : exists vs,
             rgi_call (Spec.interpolator_of g) (combine xs ys) = Ok vs /\
             Forall2 (Spec.point_value P g) (combine xs ys) vs).
  { apply map_res_Forall2. intros [x y] _. simpl.
    destruct (rgi_call1_spec P (Spec.interpolator_of g) x y Hreg Hcells)
      as (v & Hv & Hout & Hin).
    exists (Num v). split; [exact Hv|].
    exists v. split; [reflexivity|]. split.
    - intros Hn. apply Hout. exact Hn.
    - intros [Hx Hy]. now apply Hin. }
  destruct Hcall as (vs & Hcall & Hvs). exists vs. split; [|exact Hvs].
  unfold Completeness.interpolate.
  assert (Hbuild :
    (match Completeness.interpolator self, refresh with
     | Some _, false => Ok self
     | _, _ =>
         match Completeness.grid self with
         | None => Raise AssertionError
         | Some g0 =>
             itp <- rgi_init (Completeness.xgrid g0) (Completeness.ygrid g0)
                      (Completeness.z g0) (1 # 1000) ;;
             Ok {| Completeness.recoveries := Completeness.recoveries self;
                   Completeness.grid := Completeness.grid self;
                   Completeness.interpolator := Some itp |}
         end
     end) = Ok (Spec.cached self g)).
  { unfold Spec.cached.
    destruct Huse as [Hn | [Hr | Hc]].
    - rewrite Hn, Hg, (rgi_init_regular _ _ _ _ Hreg). reflexivity.
    - rewrite Hr, Hg, (rgi_init_regular _ _ _ _ Hreg).
      destruct (Completeness.interpolator self); reflexivity.
    - rewrite Hc. destruct refresh.
      + rewrite Hg, (rgi_init_regular _ _ _ _ Hreg). reflexivity.
      + rewrite <- Hc. now destruct self. }
  rewrite Hbuild. simpl.
  unfold stack_points. rewrite Hlen, Nat.eqb_refl. simpl.
  rewrite Hcall. reflexivity.
Qed.

(** C5.  On a grid with two or more strictly ascending points per axis
    and every cell in [0, 1], a call of [Completeness.interpolate] that
    uses this grid returns one number per query point (no error, no
    NaN): a value in [0, 1] for a point inside the axis and mass bounds
    of the grid, and the fallback 0.001 for a point outside. *)
Theorem interpolate_unit_or_fallback
    (self : Completeness.t) (g : Completeness.Grid) (xs ys : list Q)
    (refresh : bool) :
  Completeness.grid self = Some g ->
  Spec.regular (Completeness.xgrid g) (Completeness.ygrid g) (Completeness.z g) ->
  Spec.cells (fun q => 0 <= q <= 1) (Completeness.z g) ->
  Spec.uses_grid self g refresh ->
  length xs = length ys ->
  exists self' vs,
    Completeness.interpolate self xs ys refresh = Ok (self', vs) /\
    length vs = length xs /\
    forall k x y,
      nth_error xs k = Some x -> nth_error ys k = Some y ->
      exists v,
        nth_error vs k = Some (Num v) /\
        (Spec.inside g x y -> 0 <= v <= 1) /\
        (~ Spec.inside g x y -> v = 1 # 1000).
Proof.
  intros Hg Hreg Hcells Huse Hlen.
  destruct (interpolate_on_grid _ self g xs ys refresh Hg Hreg Hcells Huse Hlen)
    as (vs & Hcall & Hvs).
  exists (Spec.cached self g), vs. split; [exact Hcall|]. split.
  - apply Forall2_length in Hvs. rewrite length_combine in Hvs. lia.
  - intros k x y Hx Hy.
    destruct (Forall2_nth_error_l _ _ _ k (x, y) Hvs (nth_error_combine _ _ _ _ _ Hx Hy))
      as (c & Hc & v & -> & Hout & Hin).
    exists v. split; [exact Hc|]. split; [|exact Hout].
    intros Hi. destruct (Hin Hi)
      as (v00 & v01 & v10 & v11 & tx & ty & P00 & P01 & P10 & P11 & Tx & Ty & ->).
    now apply bilinear_unit.
Qed.

(** ** Arrays *)

Lemma length_list_set {A : Type} (a : list A) (i : nat) (v : A) :
  length (list_set a i v) = length a.
Proof.
  revert i. induction a as [|x a IH]; intros [|i]; simpl; auto.
Qed.

Lemma nth_error_list_set_eq {A : Type} (a : list A) (i : nat) (v : A) :
  (i < length a)%nat -> nth_error (list_set a i v) i = Some v.
Proof.
  revert i. induction a as [|x a IH]; intros [|i] H; simpl in *;
    try lia; try reflexivity.
  apply IH. lia.
Qed.

Lemma nth_error_list_set_ne {A : Type} (a : list A) (i j : nat) (v : A) :
  i <> j -> nth_error (list_set a i v) j = nth_error a j.
Proof.
  revert i j. induction a as [|x a IH]; intros [|i] [|j] H; simpl;
    try reflexivity; try congruence.
  apply IH. congruence.
Qed.

Lemma list_set_twice {A : Type} (a : list A) (i : nat) (v w : A) :
  list_set (list_set a i v) i w = list_set a i w.
Proof.
  revert i. induction a as [|x a IH]; intros [|i]; simpl; auto.
  now rewrite IH.
Qed.

Lemma setitem_nonneg {A : Type} (a : list A) (k : Z) (v : A) :
  (0 <= k < Z.of_nat (length a))%Z ->
  setitem a k v = Ok (list_set a (Z.to_nat k) v).
Proof.
  intros H. unfold setitem.
  destruct (Z.ltb_spec k 0); [lia|].
  destruct (Z.leb_spec 0 k); [|lia].
  destruct (Z.ltb_spec k (Z.of_nat (length a))); [|lia].
  reflexivity.
Qed.

Lemma getitem_nth_error {A : Type} (a : list A) (n : nat) (v : A) :
  nth_error a n = Some v -> getitem a (Z.of_nat n) = Ok v.
Proof.
  intros H.
  assert (Hn : (n < length a)%nat) by (apply nth_error_Some; congruence).
  destruct (getitem_nonneg a (Z.of_nat n)) as (w & -> & Hw); [lia|].
  rewrite Nat2Z.id in Hw. congruence.
Qed.

Lemma nth_error_repeat_lt {A : Type} (x : A) (n k : nat) :
  (k < n)%nat -> nth_error (repeat x n) k = Some x.
Proof.
  revert k. induction n as [|n IH]; intros [|k] H; simpl;
    try lia; try reflexivity.
  apply IH. lia.
Qed.

Lemma list_set_same {A : Type} (a : list A) (i : nat) (v : A) :
  nth_error a i = Some v -> list_set a i v = a.
Proof.
  revert i. induction a as [|x a IH]; intros [|i] H; simpl in *;
    try discriminate.
  - now injection H as ->.
  - f_equal. now apply IH.
Qed.

(** ** Hierarchy.__init__: the integrated completeness *)

Section QintLoops.
Context {L : Libm}.
Variable g : Completeness.Grid.
Hypothesis g_regular :
  Spec.regular (Completeness.xgrid g) (Completeness.ygrid g) (Completeness.z g).
Hypothesis g_ones : Spec.cells (fun q => q = 1) (Completeness.z g).
Variable areas : list (list Q).
Variable res : Z.

Lemma on_grid_cached (c : Completeness.t) :
  Spec.on_grid g c -> Spec.on_grid g (Spec.cached c g).
Proof.
  intros [Hg _]. split; [exact Hg|]. right. right. reflexivity.
Qed.






End QintLoops.

Section HierarchyInit.
Context {L : Libm}.

Lemma areas_of_widths (bs : list Hierarchy.Bin) :
  Hierarchy.areas_of (Hierarchy.widths_of bs)
  = map (fun b => [Spec.bin_area b]) bs.
Proof.
  unfold Hierarchy.areas_of, Hierarchy.widths_of. rewrite map_map.
  apply map_ext. intros b. reflexivity.
Qed.

Lemma length_linspace (a b : Q) (n : nat) : length (linspace a b n) = n.
Proof.
  destruct n as [|[|n]]; [reflexivity|reflexivity|].
  unfold linspace. now rewrite length_map, length_seq.
Qed.

Lemma shape_ok_matrix (xs ys : list Q) (f : fl -> fl)
    (h : Q -> Q -> fl) :
  shape_ok xs ys (map (map f) (map (fun y => map (fun x => h x y) xs) ys)) = true.
Proof.
  unfold shape_ok. rewrite !length_map, Nat.eqb_refl. simpl.
  apply forallb_forall. intros row Hrow.
  apply in_map_iff in Hrow as (r & <- & Hr).
  apply in_map_iff in Hr as (y & <- & _).
  rewrite !length_map. apply Nat.eqb_refl.
Qed.

Lemma strictly_ascending_map_seq (f : nat -> Q) (s n : nat) :
  (forall k, f k < f (S k)) -> strictly_ascending (map f (seq s n)) = true.
Proof.
  intros Hf. revert s. induction n as [|n IH]; intros s; [reflexivity|].
  destruct n as [|n]; [reflexivity|].
  change (Qltb (f s) (f (S s)) && strictly_ascending (map f (seq (S s) (S n))) = true).
  rewrite IH, andb_true_r. apply Qltb_lt, Hf.
Qed.

Lemma linspace_ascending (a b : Q) (n : nat) :
  a < b -> strictly_ascending (linspace a b n) = true.
Proof.
  intros Hab. destruct n as [|[|n]]; [reflexivity|reflexivity|].
  unfold linspace. apply strictly_ascending_map_seq. intros k.
  assert (Hstep : 0 < (b - a) / inject_Z (Z.of_nat (S n))).
  { apply Qlt_shift_div_l.
    - change 0 with (inject_Z 0). rewrite <- Zlt_Qlt. lia.
    - qlra. }
  set (step := (b - a) / inject_Z (Z.of_nat (S n))) in *. clearbody step.
  rewrite Nat2Z.inj_succ. unfold Z.succ. rewrite inject_Z_plus.
  change (inject_Z 1) with 1.
  setoid_replace ((inject_Z (Z.of_nat k) + 1) * step)
    with (inject_Z (Z.of_nat k) * step + step) by ring.
  qlra.
Qed.

Lemma strictly_ascending_map (f : Q -> Q) (l : list Q) :
  (forall a b, a < b -> f a < f b) ->
  strictly_ascending l = true -> strictly_ascending (map f l) = true.
Proof.
  intros Hf. induction l as [|a l IH]; intros Hl; [reflexivity|].
  destruct l as [|b l]; [reflexivity|].
  change (Qltb a b && strictly_ascending (b :: l) = true) in Hl.
  apply andb_prop in Hl as [Hab Hrest].
  change (Qltb (f a) (f b) && strictly_ascending (map f (b :: l)) = true).
  rewrite (IH Hrest), andb_true_r. apply Qltb_lt, Hf. now apply Qltb_lt.
Qed.

(** Log-spaced points between increasing limits ascend, for an
    increasing [10**x]. *)
Lemma logspace_ascending (lim : Q * Q) (n : nat) :
  (forall a b, a < b -> pow10 a < pow10 b) ->
  np_log10 (fst lim) < np_log10 (snd lim) ->
  strictly_ascending (Completeness.logspace_lim lim n) = true.
Proof.
  intros Hpow Hlim. unfold Completeness.logspace_lim.
  apply strictly_ascending_map; [exact Hpow|].
  now apply linspace_ascending.
Qed.


End HierarchyInit.

(** ** PowerLaw.__init__ *)

Lemma bind_inv {A B : Type} (m : result A) (k : A -> result B) (b : B) :
  bind m k = Ok b -> exists a, m = Ok a /\ k a = Ok b.
Proof.
  destruct m as [a|e]; simpl; intros H; [eauto|discriminate].
Qed.

Lemma for_each_invariant {S A : Type} (P : S -> Prop) (body : S -> A -> result S)
    (xs : list A) (st st' : S) :
  (forall s x s', In x xs -> P s -> body s x = Ok s' -> P s') ->
  P st -> for_each xs body st = Ok st' -> P st'.
Proof.
  revert st. induction xs as [|x xs IH]; intros st Hbody Hst Hrun; simpl in Hrun.
  - now injection Hrun as <-.
  - apply bind_inv in Hrun as (s1 & H1 & Hrest).
    apply (IH s1).
    + intros s y s' Hy. apply Hbody. now right.
    + apply (Hbody st x s1); [now left|exact Hst|exact H1].
    + exact Hrest.
Qed.

Lemma setitem_inv {A : Type} (a a' : list A) (k : Z) (v : A) :
  (0 <= k)%Z -> setitem a k v = Ok a' -> a' = list_set a (Z.to_nat k) v.
Proof.
  intros Hk. unfold setitem.
  destruct (Z.ltb_spec k 0); [lia|].
  destruct (_ && _); [|discriminate]. now intros [= <-].
Qed.

Lemma in_arange (n i : Z) : In i (arange n) <-> (0 <= i < n)%Z.
Proof.
  unfold arange. rewrite in_map_iff. split.
  - intros (k & <- & Hk). apply in_seq in Hk. lia.
  - intros H. exists (Z.to_nat i). split; [lia|]. apply in_seq. lia.
Qed.

Section PowerLawInit.
Context {L : Libm}.

(** The accumulation loop only writes entries below [lna_res]. *)
Lemma qint_loops_untouched (wa wm : Q) (ca cm : list Q) (ra rm : Z)
    (c c' : Completeness.t) (q0 qs : list fl) :
  PowerLaw.qint_loops wa wm ca cm ra rm (c, q0) = Ok (c', qs) ->
  length qs = length q0 /\
  forall k, (ra <= Z.of_nat k)%Z -> nth_error qs k = nth_error q0 k.
Proof.
  intros Hrun.
  set (P := fun st : Completeness.t * list fl =>
              length (snd st) = length q0 /\
              forall k, (ra <= Z.of_nat k)%Z -> nth_error (snd st) k = nth_error q0 k).
  change (P (c', qs)).
  unfold PowerLaw.qint_loops in Hrun.
  assert (H0 : P (c, q0)) by (split; [reflexivity|intros; reflexivity]).
  eapply for_each_invariant; [|exact H0|exact Hrun].
  intros s i s' Hi Hs Hbody. apply in_arange in Hi.
  eapply for_each_invariant; [|exact Hs|exact Hbody].
  clear s s' Hs Hbody. intros s j s' _ [Hlen Hs] Hstep.
  unfold PowerLaw.qint_step in Hstep.
  apply bind_inv in Hstep as (old & _ & Hstep).
  apply bind_inv in Hstep as (a & _ & Hstep).
  apply bind_inv in Hstep as (m & _ & Hstep).
  apply bind_inv in Hstep as ([c1 vs] & _ & Hstep).
  apply bind_inv in Hstep as (v & _ & Hstep).
  apply bind_inv in Hstep as (qs1 & Hset & Hstep).
  injection Hstep as <-. unfold P. cbn [snd] in *.
  apply setitem_inv in Hset; [|lia]. subst qs1. split.
  - now rewrite length_list_set.
  - intros k Hk. rewrite nth_error_list_set_ne by lia. now apply Hs.
Qed.

(** C10.  After a construction of [PowerLaw] with [lna_res < lnm_res]
    (and a mass box of non-zero ln-span), [Qints] has [lnm_res] entries
    and those at the indices [lna_res .. lnm_res - 1] are zero: the
    accumulation loop never wrote them. *)
Theorem PowerLaw_unwritten_Qints_are_zero
    (pop : Hierarchy.Population) (c : Completeness.t) (ra rm : Z)
    (edges : PowerLaw.Edges) (self : PowerLaw.t) :
  PowerLaw.init pop c ra rm edges = Ok self ->
  (ra < rm)%Z ->
  ~ PowerLaw.ln_span (snd edges) == 0 ->
  (0 <= ra)%Z /\
  Z.of_nat (length (PowerLaw.Qints self)) = rm /\
  forall i, (ra <= i < rm)%Z ->
    exists q, getitem (PowerLaw.Qints self) i = Ok (Num q) /\ q == 0.
Proof.
  intros Hinit Hlt Hspan. unfold PowerLaw.init in Hinit.
  apply bind_inv in Hinit as (q0 & Hq0 & Hinit).
  apply bind_inv in Hinit as (z0 & Hz0 & Hinit).
  apply bind_inv in Hinit as ([c3 qs] & Hloops & Hinit).
  injection Hinit as <-. cbn [PowerLaw.Qints].
  unfold PowerLaw.zeros in Hq0, Hz0.
  destruct (Z.ltb_spec rm 0); [discriminate|]. injection Hq0 as <-.
  destruct (Z.ltb_spec ra 0); [discriminate|]. clear Hz0 z0.
  apply qint_loops_untouched in Hloops as [Hlen Hsame].
  rewrite repeat_length in Hlen.
  assert (Hdiv : PowerLaw.div_span qs (PowerLaw.ln_span (snd edges))
                 = map (fun q => match q with
                                 | Num x => Num (x / PowerLaw.ln_span (snd edges))
                                 | NaN => NaN
                                 end) qs).
  { unfold PowerLaw.div_span.
    destruct (Qeq_bool _ 0) eqn:E; [|reflexivity].
    apply Qeq_bool_iff in E. contradiction. }
  rewrite Hdiv. split; [assumption|]. split; [rewrite length_map; lia|].
  intros i Hi. exists (0 / PowerLaw.ln_span (snd edges)). split.
  - assert (Hnth : nth_error qs (Z.to_nat i) = Some (Num 0)).
    { rewrite Hsame by lia. apply nth_error_repeat_lt. lia. }
    replace i with (Z.of_nat (Z.to_nat i)) at 1 by lia.
    apply getitem_nth_error.
    rewrite nth_error_map, Hnth. reflexivity.
  - unfold Qdiv. ring.
Qed.

End PowerLawInit.

(** ** Hierarchy.lnlike: the hard-bound prior *)

Lemma fold_left_Qplus_acc (xs : list Q) (acc : Q) :
  fold_left Qplus xs acc == acc + Qsum xs.
Proof.
  unfold Qsum. revert acc. induction xs as [|x xs IH]; intros acc; simpl.
  - ring.
  - rewrite (IH (acc + x)), (IH (0 + x)). ring.
Qed.

Lemma Qsum_cons (x : Q) (xs : list Q) : Qsum (x :: xs) == x + Qsum xs.
Proof.
  unfold Qsum at 1. simpl. rewrite fold_left_Qplus_acc. ring.
Qed.

Lemma Qsum_scale (a : Q) (xs : list Q) :
  Qsum (map (fun x => x * a) xs) == Qsum xs * a.
Proof.
  induction xs as [|x xs IH]; simpl.
  - unfold Qsum. simpl. ring.
  - rewrite !Qsum_cons, IH. ring.
Qed.

(** One row of [theta * bin_areas]: theta against the one-entry row of
    a bin sums to the whole of theta times the area. *)
Lemma broadcast_row_sum (theta : list Q) (a : Q) :
  exists row, broadcast_mul theta [a] = Ok row /\ Qsum row == Qsum theta * a.
Proof.
  destruct theta as [|t [|t' theta]].
  - exists []. split; [reflexivity|]. unfold Qsum. simpl. ring.
  - exists [t * a]. split; [reflexivity|]. rewrite !Qsum_cons.
    change (Qsum []) with 0. ring.
  - eexists. split; [reflexivity|]. apply Qsum_scale.
Qed.

(** What the fraction test sums, for any instance whose [bin_areas] has
    the shape [(nbins, 1)] the constructor gives it: the sum of theta
    times the sum of the areas. *)
Lemma area_sum_is_product_of_sums (self : Hierarchy.t) (areas theta : list Q) :
  Hierarchy.bin_areas self = map (fun a => [a]) areas ->
  exists s, Hierarchy.area_sum self theta = Ok s /\
            s == Qsum theta * Qsum areas.
Proof.
  intros Hshape. unfold Hierarchy.area_sum. rewrite Hshape. clear Hshape.
  assert (H : exists rows,
             map_res (broadcast_mul theta) (map (fun a => [a]) areas) = Ok rows /\
             Qsum (map Qsum rows) == Qsum theta * Qsum areas).
  { induction areas as [|a areas IH]; simpl.
    - exists []. split; [reflexivity|]. unfold Qsum. simpl. ring.
    - destruct (broadcast_row_sum theta a) as (row & -> & Hrow).
      destruct IH as (rows & -> & Hrows). simpl.
      exists (row :: rows). split; [reflexivity|].
      simpl. rewrite !Qsum_cons, Hrow, Hrows. ring. }
  destruct H as (rows & -> & Hrows). simpl. eauto.
Qed.

(** C1.  [Hierarchy(pop, completeness, res=1, bins=two bins of area 1,
    nstars=3, fraction=True)] after [max_like()] (ceiling 1), at
    [theta = [1, 1]]: no component is <= 0 or above 10 times the
    ceiling, and the area-weighted sum of theta is 2, which over 3
    stars does not exceed 1; yet the hard-bound check rejects and
    [lnlike] returns minus infinity, because the sum it forms is 4. *)
Theorem lnlike_rejects_where_no_claimed_bound_holds :
  Example.seeded = Ok Example.hierarchy /\
  Spec.hard_bound_claimed Example.hierarchy [1; 1] = false /\
  Spec.area_weighted_sum Example.hierarchy [1; 1] == 2 /\
  (exists s, Hierarchy.area_sum Example.hierarchy [1; 1] = Ok s /\ s == 4) /\
  Hierarchy.hard_bound Example.hierarchy [1; 1] = Ok true /\
  Hierarchy.lnlike (L := Example.linear_libm) Example.hierarchy [1; 1]
  = Ok (Example.hierarchy, Hierarchy.NegInf).
Proof.
  split; [vm_compute; reflexivity|].
  split; [vm_compute; reflexivity|].
  split; [vm_compute; reflexivity|].
  split; [eexists; split; vm_compute; reflexivity|].
  split; vm_compute; reflexivity.
Qed.

(** ** PowerLaw: what [Qints] holds *)

(** C2.  [PowerLaw(pop, completeness, lna_res=2, lnm_res=3)] with a
    completeness of 1 everywhere: the constructor leaves in [Qints] two
    sums over the mass centres, one per axis index, and a zero, where
    one integrated completeness per mass index gives three equal
    entries; and the expected-detections term of [lnlike] at
    [theta = [1, 1]] pairs the two axis-indexed entries with the first
    two mass centres, which differs from the sum over the three mass
    indices. *)
Theorem PowerLaw_Qints_indexed_by_axis :
  Example.powerlaw_constructed = Ok Example.powerlaw /\
  map Example.fl_red (PowerLaw.Qints Example.powerlaw)
  = [Num (97 # 200); Num (97 # 200); Num 0] /\
  (exists qs,
      Spec.Qints_per_mass (L := Example.linear_libm) Example.powerlaw = Ok qs /\
      map Example.fl_red qs = [Num (97 # 300); Num (97 # 300); Num (97 # 300)]) /\
  Example.reduced
    (PowerLaw.nexpect (L := Example.linear_libm) Example.powerlaw [1; 1])
  = Ok (Num (1649 # 150)) /\
  Example.reduced
    (Spec.nexpect_per_mass (L := Example.linear_libm) Example.powerlaw [1; 1])
  = Ok (Num (388 # 25)).
Proof.
  split; [vm_compute; reflexivity|].
  split; [vm_compute; reflexivity|].
  split; [eexists; split; vm_compute; reflexivity|].
  split; vm_compute; reflexivity.
Qed.

(** The first half of the hard bound holds as stated: a component of
    theta that is <= 0 or above 10 times the ceiling makes [lnlike]
    return minus infinity. *)
Lemma lnlike_rejects_theta_out_of_range {L : Libm} (self : Hierarchy.t)
    (areas theta : list Q) (c x : Q) :
  Hierarchy.bin_areas self = map (fun a => [a]) areas ->
  Hierarchy.ceiling self = Some c ->
  In x theta -> x <= 0 \/ 10 * c < x ->
  Hierarchy.lnlike self theta = Ok (self, Hierarchy.NegInf).
Proof.
  intros Hshape Hceil Hin Hx.
  assert (Hb : Hierarchy.hard_bound self theta = Ok true).
  { unfold Hierarchy.hard_bound. rewrite Hceil.
    assert (Hany : existsb (fun x => Qle_bool x 0 || Qltb (10 * c) x) theta = true).
    { apply existsb_exists. exists x. split; [exact Hin|].
      apply orb_true_iff. destruct Hx as [Hx|Hx].
      - left. now apply Qle_bool_iff.
      - right. now apply Qltb_lt. }
    destruct (Hierarchy.fraction self).
    - destruct (area_sum_is_product_of_sums self areas theta Hshape) as (s & -> & _).
      cbn [bind]. destruct (Hierarchy.ratio_exceeds_one s (Hierarchy.nstars self));
        [reflexivity|now rewrite Hany].
    - cbn [bind]. now rewrite Hany. }
  unfold Hierarchy.lnlike. rewrite Hb. reflexivity.
Qed.

(** ** The bin edges of a constructed instance *)

Lemma insert_unique_ascending (x : Q) (a : list Q) :
  strictly_ascending a = true -> strictly_ascending (insert_unique x a) = true.
Proof.
  induction a as [|e a IH]; intros Ha; [reflexivity|].
  cbn [insert_unique]. destruct (Qcompare_spec x e) as [Heq|Hlt|Hgt].
  - exact Ha.
  - change (Qltb x e && strictly_ascending (e :: a) = true).
    rewrite Ha, andb_true_r. now apply Qltb_lt.
  - destruct a as [|e' a].
    + cbn. rewrite andb_true_r. now apply Qltb_lt.
    + change (Qltb e e' && strictly_ascending (e' :: a) = true) in Ha.
      apply andb_prop in Ha as [Hee' Ha'].
      specialize (IH Ha'). cbn [insert_unique] in *.
      destruct (Qcompare_spec x e') as [Heq'|Hlt'|Hgt'].
      * change (Qltb e e' && strictly_ascending (e' :: a) = true).
        now rewrite Hee', Ha'.
      * change (Qltb e x && strictly_ascending (x :: e' :: a) = true).
        rewrite IH, andb_true_r. now apply Qltb_lt.
      * change (Qltb e e' && strictly_ascending (e' :: insert_unique x a) = true).
        now rewrite Hee', IH.
Qed.

(** [np.unique] returns an ascending array, as [np.digitize] needs. *)
Lemma unique_ascending (a : list Q) : strictly_ascending (unique a) = true.
Proof.
  induction a as [|x a IH]; [reflexivity|].
  cbn [unique fold_right]. now apply insert_unique_ascending.
Qed.

Lemma in_insert_unique (x y : Q) (a : list Q) :
  x == y \/ (exists e, In e a /\ e == y) ->
  exists e, In e (insert_unique x a) /\ e == y.
Proof.
  induction a as [|e a IH]; intros H.
  - destruct H as [H|(e & [] & _)]. exists x. split; [now left|exact H].
  - cbn [insert_unique]. destruct (Qcompare_spec x e) as [Heq|Hlt|Hgt].
    + destruct H as [H|(e0 & He0 & H)].
      * exists e. split; [now left|]. now rewrite <- Heq.
      * exists e0. split; assumption.
    + destruct H as [H|(e0 & He0 & H)].
      * exists x. split; [now left|exact H].
      * exists e0. split; [now right|exact H].
    + destruct H as [H|(e0 & [<-|He0] & H)].
      * destruct IH as (e1 & He1 & H1); [now left|].
        exists e1. split; [now right|exact H1].
      * exists e. split; [now left|exact H].
      * destruct IH as (e1 & He1 & H1); [right; eauto|].
        exists e1. split; [now right|exact H1].
Qed.

Lemma in_unique (y : Q) (a : list Q) :
  In y a -> exists e, In e (unique a) /\ e == y.
Proof.
  induction a as [|x a IH]; intros H; [destruct H|].
  cbn [unique fold_right]. apply in_insert_unique.
  destruct H as [->|H]; [left; reflexivity|right; now apply IH].
Qed.

(** Two distinct values leave at least two edges. *)
Lemma unique_two (a : list Q) (lo hi : Q) :
  In lo a -> In hi a -> lo < hi -> (2 <= length (unique a))%nat.
Proof.
  intros Hlo Hhi Hlt.
  destruct (in_unique lo a Hlo) as (e1 & He1 & E1).
  destruct (in_unique hi a Hhi) as (e2 & He2 & E2).
  destruct (unique a) as [|u [|u' l]]; simpl; try lia.
  - destruct He1.
  - exfalso. destruct He1 as [<-|[]]. destruct He2 as [<-|[]].
    rewrite E1 in E2. rewrite E2 in Hlt. now apply Qlt_irrefl in Hlt.
Qed.

(** A constructed instance has ascending edges, and at least one axis
    and one mass division as soon as one bin has low < high on each
    axis. *)
Lemma init_edges {L : Libm} (pop : Hierarchy.Population) (c : Completeness.t)
    (res : Z) (bins : list Hierarchy.Bin) (nstars : option Z)
    (mass_lim : Q * Q) (fraction : bool) (h : Hierarchy.t) :
  Hierarchy.init pop c res bins nstars mass_lim fraction = Ok h ->
  strictly_ascending (Hierarchy.lna_edges h) = true /\
  strictly_ascending (Hierarchy.lnm_edges h) = true /\
  Hierarchy.nabins h = (Z.of_nat (length (Hierarchy.lna_edges h)) - 1)%Z /\
  Hierarchy.nmbins h = (Z.of_nat (length (Hierarchy.lnm_edges h)) - 1)%Z /\
  Hierarchy.bin_areas h = map (fun a => [a]) (map Spec.bin_area bins) /\
  ((exists b, In b bins /\ Hierarchy.a_lo b < Hierarchy.a_hi b) ->
   (1 <= Hierarchy.nabins h)%Z) /\
  ((exists b, In b bins /\ Hierarchy.m_lo b < Hierarchy.m_hi b) ->
   (1 <= Hierarchy.nmbins h)%Z).
Proof.
  intros Hinit. unfold Hierarchy.init in Hinit.
  apply bind_inv in Hinit as ([c3 qs] & _ & Hinit). injection Hinit as <-.
  cbn [Hierarchy.lna_edges Hierarchy.lnm_edges Hierarchy.nabins Hierarchy.nmbins
       Hierarchy.bin_areas].
  split; [apply unique_ascending|]. split; [apply unique_ascending|].
  split; [reflexivity|]. split; [reflexivity|].
  split; [now rewrite areas_of_widths, map_map|].
  split.
  - intros (b & Hb & Hlt).
    assert (H : (2 <= length (unique (Hierarchy.axis_edges bins)))%nat).
    { apply (unique_two _ (Hierarchy.a_lo b) (Hierarchy.a_hi b)); [| |exact Hlt];
        unfold Hierarchy.axis_edges; apply in_flat_map; exists b; simpl; auto. }
    lia.
  - intros (b & Hb & Hlt).
    assert (H : (2 <= length (unique (Hierarchy.mass_edges bins)))%nat).
    { apply (unique_two _ (Hierarchy.m_lo b) (Hierarchy.m_hi b)); [| |exact Hlt];
        unfold Hierarchy.mass_edges; apply in_flat_map; exists b; simpl; auto. }
    lia.
Qed.

Lemma cells_unitb_spec (z : list (list fl)) :
  Spec.cells_unitb z = true -> Spec.cells (fun q => 0 <= q <= 1) z.
Proof.
  unfold Spec.cells_unitb, Spec.cells. intros H.
  rewrite forallb_forall in H. apply Forall_forall. intros row Hrow.
  specialize (H row Hrow). rewrite forallb_forall in H.
  apply Forall_forall. intros v Hv. specialize (H v Hv).
  destruct v as [q|]; [|discriminate].
  apply andb_prop in H as [H0 H1]. exists q. split; [reflexivity|].
  split; now apply Qle_bool_iff.
Qed.

(** * The theorems at concrete inputs *)


Lemma occurrence_total_witness :
  (Hierarchy.nabins Example.hierarchy * Hierarchy.nmbins Example.hierarchy
   <= Z.of_nat (length [7; 9; 11]))%Z /\
  exists vs,
    Hierarchy.occurrence Example.hierarchy [-1000; 1000] [1000; -1000] [7; 9; 11] = Ok vs /\
    length vs = 2%nat.
Proof.
  split; [vm_compute; discriminate|].
  apply (occurrence_total Example.hierarchy [-1000; 1000] [1000; -1000] [7; 9; 11]).
  - vm_compute; discriminate.
  - vm_compute; discriminate.
  - vm_compute; discriminate.
  - reflexivity.
Defined.

Lemma completeness_grid_cells_witness :
  nth_error (Completeness.logspace_lim (L := Example.linear_libm) (1, 2) 2) 0 = Some 1 /\
  exists g row c,
    Completeness.grid
      (Completeness.completeness_grid (L := Example.linear_libm)
         (Completeness.init Example.twelve_trials) (1, 2) (1, 2) 2 (1 # 2) (1 # 2))
    = Some g /\
    nth_error (Completeness.z g) 0 = Some row /\ nth_error row 0 = Some c /\
    c = Num (Spec.recovery_ratio (L := Example.linear_libm)
               Example.twelve_trials 1 1 (1 # 2) (1 # 2)).
Proof.
  split; [reflexivity|].
  destruct (completeness_grid_cells (L := Example.linear_libm)
              (Completeness.init Example.twelve_trials) (1, 2) (1, 2) 2
              (1 # 2) (1 # 2) 0 0 1 1 eq_refl eq_refl)
    as (g & row & c & Hg & _ & _ & Hrow & Hc & _ & _ & Hratio).
  exists g, row, c. repeat (split; [assumption|]).
  apply Hratio.
  - vm_compute. lia.
  - intros H. apply (uncovered_iff (L := Example.linear_libm)) in H.
    vm_compute in H. discriminate.
Defined.

Lemma interpolate_without_grid_witness :
  Completeness.grid Example.no_trials = None /\
  Completeness.interpolate Example.no_trials [1] [10] false = Raise AssertionError.
Proof.
  split; [reflexivity|].
  apply (interpolate_without_grid Example.no_trials [1] [10] false).
  - reflexivity.
  - left. reflexivity.
Defined.

Lemma small_grid_regular :
  Spec.regular (Completeness.xgrid Example.small_grid)
    (Completeness.ygrid Example.small_grid) (Completeness.z Example.small_grid).
Proof.
  constructor; try reflexivity; simpl; lia.
Defined.

Lemma small_grid_unit :
  Spec.cells (fun q => 0 <= q <= 1) (Completeness.z Example.small_grid).
Proof.
  unfold Spec.cells. simpl.
  repeat (apply Forall_cons || apply Forall_nil);
    (eexists; split; [reflexivity|]; split; unfold Qle; simpl; lia).
Defined.

Lemma interpolate_unit_or_fallback_witness :
  Completeness.grid Example.with_small_grid = Some Example.small_grid /\
  exists self' vs,
    Completeness.interpolate Example.with_small_grid [3 # 2; 5] [3 # 2; 1] false
    = Ok (self', vs) /\
    length vs = 2%nat /\
    forall k x y,
      nth_error [3 # 2; 5] k = Some x -> nth_error [3 # 2; 1] k = Some y ->
      exists v,
        nth_error vs k = Some (Num v) /\
        (Spec.inside Example.small_grid x y -> 0 <= v <= 1) /\
        (~ Spec.inside Example.small_grid x y -> v = 1 # 1000).
Proof.
  split; [reflexivity|].
  apply (interpolate_unit_or_fallback Example.with_small_grid Example.small_grid
           [3 # 2; 5] [3 # 2; 1] false).
  - reflexivity.
  - exact small_grid_regular.
  - exact small_grid_unit.
  - left. reflexivity.
  - reflexivity.
Defined.




Lemma PowerLaw_unwritten_Qints_are_zero_witness :
  PowerLaw.init (L := Example.linear_libm) Example.no_planets Example.no_trials 2 3
    Example.default_edges = Ok Example.powerlaw /\
  (0 <= 2)%Z /\
  Z.of_nat (length (PowerLaw.Qints Example.powerlaw)) = 3%Z /\
  forall i, (2 <= i < 3)%Z ->
    exists q, getitem (PowerLaw.Qints Example.powerlaw) i = Ok (Num q) /\ q == 0.
Proof.
  assert (H : PowerLaw.init (L := Example.linear_libm) Example.no_planets
                Example.no_trials 2 3 Example.default_edges = Ok Example.powerlaw)
    by (vm_compute; reflexivity).
  split; [exact H|].
  apply (PowerLaw_unwritten_Qints_are_zero (L := Example.linear_libm)
           Example.no_planets Example.no_trials 2 3 Example.default_edges
           Example.powerlaw H).
  - reflexivity.
  - vm_compute. discriminate.
Defined.

(** * A cached interpolator outlives its grid *)

(** C5, as stated, at a completeness object that was used once (grid
    over the masses [3, 7000], interpolator cached) and then given a new
    grid over the masses [100, 7000]: the grid is regular with every
    cell in [0, 1], the query (1, 10) lies outside its mass bounds, and
    [interpolate(1, 10)] returns 1 from the cached interpolator, not
    the fallback 0.001. *)
Lemma interpolate_keeps_old_bounds :
  Example.used_once = Ok Example.used /\
  Example.regridded
  = Completeness.fill_nan
      (Completeness.completeness_grid (L := Example.linear_libm) Example.used
         (1 # 100, 40) (100, 7000) 20 (1 # 2) (1 # 2)) 1 /\
  Completeness.grid Example.regridded = Some Example.regridded_grid /\
  Spec.regular (Completeness.xgrid Example.regridded_grid)
    (Completeness.ygrid Example.regridded_grid)
    (Completeness.z Example.regridded_grid) /\
  Spec.cells (fun q => 0 <= q <= 1) (Completeness.z Example.regridded_grid) /\
  ~ Spec.inside Example.regridded_grid 1 10 /\
  exists c v,
    Completeness.interpolate Example.regridded [1] [10] false = Ok (c, [Num v]) /\
    v == 1 /\ ~ v == 1 # 1000.
Proof.
  split; [vm_compute; reflexivity|].
  split; [vm_compute; reflexivity|].
  split; [reflexivity|].
  split; [constructor; try (vm_compute; reflexivity); simpl; lia|].
  split; [apply cells_unitb_spec; vm_compute; reflexivity|].
  split.
  - intros [_ [Hlow _]]. apply Qle_bool_iff in Hlow.
    vm_compute in Hlow. discriminate.
  - eexists _, _. split; [vm_compute; reflexivity|].
    split; [vm_compute; reflexivity|]. vm_compute. discriminate.
Qed.


(** * Further properties of the code *)

(** ** Loops that cannot fail *)

(** A loop whose body succeeds from every state that satisfies the
    invariant of its position runs to the end. *)
Lemma for_each_steps {S A : Type} (I : nat -> S -> Prop) (body : S -> A -> result S)
    (xs : list A) (st : S) :
  I 0%nat st ->
  (forall k s x, nth_error xs k = Some x -> I k s ->
     exists s', body s x = Ok s' /\ I (Datatypes.S k) s') ->
  exists s', for_each xs body st = Ok s' /\ I (length xs) s'.
Proof.
  revert I st. induction xs as [|x xs IH]; intros I st H0 Hstep.
  - exists st. split; [reflexivity|exact H0].
  - destruct (Hstep 0%nat st x eq_refl H0) as (s1 & Hb & H1).
    destruct (IH (fun k => I (Datatypes.S k)) s1 H1) as (s' & Hrun & Hend).
    + intros k s y Hy Hk. now apply (Hstep (Datatypes.S k)).
    + exists s'. split; [|exact Hend]. cbn [for_each]. rewrite Hb. exact Hrun.
Qed.

(** ** The completeness grid after the NaN fill *)

Section FilledGrid.
Context {L : Libm}.

Lemma cell_unit (recs : list Completeness.Trial) (xlogwin ylogwin x y : Q) :
  Completeness.cell recs xlogwin ylogwin x y = NaN \/
  exists q, Completeness.cell recs xlogwin ylogwin x y = Num q /\ 0 <= q <= 1.
Proof.
  unfold Completeness.cell.
  destruct (Completeness.uncovered recs x y xlogwin); [now left|].
  destruct (Nat.ltb_spec 10 (length (Completeness.boxall recs x y xlogwin ylogwin)))
    as [Hgt|Hle]; [|now left].
  right. eexists. split; [reflexivity|].
  rewrite boxgood_length. apply ratio_unit.
  - apply box_recovered_le.
  - unfold Spec.box_total. fold (Completeness.boxall recs x y xlogwin ylogwin). lia.
Qed.

Lemma filled_cells_unit (recs : list Completeness.Trial) (xlogwin ylogwin v : Q)
    (xg yg : list Q) :
  0 <= v <= 1 ->
  Spec.cells (fun q => 0 <= q <= 1)
    (map (map (fun c => if isnan c then Num v else c))
       (map (fun y => map (fun x => Completeness.cell recs xlogwin ylogwin x y) xg) yg)).
Proof.
  intros Hv. unfold Spec.cells.
  apply Forall_map, Forall_map, Forall_forall. intros y _.
  apply Forall_map, Forall_map, Forall_forall. intros x _.
  destruct (cell_unit recs xlogwin ylogwin x y) as [->|(q & -> & Hq)]; simpl; eauto.
Qed.

End FilledGrid.

Lemma within_dec (axis : list Q) (v : Q) :
  Spec.within axis v \/ ~ Spec.within axis v.
Proof.
  unfold Spec.within.
  destruct (Qlt_le_dec v (nth 0 axis 0)) as [H1|H1].
  - right. intros [H _]. qlra.
  - destruct (Qlt_le_dec (nth (length axis - 1) axis 0) v) as [H2|H2].
    + right. intros [_ H]. qlra.
    + now left.
Qed.

(** An interpolated value on a grid with cells in [0, 1] lies in
    [0, 1], inside the bounds or not. *)
Lemma point_value_unit (g : Completeness.Grid) (p : Q * Q) (c : fl) :
  Spec.point_value (fun q => 0 <= q <= 1) g p c ->
  exists v, c = Num v /\ 0 <= v <= 1.
Proof.
  intros (v & -> & Hout & Hin). exists v. split; [reflexivity|].
  destruct (within_dec (Completeness.xgrid g) (fst p)) as [Hx|Hx].
  - destruct (within_dec (Completeness.ygrid g) (snd p)) as [Hy|Hy].
    + destruct (Hin (conj Hx Hy))
        as (v00 & v01 & v10 & v11 & tx & ty & P00 & P01 & P10 & P11 & Tx & Ty & ->).
      now apply bilinear_unit.
    + rewrite Hout; [split; discriminate|]. intros [_ H]. contradiction.
  - rewrite Hout; [split; discriminate|]. intros [H _]. contradiction.
Qed.

(** ** Hierarchy.__init__: the integrated completeness of a bin *)

Section QintBounds.
Context {L : Libm}.
Variable g : Completeness.Grid.
Hypothesis g_regular :
  Spec.regular (Completeness.xgrid g) (Completeness.ygrid g) (Completeness.z g).
Hypothesis g_unit : Spec.cells (fun q => 0 <= q <= 1) (Completeness.z g).

(** One interpolation at a single point. *)
Lemma interpolate_one_unit (c : Completeness.t) (x y : Q) :
  Spec.on_grid g c ->
  exists v,
    Completeness.interpolate c [x] [y] false = Ok (Spec.cached c g, [Num v]) /\
    0 <= v <= 1.
Proof.
  intros [Hg Huse].
  destruct (interpolate_on_grid (fun q => 0 <= q <= 1) c g [x] [y] false
              Hg g_regular g_unit Huse eq_refl) as (vs & Hcall & Hvs).
  cbn [combine] in Hvs.
  inversion Hvs as [|p c0 l l' Hp Hnil]; subst. inversion Hnil; subst.
  apply point_value_unit in Hp as (v & -> & Hv).
  exists v. split; [exact Hcall|exact Hv].
Qed.

Variable areas : list (list Q).
Variable res : Z.
Hypothesis res_pos : (1 <= res)%Z.




End QintBounds.

Section Construction.
Context {L : Libm}.

(** X1.  Whatever the trials, the grid left by [completeness_grid]
    followed by the constructors' NaN fill with a value [v] in [0, 1]
    has [resolution] points on each axis and a [resolution] x
    [resolution] matrix whose cells are all numbers in [0, 1]: no NaN
    is left. *)
Theorem filled_grid_is_unit
    (self : Completeness.t) (xlim ylim : Q * Q) (resolution : nat)
    (xlogwin ylogwin v : Q) :
  0 <= v <= 1 ->
  exists g,
    Completeness.grid
      (Completeness.fill_nan
         (Completeness.completeness_grid self xlim ylim resolution xlogwin ylogwin) v)
    = Some g /\
    length (Completeness.xgrid g) = resolution /\
    length (Completeness.ygrid g) = resolution /\
    length (Completeness.z g) = resolution /\
    Forall (fun row => length row = resolution) (Completeness.z g) /\
    Spec.cells (fun q => 0 <= q <= 1) (Completeness.z g).
Proof.
  intros Hv. eexists. split; [reflexivity|].
  cbn [Completeness.xgrid Completeness.ygrid Completeness.z].
  unfold Completeness.logspace_lim.
  split; [now rewrite length_map, length_linspace|].
  split; [now rewrite length_map, length_linspace|].
  split; [now rewrite !length_map, length_linspace|].
  split.
  - apply Forall_map, Forall_map, Forall_forall. intros y _.
    now rewrite !length_map, length_linspace.
  - now apply filled_cells_unit.
Qed.


End Construction.

(** ** Completeness.interpolate: the cache *)

(** X3.  A call of [interpolate] that returns leaves the trials and the
    grid as they were and an interpolator cached; without [refresh] an
    interpolator that was already cached is kept; one value is
    returned per query point; and the same call again, without
    [refresh], returns the same values and changes nothing. *)
Theorem interpolate_leaves_cache
    (self self' : Completeness.t) (xs ys : list Q) (refresh : bool)
    (vs : list fl) :
  Completeness.interpolate self xs ys refresh = Ok (self', vs) ->
  Completeness.recoveries self' = Completeness.recoveries self /\
  Completeness.grid self' = Completeness.grid self /\
  Completeness.interpolator self' <> None /\
  (refresh = false -> Completeness.interpolator self <> None ->
   self' = self) /\
  length vs = length xs /\
  Completeness.interpolate self' xs ys false = Ok (self', vs).
Proof.
  intros H. unfold Completeness.interpolate in H.
  apply bind_inv in H as (s1 & Hbuild & H).
  destruct (Completeness.interpolator s1) as [itp|] eqn:Eitp; [|discriminate].
  apply bind_inv in H as (pts & Hpts & H).
  apply bind_inv in H as (vs1 & Hcall & H).
  injection H as <- <-.
  assert (Hs1 : Completeness.recoveries s1 = Completeness.recoveries self /\
                Completeness.grid s1 = Completeness.grid self /\
                (refresh = false -> Completeness.interpolator self <> None ->
                 s1 = self)).
  { destruct (Completeness.interpolator self) as [i0|] eqn:E0; destruct refresh.
    - destruct (Completeness.grid self) as [g|]; [|discriminate].
      apply bind_inv in Hbuild as (i1 & _ & Hbuild). injection Hbuild as <-.
      repeat split; discriminate.
    - injection Hbuild as <-. repeat split.
    - destruct (Completeness.grid self) as [g|]; [|discriminate].
      apply bind_inv in Hbuild as (i1 & _ & Hbuild). injection Hbuild as <-.
      repeat split; discriminate.
    - destruct (Completeness.grid self) as [g|]; [|discriminate].
      apply bind_inv in Hbuild as (i1 & _ & Hbuild). injection Hbuild as <-.
      repeat split. intros _ Hn. now contradiction Hn. }
  destruct Hs1 as (Hrec & Hgrid & Hkeep).
  split; [exact Hrec|]. split; [exact Hgrid|].
  split; [rewrite Eitp; discriminate|]. split; [exact Hkeep|]. split.
  - unfold stack_points in Hpts.
    destruct (Nat.eqb_spec (length xs) (length ys)) as [Hlen|]; [|discriminate].
    injection Hpts as <-. apply map_res_length in Hcall.
    rewrite Hcall, length_combine. lia.
  - unfold Completeness.interpolate. rewrite Eitp. cbn [bind]. rewrite Eitp.
    rewrite Hpts. cbn [bind]. rewrite Hcall. reflexivity.
Qed.

(** ** Hierarchy.max_like *)

Lemma fold_left_Qmax_ge (xs : list Q) (x : Q) :
  x <= fold_left Qmax xs x /\ forall y, In y xs -> y <= fold_left Qmax xs x.
Proof.
  revert x. induction xs as [|a xs IH]; intros x; simpl.
  - split; [apply Qle_refl|]. intros y [].
  - destruct (IH (Qmax x a)) as [H1 H2]. split.
    + eapply Qle_trans; [apply Q.le_max_l|exact H1].
    + intros y [<-|Hy]; [|now apply H2].
      eapply Qle_trans; [apply Q.le_max_r|exact H1].
Qed.

Lemma fold_left_Qmax_in (xs : list Q) (x : Q) :
  exists y, In y (x :: xs) /\ fold_left Qmax xs x == y.
Proof.
  revert x. induction xs as [|a xs IH]; intros x; simpl.
  - exists x. split; [now left|reflexivity].
  - destruct (IH (Qmax x a)) as (y & [<-|Hy] & E).
    + destruct (Q.max_spec x a) as [[_ Hm]|[_ Hm]].
      * exists a. split; [right; now left|]. now rewrite E.
      * exists x. split; [now left|]. now rewrite E.
    + exists y. split; [right; now right|exact E].
Qed.

Lemma floor_zero_nonzero (v : Q) : ~ Hierarchy.floor_zero v == 0.
Proof.
  unfold Hierarchy.floor_zero. destruct (Qeq_bool v 0) eqn:E.
  - discriminate.
  - now apply Qeq_bool_neq.
Qed.

Lemma in_enumerate {A : Type} (l : list A) (n : nat) (x : A) :
  In (n, x) (combine (seq 0 (length l)) l) -> (n < length l)%nat /\ In x l.
Proof.
  intros H. split.
  - apply in_combine_l, in_seq in H. lia.
  - now apply in_combine_r in H.
Qed.

Lemma Forall2_right {A B : Type} (P : B -> Prop) (l : list A) (l' : list B) :
  Forall2 (fun _ b => P b) l l' -> Forall P l'.
Proof.
  induction 1; constructor; assumption.
Qed.

Section MaxLikeProperties.
Context {L : Libm}.

(** X4.  [max_like()] on an instance whose [Qints] has one entry per
    bin: with no bin it fails on the maximum of an empty array;
    otherwise it returns, leaves [bins] and [Qints] alone, and stores
    one row [ml, uml] per bin with no entry equal to zero, and as
    [ceiling] the largest entry of all rows. *)
Theorem max_like_rows_and_ceiling (self : Hierarchy.t) :
  length (Hierarchy.Qints self) = length (Hierarchy.bins self) ->
  (Hierarchy.bins self = [] /\ Hierarchy.max_like self = Raise ValueError) \/
  exists self' rows c,
    Hierarchy.max_like self = Ok self' /\
    Hierarchy.bins self' = Hierarchy.bins self /\
    Hierarchy.Qints self' = Hierarchy.Qints self /\
    Hierarchy.mlvalues self' = Some rows /\
    Hierarchy.ceiling self' = Some c /\
    length rows = length (Hierarchy.bins self) /\
    (forall r, In r rows ->
       ~ fst r == 0 /\ ~ snd r == 0 /\ fst r <= c /\ snd r <= c) /\
    (exists r, In r rows /\ (c == fst r \/ c == snd r)).
Proof.
  intros Hlen. unfold Hierarchy.max_like.
  destruct (map_res_Forall2
              (fun nb => Hierarchy.ml_row self (fst nb) (snd nb))
              (fun _ r => ~ fst r == 0 /\ ~ snd r == 0)
              (combine (seq 0 (length (Hierarchy.bins self))) (Hierarchy.bins self)))
    as (rows & -> & Hrows).
  { intros [n b] Hnb. apply in_enumerate in Hnb as [Hn _]. cbn [fst snd].
    unfold Hierarchy.ml_row.
    destruct (getitem_nonneg (Hierarchy.Qints self) (Z.of_nat n)) as (q & -> & _); [lia|].
    cbn [bind]. eexists. split; [reflexivity|].
    cbn [fst snd]. split; apply floor_zero_nonzero. }
  cbn [bind].
  assert (Hrl : length rows = length (Hierarchy.bins self)).
  { apply Forall2_length in Hrows.
    rewrite length_combine, length_seq, Nat.min_id in Hrows. lia. }
  destruct rows as [|r rows].
  - left. split; [|reflexivity].
    destruct (Hierarchy.bins self); [reflexivity|discriminate].
  - right. cbn [flat_map app].
    set (vs := snd r :: flat_map (fun r0 => [fst r0; snd r0]) rows).
    eexists _, (r :: rows), (fold_left Qmax vs (fst r)).
    split; [reflexivity|]. cbn [Hierarchy.bins Hierarchy.Qints Hierarchy.mlvalues
                               Hierarchy.ceiling].
    do 4 (split; [reflexivity|]). split; [exact Hrl|].
    destruct (fold_left_Qmax_ge vs (fst r)) as [Hge0 Hge].
    assert (Hall : forall r0, In r0 (r :: rows) ->
                     In (fst r0) (fst r :: vs) /\ In (snd r0) (fst r :: vs)).
    { intros r0 [<-|Hr0].
      - split; [now left|right; now left].
      - split; right; right; apply in_flat_map; exists r0; simpl; auto. }
    split.
    + intros r0 Hr0.
      apply Forall2_right in Hrows. rewrite Forall_forall in Hrows.
      destruct (Hrows r0 Hr0) as [Hf Hs]. destruct (Hall r0 Hr0) as [Hif His].
      split; [exact Hf|]. split; [exact Hs|]. split.
      * destruct Hif as [<-|Hif]; [exact Hge0|now apply Hge].
      * destruct His as [<-|His]; [exact Hge0|now apply Hge].
    + destruct (fold_left_Qmax_in vs (fst r)) as (y & Hy & E).
      destruct Hy as [<-|[<-|Hy]].
      * exists r. split; [now left|now left].
      * exists r. split; [now left|now right].
      * apply in_flat_map in Hy as (r0 & Hr0 & Hy). exists r0. split; [now right|].
        destruct Hy as [<-|[<-|[]]]; [now left|now right].
Qed.

(** X5.  When no planet's median falls in any bin (as with an empty
    population), [max_like()] seeds every bin with the row [0.01, 1],
    whatever [Qints] holds, and the ceiling is 1. *)
Theorem max_like_without_detections (self : Hierarchy.t) :
  length (Hierarchy.Qints self) = length (Hierarchy.bins self) ->
  Hierarchy.bins self <> [] ->
  (forall b, In b (Hierarchy.bins self) ->
     filter (Hierarchy.in_bin (np_exp (Hierarchy.a_lo b)) (np_exp (Hierarchy.a_hi b))
               (np_exp (Hierarchy.m_lo b)) (np_exp (Hierarchy.m_hi b)))
       (Hierarchy.pop_med self) = []) ->
  exists self' c,
    Hierarchy.max_like self = Ok self' /\
    Hierarchy.mlvalues self'
    = Some (repeat (1 # 100, 1) (length (Hierarchy.bins self))) /\
    Hierarchy.ceiling self' = Some c /\ c == 1.
Proof.
  intros Hlen Hne Hnone. unfold Hierarchy.max_like.
  rewrite (map_res_pointwise _ (fun _ => (1 # 100, 1))).
  - rewrite map_const, length_combine, length_seq, Nat.min_id. cbn [bind].
    destruct (Hierarchy.bins self) as [|b bs]; [contradiction|].
    cbn [length repeat flat_map app fst snd].
    set (vs := 1 :: flat_map (fun r : Q * Q => [fst r; snd r]) (repeat (1 # 100, 1) (length bs))).
    eexists _, _. split; [reflexivity|]. cbn [Hierarchy.mlvalues Hierarchy.ceiling].
    split; [reflexivity|]. split; [reflexivity|].
    destruct (fold_left_Qmax_ge vs (1 # 100)) as [_ Hge].
    destruct (fold_left_Qmax_in vs (1 # 100)) as (y & Hy & E).
    apply Qle_antisym.
    + rewrite E. destruct Hy as [<-|[<-|Hy]]; [discriminate|discriminate|].
      apply in_flat_map in Hy as (r & Hr & Hy). apply repeat_spec in Hr. subst r.
      destruct Hy as [<-|[<-|[]]]; discriminate.
    + apply Hge. now left.
  - intros [n b] Hnb. apply in_enumerate in Hnb as [Hn Hb]. cbn [fst snd].
    unfold Hierarchy.ml_row. rewrite (Hnone b Hb). cbn [length].
    destruct (getitem_nonneg (Hierarchy.Qints self) (Z.of_nat n)) as (q & -> & _); [lia|].
    cbn [bind]. f_equal.
    destruct q as [x|]; [|reflexivity].
    destruct (Qeq_bool x 0); [reflexivity|].
    assert (E : Qeq_bool (inject_Z (Z.of_nat 0) / x) 0 = true).
    { apply Qeq_bool_iff. unfold Qdiv. change (inject_Z (Z.of_nat 0)) with 0. ring. }
    unfold Hierarchy.floor_zero at 1. rewrite E. reflexivity.
Qed.

End MaxLikeProperties.

(** ** Hierarchy: what needs [max_like()] first *)

Section HierarchyUse.
Context {L : Libm}.

(** X6.  On a freshly constructed instance, before [max_like()], the
    attributes [ceiling] and [mlvalues] do not exist: [lnlike] raises
    AttributeError, unless the fraction test has already rejected
    theta; and [sample], on an instance with at least one bin, raises
    AttributeError when it forms the first starting position.  With
    no bin there is no walker: [mlvalues] is not read and the array of
    starting positions is empty. *)
Theorem Hierarchy_needs_max_like
    (pop : Hierarchy.Population) (c : Completeness.t) (res : Z)
    (bins : list Hierarchy.Bin) (nstars : option Z) (mass_lim : Q * Q)
    (fraction : bool) (h : Hierarchy.t) (theta : list Q) :
  Hierarchy.init pop c res bins nstars mass_lim fraction = Ok h ->
  (exists s,
     Hierarchy.area_sum h theta = Ok s /\
     Hierarchy.lnlike h theta
     = if fraction && Hierarchy.ratio_exceeds_one s (Hierarchy.nstars h)
       then Ok (h, Hierarchy.NegInf)
       else Raise AttributeError) /\
  (bins <> [] ->
   forall noise, Hierarchy.initial_positions h noise = Raise AttributeError) /\
  (bins = [] ->
   forall noise, Hierarchy.initial_positions h noise = Ok []).
Proof.
  intros Hinit.
  destruct (init_edges _ _ _ _ _ _ _ _ Hinit) as (_ & _ & _ & _ & Hareas & _).
  unfold Hierarchy.init in Hinit.
  apply bind_inv in Hinit as ([c3 qs] & _ & Hinit). injection Hinit as <-.
  split; [|split].
  - destruct (area_sum_is_product_of_sums _ _ theta Hareas) as (s & Hs & _).
    exists s. split; [exact Hs|].
    unfold Hierarchy.lnlike, Hierarchy.hard_bound. rewrite Hs.
    cbn [Hierarchy.fraction Hierarchy.ceiling Hierarchy.nstars bind].
    destruct fraction; cbn [bind andb]; [|reflexivity].
    destruct (Hierarchy.ratio_exceeds_one s _); reflexivity.
  - intros Hne noise. clear Hareas.
    destruct bins as [|b bs]; [contradiction|]. reflexivity.
  - intros Hnil noise. clear Hareas. subst bins. reflexivity.
Qed.

(** X7.  After the constructor and [max_like()], [lnlike] returns
    minus infinity, without looking at the planets, as soon as one
    component of theta is <= 0 or above 10 times the ceiling. *)
Theorem lnlike_rejects_component_out_of_range
    (pop : Hierarchy.Population) (c : Completeness.t) (res : Z)
    (bins : list Hierarchy.Bin) (nstars : option Z) (mass_lim : Q * Q)
    (fraction : bool) (h h' : Hierarchy.t) (theta : list Q) (top x : Q) :
  Hierarchy.init pop c res bins nstars mass_lim fraction = Ok h ->
  Hierarchy.max_like h = Ok h' ->
  Hierarchy.ceiling h' = Some top ->
  In x theta -> x <= 0 \/ 10 * top < x ->
  Hierarchy.lnlike h' theta = Ok (h', Hierarchy.NegInf).
Proof.
  intros Hinit Hml Hceil Hin Hx.
  destruct (init_edges _ _ _ _ _ _ _ _ Hinit) as (_ & _ & _ & _ & Hareas & _).
  apply (lnlike_rejects_theta_out_of_range h' (map Spec.bin_area bins) theta top x);
    [|exact Hceil|exact Hin|exact Hx].
  unfold Hierarchy.max_like in Hml.
  apply bind_inv in Hml as (rows & _ & Hml).
  destruct (flat_map _ rows); [discriminate|]. injection Hml as <-. exact Hareas.
Qed.

(** X8.  In fraction mode the test at the head of [lnlike] compares
    with the star count the sum of theta times the sum of the bin
    areas: after the constructor and [max_like()], [lnlike] returns
    minus infinity whenever that product exceeds the (positive) number
    of stars. *)
Theorem lnlike_fraction_test_is_product_of_sums
    (pop : Hierarchy.Population) (c : Completeness.t) (res : Z)
    (bins : list Hierarchy.Bin) (nstars : option Z) (mass_lim : Q * Q)
    (h h' : Hierarchy.t) (theta : list Q) :
  Hierarchy.init pop c res bins nstars mass_lim true = Ok h ->
  Hierarchy.max_like h = Ok h' ->
  (0 < Hierarchy.nstars h')%Z ->
  inject_Z (Hierarchy.nstars h') < Qsum theta * Qsum (map Spec.bin_area bins) ->
  Hierarchy.lnlike h' theta = Ok (h', Hierarchy.NegInf).
Proof.
  intros Hinit Hml Hn Hover.
  destruct (init_edges _ _ _ _ _ _ _ _ Hinit) as (_ & _ & _ & _ & Hareas & _).
  assert (Hfrac : Hierarchy.fraction h = true).
  { unfold Hierarchy.init in Hinit.
    apply bind_inv in Hinit as ([c3 qs] & _ & Hinit). now injection Hinit as <-. }
  unfold Hierarchy.max_like in Hml.
  apply bind_inv in Hml as (rows & _ & Hml).
  destruct (flat_map _ rows); [discriminate|]. injection Hml as <-.
  cbn [Hierarchy.nstars] in *.
  destruct (area_sum_is_product_of_sums h (map Spec.bin_area bins) theta Hareas)
    as (s & Hs & Es).
  unfold Hierarchy.lnlike, Hierarchy.hard_bound.
  cbn [Hierarchy.fraction Hierarchy.nstars Hierarchy.ceiling].
  rewrite Hfrac. unfold Hierarchy.area_sum in *.
  cbn [Hierarchy.bin_areas]. rewrite Hs. cbn [bind].
  assert (Hr : Hierarchy.ratio_exceeds_one s (Hierarchy.nstars h) = true).
  { unfold Hierarchy.ratio_exceeds_one.
    destruct (Z.eqb_spec (Hierarchy.nstars h) 0) as [E0|_]; [lia|].
    apply Qltb_lt. apply Qlt_shift_div_l.
    - change 0 with (inject_Z 0). rewrite <- Zlt_Qlt. exact Hn.
    - rewrite Qmult_1_l, Es. exact Hover. }
  rewrite Hr. reflexivity.
Qed.

End HierarchyUse.

(** ** Hierarchy.sample: the starting positions *)

Lemma broadcast_add_same_length (u v : list Q) :
  length u = length v ->
  exists row,
    Hierarchy.broadcast_add u v = Ok row /\
    length row = length u /\
    forall k a b, nth_error u k = Some a -> nth_error v k = Some b ->
      nth_error row k = Some (a + b).
Proof.
  intros Hlen.
  assert (Hgen : forall u v : list Q, length u = length v ->
            length (map (fun p => fst p + snd p) (combine u v)) = length u /\
            forall k a b, nth_error u k = Some a -> nth_error v k = Some b ->
              nth_error (map (fun p => fst p + snd p) (combine u v)) k = Some (a + b)).
  { clear. intros u v Hlen. split.
    - rewrite length_map, length_combine. lia.
    - intros k a b Ha Hb. rewrite nth_error_map.
      now rewrite (nth_error_combine _ _ _ _ _ Ha Hb). }
  destruct u as [|a [|a' u]]; destruct v as [|b [|b' v]]; try discriminate.
  - exists []. split; [reflexivity|]. split; [reflexivity|].
    intros [|k] ? ? H; discriminate.
  - exists [a + b]. split; [reflexivity|]. split; [reflexivity|].
    intros [|[|k]] ? ? H1 H2; try discriminate.
    now injection H1 as <-; injection H2 as <-.
  - eexists. split.
    + unfold Hierarchy.broadcast_add. rewrite Hlen, Nat.eqb_refl. reflexivity.
    + now apply Hgen.
Qed.

(** X9.  After [max_like()] has stored one row per bin, [sample] starts
    [4*nbins] walkers of [nbins] coordinates each, the coordinate of
    bin [d] at [|ml_d + 0.001*noise| + 0.0001]: whatever the noise,
    every starting coordinate is at least 0.0001, hence positive. *)
Theorem Hierarchy_walkers_start_positive
    (self : Hierarchy.t) (rows : list (Q * Q)) (noise : nat -> nat -> Q) :
  Hierarchy.mlvalues self = Some rows ->
  length rows = Hierarchy.nbins self ->
  exists pos,
    Hierarchy.initial_positions self noise = Ok pos /\
    length pos = (4 * Hierarchy.nbins self)%nat /\
    forall i w, nth_error pos i = Some w ->
      length w = Hierarchy.nbins self /\
      forall d r, nth_error rows d = Some r ->
        exists v, nth_error w d = Some v /\
                  v = Qabs (fst r + (1 # 1000) * noise i d) + (1 # 10000) /\
                  1 # 10000 <= v.
Proof.
  intros Hml Hlen. unfold Hierarchy.initial_positions. rewrite Hml.
  set (n := Hierarchy.nbins self) in *.
  destruct (map_res_Forall2
              (fun i =>
                 row <- Hierarchy.broadcast_add (map fst rows)
                          (map (fun d => (1 # 1000) * noise i d) (seq 0 n)) ;;
                 Ok (map (fun v => Qabs v + (1 # 10000)) row))
              (fun i w =>
                 length w = n /\
                 forall d r, nth_error rows d = Some r ->
                   exists v, nth_error w d = Some v /\
                             v = Qabs (fst r + (1 # 1000) * noise i d) + (1 # 10000) /\
                             1 # 10000 <= v)
              (seq 0 (4 * n))) as (pos & Hpos & Hall).
  { intros i _.
    destruct (broadcast_add_same_length (map fst rows)
                (map (fun d => (1 # 1000) * noise i d) (seq 0 n)))
      as (row & -> & Hrl & Hrow).
    { now rewrite !length_map, length_seq. }
    cbn [bind]. eexists. split; [reflexivity|]. split.
    - now rewrite length_map, Hrl, length_map.
    - intros d r Hr.
      assert (Hd : (d < n)%nat) by (rewrite <- Hlen; apply nth_error_Some; congruence).
      eexists. split; [|split; [reflexivity|]].
      + rewrite nth_error_map.
        rewrite (Hrow d (fst r) ((1 # 1000) * noise i d)); [reflexivity| |].
        * now rewrite nth_error_map, Hr.
        * rewrite nth_error_map, nth_error_seq.
          destruct (Nat.ltb_spec d n); [reflexivity|lia].
      + pose proof (Qabs_nonneg (fst r + (1 # 1000) * noise i d)). qlra. }
  exists pos. split; [exact Hpos|].
  assert (Hpl : length pos = (4 * n)%nat).
  { apply Forall2_length in Hall. now rewrite length_seq in Hall. }
  split; [exact Hpl|].
  intros i w Hw.
  assert (Hi : (i < 4 * n)%nat) by (rewrite <- Hpl; apply nth_error_Some; congruence).
  assert (Hs : nth_error (seq 0 (4 * n)) i = Some i).
  { rewrite nth_error_seq. destruct (Nat.ltb_spec i (4 * n)); [reflexivity|lia]. }
  destruct (Forall2_nth_error_l _ _ _ _ _ Hall Hs) as (w' & Hw' & HR).
  rewrite Hw in Hw'. injection Hw' as <-. exact HR.
Qed.

(** ** Hierarchy.occurrence: the bins are half-open *)





(** ** PowerLaw: occurrence, prior and starting positions *)

Section PowerLawUse.
Context {L : Libm}.

(** X11.  [PowerLaw.occurrence] reads the first two components of
    theta and fails with IndexError when there are fewer; otherwise it
    returns, for every mass, [theta[0] * mass**theta[1]] inside the
    mass box [edges[1][0] <= mass < edges[1][1]] and the filler 0.01
    outside of it. *)
Theorem PowerLaw_occurrence_is_boxed_power_law
    (self : PowerLaw.t) (mass theta : list Q) :
  PowerLaw.occurrence self mass theta
  = match theta with
    | c :: e :: _ => Ok (map (Spec.power_law_at self c e) mass)
    | _ => Raise IndexError
    end.
Proof.
  destruct theta as [|c [|e rest]]; [reflexivity|reflexivity|].
  assert (H0 : getitem (c :: e :: rest) 0%Z = Ok c)
    by (apply (getitem_nth_error _ 0%nat); reflexivity).
  assert (H1 : getitem (c :: e :: rest) 1%Z = Ok e)
    by (apply (getitem_nth_error _ 1%nat); reflexivity).
  unfold PowerLaw.occurrence. rewrite H0, H1. cbn [bind].
  apply map_res_pointwise. intros m _.
  unfold PowerLaw.occurrence1. rewrite H0, H1. cbn [bind].
  unfold Spec.power_law_at, Qltb.
  destruct (Qle_bool (fst (snd (PowerLaw.edges self))) m),
           (Qle_bool (snd (snd (PowerLaw.edges self))) m); reflexivity.
Qed.

(** X12.  [PowerLaw.lnpost] is [lnlike] inside the prior box
    [0 < C <= 10], [-5 < M <= 5] and minus infinity outside of it. *)
Theorem PowerLaw_lnpost_is_lnlike_in_prior_box
    (self s : PowerLaw.t) (c e : Q) (rest : list Q) (ll : Hierarchy.lnval) :
  PowerLaw.lnlike self (c :: e :: rest) = Ok (s, ll) ->
  exists lp,
    PowerLaw.lnpost self (c :: e :: rest) = Ok (s, lp) /\
    (Spec.in_prior_box c e -> Spec.lnval_eq lp ll) /\
    (~ Spec.in_prior_box c e -> lp = Hierarchy.NegInf).
Proof.
  intros Hll. unfold PowerLaw.lnpost. rewrite Hll. cbn [bind].
  assert (H0 : getitem (c :: e :: rest) 0%Z = Ok c)
    by (apply (getitem_nth_error _ 0%nat); reflexivity).
  assert (H1 : getitem (c :: e :: rest) 1%Z = Ok e)
    by (apply (getitem_nth_error _ 1%nat); reflexivity).
  unfold PowerLaw.lnprior. rewrite H0. cbn [bind].
  unfold Spec.in_prior_box.
  destruct (Qle_bool c 0) eqn:C0.
  { apply Qle_bool_iff in C0. cbn [orb bind]. eexists. split; [reflexivity|].
    split; [intros (? & _); qlra|]. now destruct ll. }
  destruct (Qltb 10 c) eqn:C10.
  { apply Qltb_lt in C10. cbn [orb bind]. eexists. split; [reflexivity|].
    split; [intros (_ & ? & _); qlra|]. now destruct ll. }
  cbn [orb]. rewrite H1. cbn [bind].
  destruct (Qle_bool e (-5)) eqn:E5.
  { apply Qle_bool_iff in E5. cbn [orb bind]. eexists. split; [reflexivity|].
    split; [intros (_ & _ & ? & _); qlra|]. now destruct ll. }
  destruct (Qltb 5 e) eqn:E5'.
  { apply Qltb_lt in E5'. cbn [orb bind]. eexists. split; [reflexivity|].
    split; [intros (_ & _ & _ & ?); qlra|]. now destruct ll. }
  cbn [orb bind]. eexists. split; [reflexivity|]. split.
  - intros _. destruct ll as [|x]; [exact I|]. cbn. ring.
  - intros Hn. exfalso. apply Hn.
    apply Qltb_ge in C10. apply Qltb_ge in E5'.
    assert (~ c <= 0) by (intros Hc; apply Qle_bool_iff in Hc; congruence).
    assert (~ e <= -5) by (intros He; apply Qle_bool_iff in He; congruence).
    repeat split; try assumption; apply Qnot_le_lt; assumption.
Qed.

End PowerLawUse.

(** X13.  [PowerLaw.sample] starts 30 walkers at
    [|mlvalues + 0.01*noise|] with [mlvalues = [5, -1]] from
    [max_like()]: the absolute value turns the seed -1 of the exponent
    into a start at [1 - 0.01*noise], a positive exponent, for every
    noise below 100. *)
Theorem PowerLaw_walkers_start_at_positive_exponent
    (noise : nat -> nat -> Q) (i : nat) :
  (i < 30)%nat -> noise i 1%nat < 100 ->
  length (PowerLaw.initial_positions PowerLaw.max_like_values noise) = 30%nat /\
  exists c e,
    nth_error (PowerLaw.initial_positions PowerLaw.max_like_values noise) i
    = Some [c; e] /\
    c = Qabs (5 + (1 # 100) * noise i 0%nat) /\
    e == 1 - (1 # 100) * noise i 1%nat /\
    0 < e.
Proof.
  intros Hi Hn. unfold PowerLaw.initial_positions. split.
  - now rewrite length_map, length_seq.
  - eexists _, _. split.
    + rewrite nth_error_map, nth_error_seq.
      destruct (Nat.ltb_spec i 30); [|lia]. reflexivity.
    + split; [reflexivity|].
      assert (E : Qabs (-1 + (1 # 100) * noise i 1%nat)
                  == 1 - (1 # 100) * noise i 1%nat).
      { rewrite Qabs_neg by qlra. ring. }
      cbn [fst snd]. split; [exact E|]. rewrite E. qlra.
Qed.

(** ** PowerLaw.__init__: the accumulation loop *)

Lemma for_each_app {S A : Type} (xs ys : list A) (body : S -> A -> result S) (st : S) :
  for_each (xs ++ ys) body st = (st' <- for_each xs body st ;; for_each ys body st').
Proof.
  revert st. induction xs as [|x xs IH]; intros st; cbn [app for_each bind].
  - reflexivity.
  - destruct (body st x) as [s1|e]; cbn [bind]; [apply IH|reflexivity].
Qed.

Lemma nth_error_arange_inv (n : Z) (k : nat) (x : Z) :
  nth_error (arange n) k = Some x -> x = Z.of_nat k /\ (k < Z.to_nat n)%nat.
Proof.
  intros H.
  assert (Hk : (k < Z.to_nat n)%nat).
  { rewrite <- length_arange. apply nth_error_Some. congruence. }
  rewrite nth_error_arange in H by exact Hk. injection H as <-. auto.
Qed.

Lemma arange_split (m n : Z) :
  (0 <= m < n)%Z ->
  arange n = arange m ++ m :: map Z.of_nat (seq (S (Z.to_nat m)) (Z.to_nat n - S (Z.to_nat m))).
Proof.
  intros H. unfold arange.
  replace (Z.to_nat n) with (Z.to_nat m + S (Z.to_nat n - S (Z.to_nat m)))%nat at 1 by lia.
  rewrite seq_app, map_app. cbn [seq map Nat.add]. f_equal. f_equal. lia.
Qed.

Lemma getitem_past_end {A : Type} (a : list A) (k : Z) :
  (Z.of_nat (length a) <= k)%Z -> getitem a k = Raise IndexError.
Proof.
  intros H. unfold getitem.
  destruct (Z.ltb_spec k 0); [lia|].
  destruct (Z.ltb_spec k (Z.of_nat (length a))); [lia|].
  now rewrite andb_false_r.
Qed.

Section PowerLawLoops.
Context {L : Libm}.
Variable g : Completeness.Grid.
Hypothesis g_regular :
  Spec.regular (Completeness.xgrid g) (Completeness.ygrid g) (Completeness.z g).
Hypothesis g_unit : Spec.cells (fun q => 0 <= q <= 1) (Completeness.z g).
Variable wa : Q.
Variable wm : Q.
Variable ca : list Q.
Variable cm : list Q.
Variable rm : Z.
Hypothesis cm_length : length cm = Z.to_nat rm.

Lemma powerlaw_step_unit (i j : Z) (c : Completeness.t) (qs : list fl) (q : Q) :
  Spec.on_grid g c ->
  (0 <= i < Z.of_nat (length ca))%Z -> (0 <= j < rm)%Z ->
  nth_error qs (Z.to_nat i) = Some (Num q) ->
  exists v,
    PowerLaw.qint_step wa wm ca cm i j (c, qs)
    = Ok (Spec.cached c g, list_set qs (Z.to_nat i) (Num (q + wa * wm * v))) /\
    0 <= v <= 1.
Proof.
  intros Hc Hi Hj Hq.
  assert (Hn : (Z.to_nat i < length qs)%nat) by (apply nth_error_Some; congruence).
  assert (Hold : getitem qs i = Ok (Num q)).
  { rewrite <- (Z2Nat.id i) by lia. now apply getitem_nth_error. }
  unfold PowerLaw.qint_step. cbn [fst snd].
  rewrite Hold. cbn [bind].
  destruct (getitem_nonneg ca i Hi) as (a & -> & _). cbn [bind].
  destruct (getitem_nonneg cm j) as (m & -> & _); [lia|]. cbn [bind].
  destruct (interpolate_one_unit g g_regular g_unit c (np_exp a) (np_exp m) Hc)
    as (v & -> & Hv).
  exists v. split; [|exact Hv]. cbn [bind].
  change (getitem [Num v] 0%Z) with (Ok (Num v)). cbn [bind fl_mul fl_add].
  rewrite setitem_nonneg by lia. reflexivity.
Qed.

(** The loop over [j] for one axis index [i]: the entry grows by at
    most [rm] weights. *)
Lemma powerlaw_row_unit (i : Z) (c : Completeness.t) (qs : list fl) (q : Q) :
  Spec.on_grid g c ->
  (0 <= i < Z.of_nat (length ca))%Z ->
  nth_error qs (Z.to_nat i) = Some (Num q) ->
  exists c' q',
    for_each (arange rm) (fun st j => PowerLaw.qint_step wa wm ca cm i j st) (c, qs)
    = Ok (c', list_set qs (Z.to_nat i) (Num q')) /\
    Spec.on_grid g c' /\
    (0 <= wa * wm ->
     q <= q' <= q + inject_Z (Z.of_nat (Z.to_nat rm)) * (wa * wm)).
Proof.
  intros Hc Hi Hq.
  assert (Hn : (Z.to_nat i < length qs)%nat) by (apply nth_error_Some; congruence).
  set (w := wa * wm) in *.
  destruct (for_each_steps
              (fun (t : nat) (st : Completeness.t * list fl) =>
                 Spec.on_grid g (fst st) /\
                 exists q', snd st = list_set qs (Z.to_nat i) (Num q') /\
                            (0 <= w -> q <= q' <= q + inject_Z (Z.of_nat t) * w))
              (fun st j => PowerLaw.qint_step wa wm ca cm i j st)
              (arange rm) (c, qs)) as ([c' qs'] & Hrun & Hc' & q' & Hqs' & Hq').
  - split; [exact Hc|]. exists q. split.
    + cbn [snd]. symmetry. now apply list_set_same.
    + intros _. change (inject_Z (Z.of_nat 0)) with 0. split; qlra.
  - intros k [c1 qs1] j Hj (Hc1 & q1 & Hqs1 & Hq1). cbn [fst snd] in *. subst qs1.
    apply nth_error_arange_inv in Hj as [-> Hk].
    destruct (powerlaw_step_unit i (Z.of_nat k) c1 (list_set qs (Z.to_nat i) (Num q1)) q1 Hc1 Hi)
      as (v & Hstep & Hv); [lia|now apply nth_error_list_set_eq|].
    eexists. split; [exact Hstep|]. split; [now apply on_grid_cached|].
    cbn [fst snd]. eexists. split; [apply list_set_twice|].
    fold w. intros Hw. specialize (Hq1 Hw).
    rewrite Nat2Z.inj_succ. unfold Z.succ.
    rewrite inject_Z_plus. change (inject_Z 1) with 1.
    set (t := inject_Z (Z.of_nat k)) in *.
    assert (0 <= w * v) by (apply Qmult_le_0_compat; [exact Hw|apply Hv]).
    assert (w * v <= w) by (destruct Hv; qnra).
    split; [qlra|].
    setoid_replace ((t + 1) * w) with (t * w + w) by ring. qlra.
  - cbn [fst snd] in *. subst qs'. exists c', q'.
    split; [exact Hrun|]. split; [exact Hc'|].
    now rewrite length_arange in Hq'.
Qed.

(** The first [n] rounds of the outer loop, for [n] within both
    arrays. *)
Lemma powerlaw_loops_unit (n : Z) (c : Completeness.t) :
  Spec.on_grid g c ->
  (0 <= n <= Z.of_nat (length ca))%Z -> (n <= rm)%Z ->
  exists c' qs',
    for_each (arange n)
      (fun st i =>
         for_each (arange rm) (fun st j => PowerLaw.qint_step wa wm ca cm i j st) st)
      (c, repeat (Num 0) (Z.to_nat rm))
    = Ok (c', qs') /\
    Spec.on_grid g c' /\
    length qs' = Z.to_nat rm /\
    forall i, (i < Z.to_nat n)%nat ->
      exists q, nth_error qs' i = Some (Num q) /\
                (0 <= wa * wm ->
                 0 <= q <= inject_Z (Z.of_nat (Z.to_nat rm)) * (wa * wm)).
Proof.
  intros Hc Hn Hnm.
  destruct (for_each_steps
              (fun (k : nat) (st : Completeness.t * list fl) =>
                 Spec.on_grid g (fst st) /\
                 length (snd st) = Z.to_nat rm /\
                 (forall i, (i < k)%nat ->
                    exists q, nth_error (snd st) i = Some (Num q) /\
                              (0 <= wa * wm ->
                               0 <= q <= inject_Z (Z.of_nat (Z.to_nat rm)) * (wa * wm))) /\
                 (forall i, (k <= i < Z.to_nat rm)%nat ->
                    nth_error (snd st) i = Some (Num 0)))
              (fun st i =>
                 for_each (arange rm)
                   (fun st j => PowerLaw.qint_step wa wm ca cm i j st) st)
              (arange n) (c, repeat (Num 0) (Z.to_nat rm)))
    as ([c' qs'] & Hrun & Hc' & Hlen & Hdone & _).
  - split; [exact Hc|]. cbn [snd]. split; [apply repeat_length|]. split.
    + intros i Hi. lia.
    + intros i Hi. apply nth_error_repeat_lt. lia.
  - intros k [c1 qs1] i Hi (Hc1 & Hlen1 & Hdone1 & Htodo1). cbn [fst snd] in *.
    apply nth_error_arange_inv in Hi as [-> Hk].
    destruct (powerlaw_row_unit (Z.of_nat k) c1 qs1 0 Hc1) as (c2 & q2 & Hrow & Hc2 & Hq2).
    + lia.
    + rewrite Nat2Z.id. apply Htodo1. lia.
    + rewrite Nat2Z.id in Hrow.
      eexists. split; [exact Hrow|]. split; [exact Hc2|]. cbn [fst snd].
      split; [now rewrite length_list_set|]. split.
      * intros i Hi. destruct (Nat.eq_dec i k) as [->|Hne].
        -- exists q2. split; [apply nth_error_list_set_eq; lia|].
           intros Hw. specialize (Hq2 Hw). split; qlra.
        -- rewrite nth_error_list_set_ne by lia. apply Hdone1. lia.
      * intros i Hi. rewrite nth_error_list_set_ne by lia. apply Htodo1. lia.
  - exists c', qs'. cbn [fst snd] in *. split; [exact Hrun|].
    split; [exact Hc'|]. split; [exact Hlen|].
    intros i Hi. apply Hdone. now rewrite length_arange.
Qed.

End PowerLawLoops.

Section PowerLawConstruction.
Context {L : Libm}.

(** The grid both constructors build is regular and, after the NaN
    fill, has every cell in [0, 1]. *)
Lemma constructor_grid (c : Completeness.t) (mass_lim : Q * Q) :
  (forall a b, a < b -> pow10 a < pow10 b) ->
  np_log10 (1 # 100) < np_log10 40 ->
  np_log10 (fst mass_lim) < np_log10 (snd mass_lim) ->
  Completeness.interpolator c = None ->
  exists g,
    Spec.regular (Completeness.xgrid g) (Completeness.ygrid g) (Completeness.z g) /\
    Spec.cells (fun q => 0 <= q <= 1) (Completeness.z g) /\
    Spec.on_grid g
      (Completeness.fill_nan
         (Completeness.completeness_grid c (1 # 100, 40) mass_lim 20 (1 # 2) (1 # 2)) 1).
Proof.
  intros Hpow Hax Hmass Hnone.
  pose proof (logspace_ascending (1 # 100, 40) 20 Hpow Hax) as Hxa.
  pose proof (logspace_ascending mass_lim 20 Hpow Hmass) as Hya.
  eexists {| Completeness.xgrid := _; Completeness.ygrid := _; Completeness.z := _ |}.
  split; [|split; [|split; [reflexivity|left; exact Hnone]]].
  - constructor; cbn [Completeness.xgrid Completeness.ygrid Completeness.z].
    + exact Hxa.
    + exact Hya.
    + unfold Completeness.logspace_lim. rewrite length_map, length_linspace. lia.
    + unfold Completeness.logspace_lim. rewrite length_map, length_linspace. lia.
    + apply shape_ok_matrix.
  - cbn [Completeness.z]. apply filled_cells_unit. split; discriminate.
Qed.

Lemma length_centers (lo width : Q) (res : Z) :
  length (PowerLaw.centers lo width res) = Z.to_nat res.
Proof. unfold PowerLaw.centers. now rewrite length_map, length_arange. Qed.

(** X14.  [PowerLaw] cannot be constructed with more axis divisions
    than mass divisions: [Qints] has [lnm_res] entries and the
    accumulation loop writes [Qints[i]] for the axis index [i], so with
    [1 <= lnm_res < lna_res] the constructor fails with IndexError at
    [i = lnm_res]. *)
Theorem PowerLaw_init_fails_with_more_axis_divisions
    (pop : Hierarchy.Population) (c : Completeness.t) (ra rm : Z)
    (edges : PowerLaw.Edges) :
  (forall a b, a < b -> pow10 a < pow10 b) ->
  np_log10 (1 # 100) < np_log10 40 ->
  np_log10 2 < np_log10 7000 ->
  Completeness.interpolator c = None ->
  (1 <= rm < ra)%Z ->
  PowerLaw.init pop c ra rm edges = Raise IndexError.
Proof.
  intros Hpow Hax Hmass Hnone Hres.
  destruct (constructor_grid c (2, 7000) Hpow Hax Hmass Hnone) as (g & Hreg & Hunit & Hon).
  unfold PowerLaw.init, PowerLaw.zeros.
  destruct (Z.ltb_spec rm 0); [lia|]. destruct (Z.ltb_spec ra 0); [lia|].
  cbn [bind].
  set (wa := PowerLaw.ln_span (fst edges) / inject_Z ra).
  set (wm := PowerLaw.ln_span (snd edges) / inject_Z rm).
  set (ca := PowerLaw.centers (fst (fst edges)) wa ra).
  set (cm := PowerLaw.centers (fst (snd edges)) wm rm).
  set (c2 := Completeness.fill_nan _ 1) in *.
  unfold PowerLaw.qint_loops.
  rewrite (arange_split rm ra) by lia. rewrite for_each_app.
  destruct (powerlaw_loops_unit g Hreg Hunit wa wm ca cm rm
              (length_centers _ _ _) rm c2 Hon)
    as (c3 & qs & -> & _ & Hlen & _).
  { unfold ca. rewrite length_centers. lia. }
  { lia. }
  cbn [bind for_each].
  rewrite (arange_split 0 rm) by lia. cbn [arange Z.to_nat seq map app for_each].
  unfold PowerLaw.qint_step at 1. cbn [fst snd].
  rewrite getitem_past_end by lia. reflexivity.
Qed.


End PowerLawConstruction.

(** ** lngrid: areas *)

Section LnGridArea.
Local Open Scope R_scope.
Import LnGrid.



(** X17.  A resolution that is not positive leaves [lngrid] without
    any bin. *)
Theorem lngrid_without_divisions (min_a max_a min_M max_M : R) (resa resm : Z) :
  (resa <= 0)%Z \/ (resm <= 0)%Z ->
  lngrid min_a max_a min_M max_M resa resm = [].
Proof.
  intros H. unfold lngrid, arange. destruct H as [H|H].
  - replace (Z.to_nat resa) with 0%nat by lia. reflexivity.
  - replace (Z.to_nat resm) with 0%nat by lia. cbn [seq map].
    induction (map Z.of_nat (seq 0 (Z.to_nat resa))) as [|i l IH];
      [reflexivity|exact IH].
Qed.

End LnGridArea.

(** ** lnlike returns *)

Section LnlikeReturns.
Context {L : Libm}.
Variable g : Completeness.Grid.
Hypothesis g_regular :
  Spec.regular (Completeness.xgrid g) (Completeness.ygrid g) (Completeness.z g).
Hypothesis g_unit : Spec.cells (fun q => 0 <= q <= 1) (Completeness.z g).

(** A call without [refresh] on an object that interpolates on [g]
    returns one value per point and leaves such an object. *)
Lemma interpolate_returns (c : Completeness.t) (xs ys : list Q) :
  Spec.on_grid g c -> length xs = length ys ->
  exists c' vs,
    Completeness.interpolate c xs ys false = Ok (c', vs) /\
    Spec.on_grid g c' /\ length vs = length xs.
Proof.
  intros [Hg Huse] Hlen.
  destruct (interpolate_on_grid (fun q => 0 <= q <= 1) c g xs ys false
              Hg g_regular g_unit Huse Hlen) as (vs & Hcall & Hvs).
  exists (Spec.cached c g), vs. split; [exact Hcall|].
  split; [apply on_grid_cached; now split|].
  apply Forall2_length in Hvs. rewrite length_combine in Hvs. lia.
Qed.

Lemma interpolate_keeps_on_grid (c c' : Completeness.t) (xs ys : list Q)
    (vs : list fl) :
  Spec.on_grid g c ->
  Completeness.interpolate c xs ys false = Ok (c', vs) ->
  Spec.on_grid g c'.
Proof.
  intros Hc Hcall.
  assert (Hlen : length xs = length ys).
  { unfold Completeness.interpolate in Hcall.
    apply bind_inv in Hcall as (s1 & _ & Hcall).
    destruct (Completeness.interpolator s1); [|discriminate].
    apply bind_inv in Hcall as (pts & Hpts & _).
    unfold stack_points in Hpts.
    destruct (Nat.eqb_spec (length xs) (length ys)); [assumption|discriminate]. }
  destruct (interpolate_returns c xs ys Hc Hlen) as (c1 & vs1 & Hcall1 & Hc1 & _).
  rewrite Hcall in Hcall1. now injection Hcall1 as -> _.
Qed.

(** The accumulation loop of the constructor of [Hierarchy] leaves an
    object that interpolates on the same grid. *)
Lemma qint_loops_on_grid (areas : list (list Q)) (res : Z) (bs : list Hierarchy.Bin)
    (c c' : Completeness.t) (qs qs' : list fl) :
  Spec.on_grid g c ->
  Hierarchy.qint_loops areas res bs (c, qs) = Ok (c', qs') ->
  Spec.on_grid g c'.
Proof.
  intros Hc Hrun. unfold Hierarchy.qint_loops in Hrun.
  refine (for_each_invariant (fun st => Spec.on_grid g (fst st)) _ _ (c, qs) (c', qs')
            _ Hc Hrun).
  intros s nb s' _ Hs Hb.
  refine (for_each_invariant (fun st => Spec.on_grid g (fst st)) _ _ s s' _ Hs Hb).
  clear s s' Hs Hb. intros s i s' _ Hs Hb.
  refine (for_each_invariant (fun st => Spec.on_grid g (fst st)) _ _ s s' _ Hs Hb).
  clear s s' Hs Hb. intros s j s' _ Hs Hstep.
  unfold Hierarchy.qint_step in Hstep.
  apply bind_inv in Hstep as (old & _ & Hstep).
  apply bind_inv in Hstep as (row & _ & Hstep).
  apply bind_inv in Hstep as (area & _ & Hstep).
  apply bind_inv in Hstep as ([c1 vs] & Hcall & Hstep).
  apply bind_inv in Hstep as (v & _ & Hstep).
  apply bind_inv in Hstep as (qs1 & _ & Hstep).
  injection Hstep as <-. cbn [fst].
  exact (interpolate_keeps_on_grid _ _ _ _ _ Hs Hcall).
Qed.

Variable self : Hierarchy.t.
Variable theta : list Q.
Hypothesis axis_divisions : (1 <= Hierarchy.nabins self)%Z.
Hypothesis mass_divisions : (1 <= Hierarchy.nmbins self)%Z.
Hypothesis theta_length :
  (Hierarchy.nabins self * Hierarchy.nmbins self <= Z.of_nat (length theta))%Z.

Lemma occurrence_returns (lna lnm : list Q) :
  length lna = length lnm ->
  exists occ, Hierarchy.occurrence self lna lnm theta = Ok occ /\
              length occ = length lna.
Proof.
  intros Hlen. unfold Hierarchy.occurrence. rewrite Hlen, Nat.eqb_refl.
  eexists. split.
  - apply map_res_pointwise. intros p _.
    apply (occurrence1_spec self theta (fst p) (snd p)
             axis_divisions mass_divisions theta_length).
  - rewrite length_map, length_combine. lia.
Qed.

Lemma planet_sums_return (ps : list Hierarchy.Planet) (c : Completeness.t)
    (sums : list fl) :
  Forall (fun p => length (Hierarchy.sample_a p) = length (Hierarchy.sample_M p)) ps ->
  Spec.on_grid g c ->
  exists c' sums',
    for_each ps (Hierarchy.planet_sum self theta) (c, sums) = Ok (c', sums') /\
    Spec.on_grid g c'.
Proof.
  intros Hps. revert c sums. induction Hps as [|p ps Hp _ IH]; intros c sums Hc.
  - exists c, sums. split; [reflexivity|exact Hc].
  - cbn [for_each]. unfold Hierarchy.planet_sum at 1. cbn [fst snd].
    destruct (interpolate_returns c _ _ Hc Hp) as (c1 & vs & -> & Hc1 & _).
    cbn [bind].
    destruct (occurrence_returns (map np_log (Hierarchy.sample_a p))
                (map np_log (Hierarchy.sample_M p))) as (occ & -> & _).
    { now rewrite !length_map. }
    cbn [bind]. apply IH. exact Hc1.
Qed.

Hypothesis areas_shape :
  Hierarchy.bin_areas self
  = map (fun a => [a]) (map Spec.bin_area (Hierarchy.bins self)).

Lemma nexpect_loops_return (c : Completeness.t) (acc : fl) :
  Spec.on_grid g c ->
  exists c' ne,
    Hierarchy.nexpect_loops self theta (c, acc) = Ok (c', ne) /\
    Spec.on_grid g c'.
Proof.
  intros Hc. unfold Hierarchy.nexpect_loops.
  destruct (for_each_steps
              (fun (_ : nat) (st : Completeness.t * fl) => Spec.on_grid g (fst st))
              (fun st ib =>
                 for_each (arange 4)
                   (fun st j =>
                      for_each (arange 4)
                        (fun st k =>
                           Hierarchy.nexpect_step self theta (fst ib) (snd ib) j k st)
                        st)
                   st)
              (combine (seq 0 (length (Hierarchy.bins self))) (Hierarchy.bins self))
              (c, acc)) as ([c' ne] & Hrun & Hc').
  - exact Hc.
  - intros n st [i b] Hib Hst. cbn [fst snd].
    assert (Hi : (i < length (Hierarchy.bins self))%nat).
    { apply nth_error_In, in_combine_l, in_seq in Hib. lia. }
    apply (for_each_steps
             (fun (_ : nat) (st : Completeness.t * fl) => Spec.on_grid g (fst st))).
    + exact Hst.
    + clear st Hst. intros _ st j _ Hst.
      apply (for_each_steps
               (fun (_ : nat) (st : Completeness.t * fl) => Spec.on_grid g (fst st))).
      * exact Hst.
      * clear st Hst. intros _ [c1 a1] k _ Hst. cbn [fst] in Hst.
        unfold Hierarchy.nexpect_step. cbn [fst snd].
        destruct (getitem_nonneg (Hierarchy.bin_areas self) (Z.of_nat i))
          as (row & -> & Hrow).
        { rewrite areas_shape, !length_map. lia. }
        rewrite Nat2Z.id, areas_shape, nth_error_map in Hrow.
        destruct (nth_error (map Spec.bin_area (Hierarchy.bins self)) i) as [area|];
          [|discriminate].
        injection Hrow as <-. cbn [bind].
        change (getitem [area] 0%Z) with (Ok area). cbn [bind].
        match goal with
        | |- context [Completeness.interpolate _ [?x] [?y] false] =>
            destruct (interpolate_returns c1 [x] [y] Hst eq_refl)
              as (c2 & vs & -> & Hc2 & Hvs)
        end.
        cbn [bind].
        match goal with
        | |- context [Hierarchy.occurrence _ [?x] [?y] _] =>
            destruct (occurrence_returns [x] [y] eq_refl) as (occ & -> & Hocc)
        end.
        cbn [bind].
        destruct vs as [|v [|v' vs]]; try discriminate.
        destruct occ as [|o [|o' occ]]; try discriminate.
        cbn [map Hierarchy.fl_times combine fst snd].
        change (getitem [?x] 0%Z) with (Ok x).
        eexists. split; [reflexivity|exact Hc2].
  - exists c', ne. split; [exact Hrun|exact Hc'].
Qed.

End LnlikeReturns.

Section HierarchyLnlikeReturns.
Context {L : Libm}.

Lemma max_like_keeps (h h' : Hierarchy.t) :
  Hierarchy.max_like h = Ok h' ->
  Hierarchy.completeness h' = Hierarchy.completeness h /\
  Hierarchy.bin_areas h' = Hierarchy.bin_areas h /\
  Hierarchy.bins h' = Hierarchy.bins h /\
  Hierarchy.nabins h' = Hierarchy.nabins h /\
  Hierarchy.nmbins h' = Hierarchy.nmbins h /\
  Hierarchy.pop h' = Hierarchy.pop h /\
  Hierarchy.ceiling h' <> None.
Proof.
  intros Hml. unfold Hierarchy.max_like in Hml.
  apply bind_inv in Hml as (rows & _ & Hml).
  destruct (flat_map _ rows); [discriminate|]. injection Hml as <-.
  repeat split; discriminate.
Qed.

(** X18.  [lnlike] returns on an instance that went through the
    constructor (on a completeness object without cached interpolator,
    with increasing grid limits) and [max_like()]: when the bins span
    at least one division of each axis, theta has a component for
    every pair of divisions and every planet has as many axis samples
    as mass samples, it raises nothing, and the instance it leaves
    differs from the one it was called on in the completeness object
    at most. *)
Theorem Hierarchy_lnlike_returns
    (pop : Hierarchy.Population) (c : Completeness.t) (res : Z)
    (bins : list Hierarchy.Bin) (nstars : option Z) (mass_lim : Q * Q)
    (fraction : bool) (h h' : Hierarchy.t) (theta : list Q) :
  (forall a b, a < b -> pow10 a < pow10 b) ->
  np_log10 (1 # 100) < np_log10 40 ->
  np_log10 (fst mass_lim) < np_log10 (snd mass_lim) ->
  Completeness.interpolator c = None ->
  Hierarchy.init pop c res bins nstars mass_lim fraction = Ok h ->
  Hierarchy.max_like h = Ok h' ->
  (exists b, In b bins /\ Hierarchy.a_lo b < Hierarchy.a_hi b) ->
  (exists b, In b bins /\ Hierarchy.m_lo b < Hierarchy.m_hi b) ->
  (Hierarchy.nabins h' * Hierarchy.nmbins h' <= Z.of_nat (length theta))%Z ->
  Forall (fun p => length (Hierarchy.sample_a p) = length (Hierarchy.sample_M p))
    (Hierarchy.planets pop) ->
  exists c' ll,
    Hierarchy.lnlike h' theta = Ok (Hierarchy.with_completeness h' c', ll).
Proof.
  intros Hpow Hax Hmass Hnone Hinit Hml Hea Hem Hth Hps.
  destruct (constructor_grid c mass_lim Hpow Hax Hmass Hnone) as (g & Hreg & Hunit & Hon).
  destruct (init_edges _ _ _ _ _ _ _ _ Hinit) as (_ & _ & _ & _ & Hareas & Hna & Hnm).
  specialize (Hna Hea). specialize (Hnm Hem).
  assert (Hh : Spec.on_grid g (Hierarchy.completeness h) /\
               Hierarchy.bins h = bins /\ Hierarchy.pop h = pop).
  { unfold Hierarchy.init in Hinit.
    apply bind_inv in Hinit as ([c3 qs] & Hloops & Hinit). injection Hinit as <-.
    cbn [Hierarchy.completeness Hierarchy.bins Hierarchy.pop].
    split; [|split; reflexivity].
    exact (qint_loops_on_grid g Hreg Hunit _ _ _ _ _ _ _ Hon Hloops). }
  destruct Hh as (Hgrid & Hbins & Hpop).
  destruct (max_like_keeps h h' Hml) as (Kc & Ka & Kb & Kna & Knm & Kp & Kceil).
  rewrite <- Kc in Hgrid. rewrite <- Ka in Hareas. rewrite <- Kna in Hna.
  rewrite <- Knm in Hnm. rewrite <- Hbins, <- Kb in Hareas.
  rewrite <- Hpop, <- Kp in Hps.
  clear Hinit Hml Kc Ka Kb Kna Knm Kp Hbins Hpop Hea Hem h.
  destruct (Hierarchy.ceiling h') as [top|] eqn:Hceil; [clear Kceil|contradiction].
  unfold Hierarchy.lnlike.
  assert (Hhb : exists r, Hierarchy.hard_bound h' theta = Ok r).
  { unfold Hierarchy.hard_bound. rewrite Hceil.
    destruct (Hierarchy.fraction h').
    - destruct (area_sum_is_product_of_sums h' _ theta Hareas) as (s & -> & _).
      cbn [bind]. destruct (Hierarchy.ratio_exceeds_one s _); eauto.
    - cbn [bind]. eauto. }
  destruct Hhb as (r & ->). cbn [bind]. destruct r.
  - exists (Hierarchy.completeness h'), Hierarchy.NegInf. now destruct h'.
  - destruct (planet_sums_return g Hreg Hunit h' theta Hna Hnm Hth
                (Hierarchy.planets (Hierarchy.pop h')) (Hierarchy.completeness h') []
                Hps Hgrid) as (c1 & sums & -> & Hc1).
    cbn [bind].
    destruct (nexpect_loops_return g Hreg Hunit h' theta Hna Hnm Hth Hareas c1 (Num 0) Hc1)
      as (c2 & ne & -> & _).
    cbn [bind]. eauto.
Qed.

End HierarchyLnlikeReturns.

Section PowerLawLnlikeReturns.
Context {L : Libm}.

Lemma occurrence_two_components (self : PowerLaw.t) (mass : list Q)
    (c e : Q) (rest : list Q) :
  PowerLaw.occurrence self mass (c :: e :: rest)
  = Ok (map (Spec.power_law_at self c e) mass).
Proof.
  assert (H0 : getitem (c :: e :: rest) 0%Z = Ok c)
    by (apply (getitem_nth_error _ 0%nat); reflexivity).
  assert (H1 : getitem (c :: e :: rest) 1%Z = Ok e)
    by (apply (getitem_nth_error _ 1%nat); reflexivity).
  unfold PowerLaw.occurrence. rewrite H0, H1. cbn [bind].
  apply map_res_pointwise. intros m _.
  unfold PowerLaw.occurrence1. rewrite H0, H1. cbn [bind].
  unfold Spec.power_law_at, Qltb.
  destruct (Qle_bool (fst (snd (PowerLaw.edges self))) m),
           (Qle_bool (snd (snd (PowerLaw.edges self))) m); reflexivity.
Qed.

Lemma powerlaw_loops_on_grid (g : Completeness.Grid) (wa wm : Q) (ca cm : list Q)
    (ra rm : Z) (c c' : Completeness.t) (qs qs' : list fl) :
  Spec.regular (Completeness.xgrid g) (Completeness.ygrid g) (Completeness.z g) ->
  Spec.cells (fun q => 0 <= q <= 1) (Completeness.z g) ->
  Spec.on_grid g c ->
  PowerLaw.qint_loops wa wm ca cm ra rm (c, qs) = Ok (c', qs') ->
  Spec.on_grid g c'.
Proof.
  intros Hreg Hunit Hc Hrun. unfold PowerLaw.qint_loops in Hrun.
  refine (for_each_invariant (fun st => Spec.on_grid g (fst st)) _ _ (c, qs) (c', qs')
            _ Hc Hrun).
  intros s i s' _ Hs Hb.
  refine (for_each_invariant (fun st => Spec.on_grid g (fst st)) _ _ s s' _ Hs Hb).
  clear s s' Hs Hb. intros s j s' _ Hs Hstep.
  unfold PowerLaw.qint_step in Hstep.
  apply bind_inv in Hstep as (old & _ & Hstep).
  apply bind_inv in Hstep as (a & _ & Hstep).
  apply bind_inv in Hstep as (m & _ & Hstep).
  apply bind_inv in Hstep as ([c1 vs] & Hcall & Hstep).
  apply bind_inv in Hstep as (v & _ & Hstep).
  apply bind_inv in Hstep as (qs1 & _ & Hstep).
  injection Hstep as <-. cbn [fst].
  exact (interpolate_keeps_on_grid g Hreg Hunit _ _ _ _ _ Hs Hcall).
Qed.

Lemma length_div_span (qs : list fl) (span : Q) :
  length (PowerLaw.div_span qs span) = length qs.
Proof.
  unfold PowerLaw.div_span. destruct (Qeq_bool span 0); apply length_map.
Qed.

(** X19.  [PowerLaw.lnlike] returns on a constructed instance: after a
    construction with [lna_res <= lnm_res] on a completeness object
    without cached interpolator, for a theta of two components or more
    and planets with as many axis samples as mass samples, it raises
    nothing, and the instance it leaves differs from the one it was
    called on in the completeness object at most. *)
Theorem PowerLaw_lnlike_returns
    (pop : Hierarchy.Population) (c : Completeness.t) (ra rm : Z)
    (edges : PowerLaw.Edges) (self : PowerLaw.t) (c0 e0 : Q) (rest : list Q) :
  (forall a b, a < b -> pow10 a < pow10 b) ->
  np_log10 (1 # 100) < np_log10 40 ->
  np_log10 2 < np_log10 7000 ->
  Completeness.interpolator c = None ->
  PowerLaw.init pop c ra rm edges = Ok self ->
  (ra <= rm)%Z ->
  Forall (fun p => length (Hierarchy.sample_a p) = length (Hierarchy.sample_M p))
    (Hierarchy.planets pop) ->
  exists c' ll,
    PowerLaw.lnlike self (c0 :: e0 :: rest)
    = Ok (PowerLaw.with_completeness self c', ll).
Proof.
  intros Hpow Hax Hmass Hnone Hinit Hres Hps.
  destruct (constructor_grid c (2, 7000) Hpow Hax Hmass Hnone) as (g & Hreg & Hunit & Hon).
  unfold PowerLaw.init in Hinit.
  apply bind_inv in Hinit as (q0 & Hq0 & Hinit).
  apply bind_inv in Hinit as (z0 & Hz0 & Hinit).
  apply bind_inv in Hinit as ([c3 qs] & Hloops & Hinit).
  injection Hinit as Hself.
  unfold PowerLaw.zeros in Hq0, Hz0.
  destruct (Z.ltb_spec rm 0); [discriminate|]. injection Hq0 as <-.
  destruct (Z.ltb_spec ra 0); [discriminate|]. clear Hz0 z0.
  pose proof (powerlaw_loops_on_grid g _ _ _ _ _ _ _ _ _ _ Hreg Hunit Hon Hloops) as Hc3.
  apply qint_loops_untouched in Hloops as [Hlen _]. rewrite repeat_length in Hlen.
  set (theta := c0 :: e0 :: rest).
  assert (Hplanets : forall ps c1 sums,
            Forall (fun p => length (Hierarchy.sample_a p) = length (Hierarchy.sample_M p)) ps ->
            Spec.on_grid g c1 ->
            exists c' sums',
              for_each ps (PowerLaw.planet_sum self theta) (c1, sums) = Ok (c', sums')).
  { intros ps c1 sums Hall. revert c1 sums.
    induction Hall as [|p ps Hp _ IH]; intros c1 sums Hc1.
    - exists c1, sums. reflexivity.
    - cbn [for_each]. unfold PowerLaw.planet_sum at 1. cbn [fst snd].
      destruct (interpolate_returns g Hreg Hunit c1 _ _ Hc1 Hp) as (c2 & vs & -> & Hc2 & _).
      cbn [bind]. unfold theta at 1. rewrite occurrence_two_components. cbn [bind].
      apply IH. exact Hc2. }
  assert (Hne : exists ne, PowerLaw.nexpect self theta = Ok ne).
  { unfold PowerLaw.nexpect.
    destruct (for_each_steps (fun (_ : nat) (_ : fl) => True)
                (PowerLaw.nexpect_step self theta)
                (arange (PowerLaw.lna_res self)) (Num 0) I) as (ne & Hrun & _);
      [|eauto].
    intros k acc i Hi _. apply nth_error_arange_inv in Hi as [-> Hk].
    subst self. cbn [PowerLaw.lna_res] in Hk.
    unfold PowerLaw.nexpect_step. cbn [PowerLaw.Qints PowerLaw.lnm_centers].
    destruct (getitem_nonneg (PowerLaw.div_span qs (PowerLaw.ln_span (snd edges)))
                (Z.of_nat k)) as (q & -> & _).
    { rewrite length_div_span. lia. }
    cbn [bind].
    match goal with
    | |- context [getitem (PowerLaw.centers ?lo ?w rm) _] =>
        destruct (getitem_nonneg (PowerLaw.centers lo w rm) (Z.of_nat k)) as (m & -> & _)
    end.
    { rewrite length_centers. lia. }
    cbn [bind]. unfold theta at 1. rewrite occurrence_two_components.
    cbn [bind map Hierarchy.fl_times combine fst snd].
    match goal with |- context [getitem [?x] 0%Z] => change (getitem [x] 0%Z) with (Ok x) end.
    cbn [bind]. eauto. }
  unfold PowerLaw.lnlike.
  destruct (Hplanets (Hierarchy.planets (PowerLaw.pop self)) (PowerLaw.completeness self) [])
    as (c1 & sums & -> ).
  { subst self. exact Hps. }
  { subst self. exact Hc3. }
  cbn [bind]. destruct Hne as (ne & ->). cbn [bind]. eauto.
Qed.

End PowerLawLnlikeReturns.

(** * The further properties at concrete inputs *)

Lemma constructed_is_fresh : Example.constructed = Ok Example.fresh.
Proof. vm_compute. reflexivity. Defined.

Lemma fresh_max_like :
  Hierarchy.max_like (L := Example.linear_libm) Example.fresh = Ok Example.hierarchy.
Proof. vm_compute. reflexivity. Defined.

Lemma filled_grid_is_unit_witness :
  0 <= 1 <= 1 /\
  exists g,
    Completeness.grid
      (Completeness.fill_nan
         (Completeness.completeness_grid (L := Example.linear_libm)
            (Completeness.init Example.twelve_trials) (1, 2) (1, 2) 2 (1 # 2) (1 # 2)) 1)
    = Some g /\
    length (Completeness.xgrid g) = 2%nat /\
    length (Completeness.ygrid g) = 2%nat /\
    length (Completeness.z g) = 2%nat /\
    Forall (fun row => length row = 2%nat) (Completeness.z g) /\
    Spec.cells (fun q => 0 <= q <= 1) (Completeness.z g).
Proof.
  assert (H : 0 <= 1 <= 1) by (split; discriminate).
  split; [exact H|].
  exact (filled_grid_is_unit (L := Example.linear_libm)
           (Completeness.init Example.twelve_trials) (1, 2) (1, 2) 2
           (1 # 2) (1 # 2) 1 H).
Defined.


Lemma interpolate_leaves_cache_witness :
  Completeness.interpolate Example.with_small_grid [3 # 2] [3 # 2] false
  = Ok (fst Example.probed, snd Example.probed) /\
  Completeness.interpolate (fst Example.probed) [3 # 2] [3 # 2] false
  = Ok (fst Example.probed, snd Example.probed).
Proof.
  assert (H : Completeness.interpolate Example.with_small_grid [3 # 2] [3 # 2] false
              = Ok (fst Example.probed, snd Example.probed))
    by (vm_compute; reflexivity).
  split; [exact H|].
  apply (interpolate_leaves_cache Example.with_small_grid (fst Example.probed)
           [3 # 2] [3 # 2] false (snd Example.probed) H).
Defined.

Lemma max_like_rows_and_ceiling_witness :
  length (Hierarchy.Qints Example.fresh) = length (Hierarchy.bins Example.fresh) /\
  ((Hierarchy.bins Example.fresh = [] /\
    Hierarchy.max_like (L := Example.linear_libm) Example.fresh = Raise ValueError) \/
   exists self' rows c,
     Hierarchy.max_like (L := Example.linear_libm) Example.fresh = Ok self' /\
     Hierarchy.bins self' = Hierarchy.bins Example.fresh /\
     Hierarchy.Qints self' = Hierarchy.Qints Example.fresh /\
     Hierarchy.mlvalues self' = Some rows /\
     Hierarchy.ceiling self' = Some c /\
     length rows = length (Hierarchy.bins Example.fresh) /\
     (forall r, In r rows ->
        ~ fst r == 0 /\ ~ snd r == 0 /\ fst r <= c /\ snd r <= c) /\
     (exists r, In r rows /\ (c == fst r \/ c == snd r))).
Proof.
  split; [reflexivity|].
  apply (max_like_rows_and_ceiling (L := Example.linear_libm) Example.fresh).
  reflexivity.
Defined.

Lemma max_like_without_detections_witness :
  Hierarchy.pop_med Example.fresh = [] /\
  exists self' c,
    Hierarchy.max_like (L := Example.linear_libm) Example.fresh = Ok self' /\
    Hierarchy.mlvalues self' = Some (repeat (1 # 100, 1) 2) /\
    Hierarchy.ceiling self' = Some c /\ c == 1.
Proof.
  split; [reflexivity|].
  apply (max_like_without_detections (L := Example.linear_libm) Example.fresh).
  - reflexivity.
  - discriminate.
  - intros b _. reflexivity.
Defined.

Lemma Hierarchy_needs_max_like_witness :
  Example.constructed = Ok Example.fresh /\
  Example.two_bins <> [] /\
  forall noise, Hierarchy.initial_positions Example.fresh noise = Raise AttributeError.
Proof.
  assert (Hne : Example.two_bins <> []) by discriminate.
  split; [exact constructed_is_fresh|]. split; [exact Hne|].
  exact (proj1 (proj2 (Hierarchy_needs_max_like (L := Example.linear_libm)
                         Example.no_planets Example.no_trials 1 Example.two_bins
                         (Some 3%Z) (3, 7000) true Example.fresh [1; 1]
                         constructed_is_fresh)) Hne).
Defined.

Lemma lnlike_rejects_component_out_of_range_witness :
  Hierarchy.ceiling Example.hierarchy = Some 1 /\
  Hierarchy.lnlike (L := Example.linear_libm) Example.hierarchy [1 # 2; 11]
  = Ok (Example.hierarchy, Hierarchy.NegInf).
Proof.
  split; [reflexivity|].
  apply (lnlike_rejects_component_out_of_range (L := Example.linear_libm)
           Example.no_planets Example.no_trials 1 Example.two_bins
           (Some 3%Z) (3, 7000) true Example.fresh Example.hierarchy
           [1 # 2; 11] 1 11).
  - exact constructed_is_fresh.
  - exact fresh_max_like.
  - reflexivity.
  - right. left. reflexivity.
  - right. reflexivity.
Defined.

Lemma lnlike_fraction_test_is_product_of_sums_witness :
  inject_Z (Hierarchy.nstars Example.hierarchy)
  < Qsum [1; 1] * Qsum (map Spec.bin_area Example.two_bins) /\
  Hierarchy.lnlike (L := Example.linear_libm) Example.hierarchy [1; 1]
  = Ok (Example.hierarchy, Hierarchy.NegInf).
Proof.
  assert (H : inject_Z (Hierarchy.nstars Example.hierarchy)
              < Qsum [1; 1] * Qsum (map Spec.bin_area Example.two_bins))
    by (vm_compute; reflexivity).
  split; [exact H|].
  apply (lnlike_fraction_test_is_product_of_sums (L := Example.linear_libm)
           Example.no_planets Example.no_trials 1 Example.two_bins
           (Some 3%Z) (3, 7000) Example.fresh Example.hierarchy [1; 1]).
  - exact constructed_is_fresh.
  - exact fresh_max_like.
  - reflexivity.
  - exact H.
Defined.

Lemma Hierarchy_walkers_start_positive_witness :
  Hierarchy.mlvalues Example.hierarchy = Some [(1 # 100, 1); (1 # 100, 1)] /\
  exists pos,
    Hierarchy.initial_positions Example.hierarchy (fun _ _ => -3) = Ok pos /\
    length pos = 8%nat /\
    forall i w, nth_error pos i = Some w ->
      length w = 2%nat /\
      forall d r, nth_error [(1 # 100, 1); (1 # 100, 1)] d = Some r ->
        exists v, nth_error w d = Some v /\
                  v = Qabs (fst r + (1 # 1000) * -3) + (1 # 10000) /\
                  1 # 10000 <= v.
Proof.
  split; [reflexivity|].
  apply (Hierarchy_walkers_start_positive Example.hierarchy
           [(1 # 100, 1); (1 # 100, 1)] (fun _ _ => -3)).
  - reflexivity.
  - reflexivity.
Defined.


Lemma PowerLaw_lnpost_is_lnlike_in_prior_box_witness :
  PowerLaw.lnlike (L := Example.linear_libm) Example.powerlaw [1; 1]
  = Ok (fst Example.powerlaw_lnlike, snd Example.powerlaw_lnlike) /\
  exists lp,
    PowerLaw.lnpost (L := Example.linear_libm) Example.powerlaw [1; 1]
    = Ok (fst Example.powerlaw_lnlike, lp) /\
    (Spec.in_prior_box 1 1 -> Spec.lnval_eq lp (snd Example.powerlaw_lnlike)) /\
    (~ Spec.in_prior_box 1 1 -> lp = Hierarchy.NegInf).
Proof.
  assert (H : PowerLaw.lnlike (L := Example.linear_libm) Example.powerlaw [1; 1]
              = Ok (fst Example.powerlaw_lnlike, snd Example.powerlaw_lnlike))
    by (vm_compute; reflexivity).
  split; [exact H|].
  exact (PowerLaw_lnpost_is_lnlike_in_prior_box (L := Example.linear_libm)
           Example.powerlaw (fst Example.powerlaw_lnlike) 1 1 []
           (snd Example.powerlaw_lnlike) H).
Defined.

Lemma PowerLaw_walkers_start_at_positive_exponent_witness :
  (0 < 30)%nat /\
  exists c e,
    nth_error (PowerLaw.initial_positions PowerLaw.max_like_values (fun _ _ => 2)) 0
    = Some [c; e] /\
    c = Qabs (5 + (1 # 100) * 2) /\
    e == 1 - (1 # 100) * 2 /\
    0 < e.
Proof.
  split; [lia|].
  apply (PowerLaw_walkers_start_at_positive_exponent (fun _ _ => 2) 0).
  - lia.
  - reflexivity.
Defined.

Lemma PowerLaw_init_fails_with_more_axis_divisions_witness :
  (1 <= 1 < 2)%Z /\
  PowerLaw.init (L := Example.linear_libm) Example.no_planets Example.no_trials 2 1
    Example.default_edges = Raise IndexError.
Proof.
  split; [lia|].
  apply (PowerLaw_init_fails_with_more_axis_divisions (L := Example.linear_libm)
           Example.no_planets Example.no_trials 2 1 Example.default_edges).
  - intros a b H. exact H.
  - reflexivity.
  - reflexivity.
  - reflexivity.
  - lia.
Defined.



Lemma lngrid_without_divisions_witness :
  ((0 <= 0)%Z \/ (3 <= 0)%Z) /\ LnGrid.lngrid 1 2 3 300 0 3 = [].
Proof.
  assert (H : (0 <= 0)%Z \/ (3 <= 0)%Z) by (left; lia).
  split; [exact H|].
  exact (lngrid_without_divisions 1 2 3 300 0 3 H).
Defined.

Lemma Hierarchy_lnlike_returns_witness :
  Example.constructed = Ok Example.fresh /\
  Hierarchy.max_like (L := Example.linear_libm) Example.fresh = Ok Example.hierarchy /\
  exists c' ll,
    Hierarchy.lnlike (L := Example.linear_libm) Example.hierarchy [1 # 2; 1 # 2]
    = Ok (Hierarchy.with_completeness Example.hierarchy c', ll).
Proof.
  split; [exact constructed_is_fresh|]. split; [exact fresh_max_like|].
  apply (Hierarchy_lnlike_returns (L := Example.linear_libm)
           Example.no_planets Example.no_trials 1 Example.two_bins (Some 3%Z)
           (3, 7000) true Example.fresh Example.hierarchy [1 # 2; 1 # 2]).
  - intros a b H. exact H.
  - reflexivity.
  - reflexivity.
  - reflexivity.
  - exact constructed_is_fresh.
  - exact fresh_max_like.
  - exists ((1, 2), (3, 4)). split; [left; reflexivity|reflexivity].
  - exists ((1, 2), (3, 4)). split; [left; reflexivity|reflexivity].
  - vm_compute; discriminate.
  - constructor.
Defined.

Lemma powerlaw_is_constructed : Example.powerlaw_constructed = Ok Example.powerlaw.
Proof. vm_compute. reflexivity. Defined.

Lemma PowerLaw_lnlike_returns_witness :
  Example.powerlaw_constructed = Ok Example.powerlaw /\
  exists c' ll,
    PowerLaw.lnlike (L := Example.linear_libm) Example.powerlaw [1; 1]
    = Ok (PowerLaw.with_completeness Example.powerlaw c', ll).
Proof.
  split; [exact powerlaw_is_constructed|].
  apply (PowerLaw_lnlike_returns (L := Example.linear_libm)
           Example.no_planets Example.no_trials 2 3 Example.default_edges
           Example.powerlaw 1 1 []).
  - intros a b H. exact H.
  - reflexivity.
  - reflexivity.
  - reflexivity.
  - exact powerlaw_is_constructed.
  - lia.
  - constructor.
Defined.
